(** * SLAMTEC RPLIDAR A2 proximity driver: frame decoder, sector partitioner
      and sector aggregator

    A shallow embedding of [AP_Proximity_RPLidarA2.cpp] / [.h].

    Conventions of the embedding.
    - Unsigned machine integers are [Z] with the wrap-around written out
      ([wrap8], [wrap16], [wrap32]); bytes are [Z] in [0, 256).
    - A [float] value is the rational number it denotes ([Q]).  Where the
      source computes a float that need not be exact (the quotient
      [distance_q2 / 4000.0f], the literal [0.20f]) the result is rounded
      to binary32 by [binary32]; comparisons and assignments of floats are
      those of the rationals.  The half degrees of the partitioner are
      exact in binary32.
    - C arrays are lists updated with [<[i := x]>]; an index outside the
      array is undefined behaviour in the source and leaves the list
      unchanged here.
    - [AP_HAL::millis()] is the argument [now] of the functions that read
      the clock: one sample per call of [update].
    - Calls into collaborators ([_uart->write], [update_boundary_for_sector],
      [init_boundary]) are recorded, in call order, in trace fields of the
      state.
    - The [Debug] macro expands to nothing ([RP_DEBUG_LEVEL] is 0).
    - The front/back obstacle estimator inside [parse_response_data] reads
      the decoded sample and writes only its own members and the globals
      it reports through; no code modelled here reads them, and they are
      left out of the state. *)

From Stdlib Require Import ZArith QArith Qround Qabs Lia Bool List.
From stdpp Require Import base list.
Import ListNotations.

Local Open Scope Z_scope.

(** ** Machine integers *)

Definition wrap8 (z : Z) : Z := z mod 256.
Definition wrap16 (z : Z) : Z := z mod 65536.
Definition wrap32 (z : Z) : Z := z mod 4294967296.

(** [int16_t] conversion of an integer value. *)
Definition to_int16 (z : Z) : Z := (z + 32768) mod 65536 - 32768.

(** Conversion of a float to an integer type: truncation toward zero. *)
Definition Qtrunc (q : Q) : Z :=
  if Qlt_le_dec q 0 then Qceiling q else Qfloor q.

(** ** binary32

    [binary32 x] is the binary32 value nearest to [x], ties to even: the
    result IEEE 754 gives a division whose exact quotient is [x], and the
    value of a decimal literal.  The significand has 24 bits; the exponent
    range is not modelled (no overflow, no subnormals: the floats of the
    driver lie between 2^-12 and 2^9). *)

Definition round_half_even (x : Q) : Z :=
  let f := Qfloor x in
  match (x - inject_Z f ?= 1 # 2)%Q with
  | Lt => f
  | Gt => f + 1
  | Eq => if Z.even f then f else f + 1
  end.

(** The [e] with [2^e <= x < 2^(e+1)], for [x > 0]. *)
Definition binade (x : Q) : Z :=
  let e := Z.log2 (Qnum x) - Z.log2 (Zpos (Qden x)) in
  if Qlt_le_dec x (2 ^ e) then e - 1 else e.

Definition binary32 (x : Q) : Q :=
  match Qnum x with
  | 0 => 0%Q
  | _ =>
    let e := binade (Qabs x) in
    (inject_Z (round_half_even (x * 2 ^ (23 - e))) * 2 ^ (e - 23))%Q
  end.

#[global] Arguments binary32 : simpl never.

(** ** Protocol constants ([AP_Proximity_RPLidarA2.h] and the [.cpp] macros) *)

Definition RPLIDAR_PREAMBLE : Z := 0xA5.
Definition RPLIDAR_CMD_STOP : Z := 0x25.
Definition RPLIDAR_CMD_SCAN : Z := 0x20.
Definition RPLIDAR_CMD_FORCE_SCAN : Z := 0x21.
Definition RPLIDAR_CMD_RESET : Z := 0x40.
Definition RPLIDAR_CMD_GET_DEVICE_INFO : Z := 0x50.
Definition RPLIDAR_CMD_GET_DEVICE_HEALTH : Z := 0x52.
Definition RPLIDAR_CMD_EXPRESS_SCAN : Z := 0x82.

Definition COMM_ACTIVITY_TIMEOUT_MS : Z := 200.
Definition RESET_RPA2_WAIT_MS : Z := 8.
Definition RESYNC_TIMEOUT : Z := 5000.

(** ** Enumerations *)

Inductive rp_state : Set :=
| rp_unknown
| rp_resetted
| rp_responding
| rp_measurements
| rp_health.

Inductive ResponseType : Set :=
| ResponseType_Descriptor
| ResponseType_SCAN
| ResponseType_EXPRESS
| ResponseType_Health.

(** [AP_Proximity::Proximity_Status], declared by the frontend. *)
Inductive Proximity_Status : Set :=
| Proximity_NotConnected
| Proximity_NoData
| Proximity_Good.

Definition rp_state_eqb (a b : rp_state) : bool :=
  match a, b with
  | rp_unknown, rp_unknown | rp_resetted, rp_resetted
  | rp_responding, rp_responding | rp_measurements, rp_measurements
  | rp_health, rp_health => true
  | _, _ => false
  end.

(** ** The sensor instance

    One record for the members of [AP_Proximity_RPLidarA2] and the members
    of its base class that the driver reads or writes, followed by the
    record of the calls it makes into its collaborators. *)

Record State := mkState {
  status : Proximity_Status;  (* sensor health reported to the frontend (set_status) *)
  _num_sectors : Z;  (* number of sectors in use *)
  _sector_middle_deg : list Q;  (* middle angle of each sector *)
  _sector_width_deg : list Z;  (* width of each sector *)
  _angle : list Q;  (* committed angle per sector *)
  _distance : list Q;  (* committed distance per sector *)
  _distance_valid : list bool;  (* committed reading is valid *)
  _uart : bool;  (* false stands for nullptr *)
  _descriptor : list Z;  (* uint8_t[7] *)
  _rp_systeminfo : list Z;  (* char[63] *)
  _descriptor_data : bool;
  _information_data : bool;
  _resetted : bool;
  _initialised : bool;
  _sector_initialised : bool;
  _payload_length : Z;  (* uint8_t *)
  _cnt : Z;  (* uint8_t *)
  _sync_error : Z;  (* uint8_t *)
  _byte_count : Z;  (* uint16_t *)
  _response_type : ResponseType;
  _rp_state : rp_state;
  _last_sector : Z;  (* uint8_t *)
  _last_request_ms : Z;  (* uint32_t *)
  _last_distance_received_ms : Z;  (* uint32_t *)
  _last_reset_ms : Z;  (* uint32_t *)
  _angle_deg_last : Q;  (* float *)
  _distance_m_last : Q;  (* float *)
  payload : list Z;  (* the 5-byte payload union, as its byte array *)
  uart_written : list (list Z);  (* frames passed to _uart->write *)
  boundary_updated : list Z;  (* arguments of update_boundary_for_sector *)
  boundary_inits : nat  (* calls of init_boundary *)
}.

Definition set_status (v : Proximity_Status) (s : State) : State :=
  mkState v (_num_sectors s) (_sector_middle_deg s) (_sector_width_deg s) (_angle s) (_distance s)
  (_distance_valid s) (_uart s) (_descriptor s) (_rp_systeminfo s) (_descriptor_data s)
  (_information_data s) (_resetted s) (_initialised s) (_sector_initialised s) (_payload_length s)
  (_cnt s) (_sync_error s) (_byte_count s) (_response_type s) (_rp_state s) (_last_sector s)
  (_last_request_ms s) (_last_distance_received_ms s) (_last_reset_ms s) (_angle_deg_last s)
  (_distance_m_last s) (payload s) (uart_written s) (boundary_updated s) (boundary_inits s).
Definition set_num_sectors (v : Z) (s : State) : State :=
  mkState (status s) v (_sector_middle_deg s) (_sector_width_deg s) (_angle s) (_distance s)
  (_distance_valid s) (_uart s) (_descriptor s) (_rp_systeminfo s) (_descriptor_data s)
  (_information_data s) (_resetted s) (_initialised s) (_sector_initialised s) (_payload_length s)
  (_cnt s) (_sync_error s) (_byte_count s) (_response_type s) (_rp_state s) (_last_sector s)
  (_last_request_ms s) (_last_distance_received_ms s) (_last_reset_ms s) (_angle_deg_last s)
  (_distance_m_last s) (payload s) (uart_written s) (boundary_updated s) (boundary_inits s).
Definition set_sector_middle_deg (v : list Q) (s : State) : State :=
  mkState (status s) (_num_sectors s) v (_sector_width_deg s) (_angle s) (_distance s)
  (_distance_valid s) (_uart s) (_descriptor s) (_rp_systeminfo s) (_descriptor_data s)
  (_information_data s) (_resetted s) (_initialised s) (_sector_initialised s) (_payload_length s)
  (_cnt s) (_sync_error s) (_byte_count s) (_response_type s) (_rp_state s) (_last_sector s)
  (_last_request_ms s) (_last_distance_received_ms s) (_last_reset_ms s) (_angle_deg_last s)
  (_distance_m_last s) (payload s) (uart_written s) (boundary_updated s) (boundary_inits s).
Definition set_sector_width_deg (v : list Z) (s : State) : State :=
  mkState (status s) (_num_sectors s) (_sector_middle_deg s) v (_angle s) (_distance s)
  (_distance_valid s) (_uart s) (_descriptor s) (_rp_systeminfo s) (_descriptor_data s)
  (_information_data s) (_resetted s) (_initialised s) (_sector_initialised s) (_payload_length s)
  (_cnt s) (_sync_error s) (_byte_count s) (_response_type s) (_rp_state s) (_last_sector s)
  (_last_request_ms s) (_last_distance_received_ms s) (_last_reset_ms s) (_angle_deg_last s)
  (_distance_m_last s) (payload s) (uart_written s) (boundary_updated s) (boundary_inits s).
Definition set_angle (v : list Q) (s : State) : State :=
  mkState (status s) (_num_sectors s) (_sector_middle_deg s) (_sector_width_deg s) v (_distance s)
  (_distance_valid s) (_uart s) (_descriptor s) (_rp_systeminfo s) (_descriptor_data s)
  (_information_data s) (_resetted s) (_initialised s) (_sector_initialised s) (_payload_length s)
  (_cnt s) (_sync_error s) (_byte_count s) (_response_type s) (_rp_state s) (_last_sector s)
  (_last_request_ms s) (_last_distance_received_ms s) (_last_reset_ms s) (_angle_deg_last s)
  (_distance_m_last s) (payload s) (uart_written s) (boundary_updated s) (boundary_inits s).
Definition set_distance (v : list Q) (s : State) : State :=
  mkState (status s) (_num_sectors s) (_sector_middle_deg s) (_sector_width_deg s) (_angle s) v
  (_distance_valid s) (_uart s) (_descriptor s) (_rp_systeminfo s) (_descriptor_data s)
  (_information_data s) (_resetted s) (_initialised s) (_sector_initialised s) (_payload_length s)
  (_cnt s) (_sync_error s) (_byte_count s) (_response_type s) (_rp_state s) (_last_sector s)
  (_last_request_ms s) (_last_distance_received_ms s) (_last_reset_ms s) (_angle_deg_last s)
  (_distance_m_last s) (payload s) (uart_written s) (boundary_updated s) (boundary_inits s).
Definition set_distance_valid (v : list bool) (s : State) : State :=
  mkState (status s) (_num_sectors s) (_sector_middle_deg s) (_sector_width_deg s) (_angle s)
  (_distance s) v (_uart s) (_descriptor s) (_rp_systeminfo s) (_descriptor_data s)
  (_information_data s) (_resetted s) (_initialised s) (_sector_initialised s) (_payload_length s)
  (_cnt s) (_sync_error s) (_byte_count s) (_response_type s) (_rp_state s) (_last_sector s)
  (_last_request_ms s) (_last_distance_received_ms s) (_last_reset_ms s) (_angle_deg_last s)
  (_distance_m_last s) (payload s) (uart_written s) (boundary_updated s) (boundary_inits s).
Definition set_descriptor (v : list Z) (s : State) : State :=
  mkState (status s) (_num_sectors s) (_sector_middle_deg s) (_sector_width_deg s) (_angle s)
  (_distance s) (_distance_valid s) (_uart s) v (_rp_systeminfo s) (_descriptor_data s)
  (_information_data s) (_resetted s) (_initialised s) (_sector_initialised s) (_payload_length s)
  (_cnt s) (_sync_error s) (_byte_count s) (_response_type s) (_rp_state s) (_last_sector s)
  (_last_request_ms s) (_last_distance_received_ms s) (_last_reset_ms s) (_angle_deg_last s)
  (_distance_m_last s) (payload s) (uart_written s) (boundary_updated s) (boundary_inits s).
Definition set_rp_systeminfo (v : list Z) (s : State) : State :=
  mkState (status s) (_num_sectors s) (_sector_middle_deg s) (_sector_width_deg s) (_angle s)
  (_distance s) (_distance_valid s) (_uart s) (_descriptor s) v (_descriptor_data s)
  (_information_data s) (_resetted s) (_initialised s) (_sector_initialised s) (_payload_length s)
  (_cnt s) (_sync_error s) (_byte_count s) (_response_type s) (_rp_state s) (_last_sector s)
  (_last_request_ms s) (_last_distance_received_ms s) (_last_reset_ms s) (_angle_deg_last s)
  (_distance_m_last s) (payload s) (uart_written s) (boundary_updated s) (boundary_inits s).
Definition set_descriptor_data (v : bool) (s : State) : State :=
  mkState (status s) (_num_sectors s) (_sector_middle_deg s) (_sector_width_deg s) (_angle s)
  (_distance s) (_distance_valid s) (_uart s) (_descriptor s) (_rp_systeminfo s) v
  (_information_data s) (_resetted s) (_initialised s) (_sector_initialised s) (_payload_length s)
  (_cnt s) (_sync_error s) (_byte_count s) (_response_type s) (_rp_state s) (_last_sector s)
  (_last_request_ms s) (_last_distance_received_ms s) (_last_reset_ms s) (_angle_deg_last s)
  (_distance_m_last s) (payload s) (uart_written s) (boundary_updated s) (boundary_inits s).
Definition set_information_data (v : bool) (s : State) : State :=
  mkState (status s) (_num_sectors s) (_sector_middle_deg s) (_sector_width_deg s) (_angle s)
  (_distance s) (_distance_valid s) (_uart s) (_descriptor s) (_rp_systeminfo s) (_descriptor_data
  s) v (_resetted s) (_initialised s) (_sector_initialised s) (_payload_length s) (_cnt s)
  (_sync_error s) (_byte_count s) (_response_type s) (_rp_state s) (_last_sector s)
  (_last_request_ms s) (_last_distance_received_ms s) (_last_reset_ms s) (_angle_deg_last s)
  (_distance_m_last s) (payload s) (uart_written s) (boundary_updated s) (boundary_inits s).
Definition set_resetted (v : bool) (s : State) : State :=
  mkState (status s) (_num_sectors s) (_sector_middle_deg s) (_sector_width_deg s) (_angle s)
  (_distance s) (_distance_valid s) (_uart s) (_descriptor s) (_rp_systeminfo s) (_descriptor_data
  s) (_information_data s) v (_initialised s) (_sector_initialised s) (_payload_length s) (_cnt s)
  (_sync_error s) (_byte_count s) (_response_type s) (_rp_state s) (_last_sector s)
  (_last_request_ms s) (_last_distance_received_ms s) (_last_reset_ms s) (_angle_deg_last s)
  (_distance_m_last s) (payload s) (uart_written s) (boundary_updated s) (boundary_inits s).
Definition set_initialised (v : bool) (s : State) : State :=
  mkState (status s) (_num_sectors s) (_sector_middle_deg s) (_sector_width_deg s) (_angle s)
  (_distance s) (_distance_valid s) (_uart s) (_descriptor s) (_rp_systeminfo s) (_descriptor_data
  s) (_information_data s) (_resetted s) v (_sector_initialised s) (_payload_length s) (_cnt s)
  (_sync_error s) (_byte_count s) (_response_type s) (_rp_state s) (_last_sector s)
  (_last_request_ms s) (_last_distance_received_ms s) (_last_reset_ms s) (_angle_deg_last s)
  (_distance_m_last s) (payload s) (uart_written s) (boundary_updated s) (boundary_inits s).
Definition set_sector_initialised (v : bool) (s : State) : State :=
  mkState (status s) (_num_sectors s) (_sector_middle_deg s) (_sector_width_deg s) (_angle s)
  (_distance s) (_distance_valid s) (_uart s) (_descriptor s) (_rp_systeminfo s) (_descriptor_data
  s) (_information_data s) (_resetted s) (_initialised s) v (_payload_length s) (_cnt s)
  (_sync_error s) (_byte_count s) (_response_type s) (_rp_state s) (_last_sector s)
  (_last_request_ms s) (_last_distance_received_ms s) (_last_reset_ms s) (_angle_deg_last s)
  (_distance_m_last s) (payload s) (uart_written s) (boundary_updated s) (boundary_inits s).
Definition set_payload_length (v : Z) (s : State) : State :=
  mkState (status s) (_num_sectors s) (_sector_middle_deg s) (_sector_width_deg s) (_angle s)
  (_distance s) (_distance_valid s) (_uart s) (_descriptor s) (_rp_systeminfo s) (_descriptor_data
  s) (_information_data s) (_resetted s) (_initialised s) (_sector_initialised s) v (_cnt s)
  (_sync_error s) (_byte_count s) (_response_type s) (_rp_state s) (_last_sector s)
  (_last_request_ms s) (_last_distance_received_ms s) (_last_reset_ms s) (_angle_deg_last s)
  (_distance_m_last s) (payload s) (uart_written s) (boundary_updated s) (boundary_inits s).
Definition set_cnt (v : Z) (s : State) : State :=
  mkState (status s) (_num_sectors s) (_sector_middle_deg s) (_sector_width_deg s) (_angle s)
  (_distance s) (_distance_valid s) (_uart s) (_descriptor s) (_rp_systeminfo s) (_descriptor_data
  s) (_information_data s) (_resetted s) (_initialised s) (_sector_initialised s) (_payload_length
  s) v (_sync_error s) (_byte_count s) (_response_type s) (_rp_state s) (_last_sector s)
  (_last_request_ms s) (_last_distance_received_ms s) (_last_reset_ms s) (_angle_deg_last s)
  (_distance_m_last s) (payload s) (uart_written s) (boundary_updated s) (boundary_inits s).
Definition set_sync_error (v : Z) (s : State) : State :=
  mkState (status s) (_num_sectors s) (_sector_middle_deg s) (_sector_width_deg s) (_angle s)
  (_distance s) (_distance_valid s) (_uart s) (_descriptor s) (_rp_systeminfo s) (_descriptor_data
  s) (_information_data s) (_resetted s) (_initialised s) (_sector_initialised s) (_payload_length
  s) (_cnt s) v (_byte_count s) (_response_type s) (_rp_state s) (_last_sector s)
  (_last_request_ms s) (_last_distance_received_ms s) (_last_reset_ms s) (_angle_deg_last s)
  (_distance_m_last s) (payload s) (uart_written s) (boundary_updated s) (boundary_inits s).
Definition set_byte_count (v : Z) (s : State) : State :=
  mkState (status s) (_num_sectors s) (_sector_middle_deg s) (_sector_width_deg s) (_angle s)
  (_distance s) (_distance_valid s) (_uart s) (_descriptor s) (_rp_systeminfo s) (_descriptor_data
  s) (_information_data s) (_resetted s) (_initialised s) (_sector_initialised s) (_payload_length
  s) (_cnt s) (_sync_error s) v (_response_type s) (_rp_state s) (_last_sector s)
  (_last_request_ms s) (_last_distance_received_ms s) (_last_reset_ms s) (_angle_deg_last s)
  (_distance_m_last s) (payload s) (uart_written s) (boundary_updated s) (boundary_inits s).
Definition set_response_type (v : ResponseType) (s : State) : State :=
  mkState (status s) (_num_sectors s) (_sector_middle_deg s) (_sector_width_deg s) (_angle s)
  (_distance s) (_distance_valid s) (_uart s) (_descriptor s) (_rp_systeminfo s) (_descriptor_data
  s) (_information_data s) (_resetted s) (_initialised s) (_sector_initialised s) (_payload_length
  s) (_cnt s) (_sync_error s) (_byte_count s) v (_rp_state s) (_last_sector s) (_last_request_ms
  s) (_last_distance_received_ms s) (_last_reset_ms s) (_angle_deg_last s) (_distance_m_last s)
  (payload s) (uart_written s) (boundary_updated s) (boundary_inits s).
Definition set_rp_state (v : rp_state) (s : State) : State :=
  mkState (status s) (_num_sectors s) (_sector_middle_deg s) (_sector_width_deg s) (_angle s)
  (_distance s) (_distance_valid s) (_uart s) (_descriptor s) (_rp_systeminfo s) (_descriptor_data
  s) (_information_data s) (_resetted s) (_initialised s) (_sector_initialised s) (_payload_length
  s) (_cnt s) (_sync_error s) (_byte_count s) (_response_type s) v (_last_sector s)
  (_last_request_ms s) (_last_distance_received_ms s) (_last_reset_ms s) (_angle_deg_last s)
  (_distance_m_last s) (payload s) (uart_written s) (boundary_updated s) (boundary_inits s).
Definition set_last_sector (v : Z) (s : State) : State :=
  mkState (status s) (_num_sectors s) (_sector_middle_deg s) (_sector_width_deg s) (_angle s)
  (_distance s) (_distance_valid s) (_uart s) (_descriptor s) (_rp_systeminfo s) (_descriptor_data
  s) (_information_data s) (_resetted s) (_initialised s) (_sector_initialised s) (_payload_length
  s) (_cnt s) (_sync_error s) (_byte_count s) (_response_type s) (_rp_state s) v (_last_request_ms
  s) (_last_distance_received_ms s) (_last_reset_ms s) (_angle_deg_last s) (_distance_m_last s)
  (payload s) (uart_written s) (boundary_updated s) (boundary_inits s).
Definition set_last_request_ms (v : Z) (s : State) : State :=
  mkState (status s) (_num_sectors s) (_sector_middle_deg s) (_sector_width_deg s) (_angle s)
  (_distance s) (_distance_valid s) (_uart s) (_descriptor s) (_rp_systeminfo s) (_descriptor_data
  s) (_information_data s) (_resetted s) (_initialised s) (_sector_initialised s) (_payload_length
  s) (_cnt s) (_sync_error s) (_byte_count s) (_response_type s) (_rp_state s) (_last_sector s) v
  (_last_distance_received_ms s) (_last_reset_ms s) (_angle_deg_last s) (_distance_m_last s)
  (payload s) (uart_written s) (boundary_updated s) (boundary_inits s).
Definition set_last_distance_received_ms (v : Z) (s : State) : State :=
  mkState (status s) (_num_sectors s) (_sector_middle_deg s) (_sector_width_deg s) (_angle s)
  (_distance s) (_distance_valid s) (_uart s) (_descriptor s) (_rp_systeminfo s) (_descriptor_data
  s) (_information_data s) (_resetted s) (_initialised s) (_sector_initialised s) (_payload_length
  s) (_cnt s) (_sync_error s) (_byte_count s) (_response_type s) (_rp_state s) (_last_sector s)
  (_last_request_ms s) v (_last_reset_ms s) (_angle_deg_last s) (_distance_m_last s) (payload s)
  (uart_written s) (boundary_updated s) (boundary_inits s).
Definition set_last_reset_ms (v : Z) (s : State) : State :=
  mkState (status s) (_num_sectors s) (_sector_middle_deg s) (_sector_width_deg s) (_angle s)
  (_distance s) (_distance_valid s) (_uart s) (_descriptor s) (_rp_systeminfo s) (_descriptor_data
  s) (_information_data s) (_resetted s) (_initialised s) (_sector_initialised s) (_payload_length
  s) (_cnt s) (_sync_error s) (_byte_count s) (_response_type s) (_rp_state s) (_last_sector s)
  (_last_request_ms s) (_last_distance_received_ms s) v (_angle_deg_last s) (_distance_m_last s)
  (payload s) (uart_written s) (boundary_updated s) (boundary_inits s).
Definition set_angle_deg_last (v : Q) (s : State) : State :=
  mkState (status s) (_num_sectors s) (_sector_middle_deg s) (_sector_width_deg s) (_angle s)
  (_distance s) (_distance_valid s) (_uart s) (_descriptor s) (_rp_systeminfo s) (_descriptor_data
  s) (_information_data s) (_resetted s) (_initialised s) (_sector_initialised s) (_payload_length
  s) (_cnt s) (_sync_error s) (_byte_count s) (_response_type s) (_rp_state s) (_last_sector s)
  (_last_request_ms s) (_last_distance_received_ms s) (_last_reset_ms s) v (_distance_m_last s)
  (payload s) (uart_written s) (boundary_updated s) (boundary_inits s).
Definition set_distance_m_last (v : Q) (s : State) : State :=
  mkState (status s) (_num_sectors s) (_sector_middle_deg s) (_sector_width_deg s) (_angle s)
  (_distance s) (_distance_valid s) (_uart s) (_descriptor s) (_rp_systeminfo s) (_descriptor_data
  s) (_information_data s) (_resetted s) (_initialised s) (_sector_initialised s) (_payload_length
  s) (_cnt s) (_sync_error s) (_byte_count s) (_response_type s) (_rp_state s) (_last_sector s)
  (_last_request_ms s) (_last_distance_received_ms s) (_last_reset_ms s) (_angle_deg_last s) v
  (payload s) (uart_written s) (boundary_updated s) (boundary_inits s).
Definition set_payload (v : list Z) (s : State) : State :=
  mkState (status s) (_num_sectors s) (_sector_middle_deg s) (_sector_width_deg s) (_angle s)
  (_distance s) (_distance_valid s) (_uart s) (_descriptor s) (_rp_systeminfo s) (_descriptor_data
  s) (_information_data s) (_resetted s) (_initialised s) (_sector_initialised s) (_payload_length
  s) (_cnt s) (_sync_error s) (_byte_count s) (_response_type s) (_rp_state s) (_last_sector s)
  (_last_request_ms s) (_last_distance_received_ms s) (_last_reset_ms s) (_angle_deg_last s)
  (_distance_m_last s) v (uart_written s) (boundary_updated s) (boundary_inits s).
Definition set_uart_written (v : list (list Z)) (s : State) : State :=
  mkState (status s) (_num_sectors s) (_sector_middle_deg s) (_sector_width_deg s) (_angle s)
  (_distance s) (_distance_valid s) (_uart s) (_descriptor s) (_rp_systeminfo s) (_descriptor_data
  s) (_information_data s) (_resetted s) (_initialised s) (_sector_initialised s) (_payload_length
  s) (_cnt s) (_sync_error s) (_byte_count s) (_response_type s) (_rp_state s) (_last_sector s)
  (_last_request_ms s) (_last_distance_received_ms s) (_last_reset_ms s) (_angle_deg_last s)
  (_distance_m_last s) (payload s) v (boundary_updated s) (boundary_inits s).
Definition set_boundary_updated (v : list Z) (s : State) : State :=
  mkState (status s) (_num_sectors s) (_sector_middle_deg s) (_sector_width_deg s) (_angle s)
  (_distance s) (_distance_valid s) (_uart s) (_descriptor s) (_rp_systeminfo s) (_descriptor_data
  s) (_information_data s) (_resetted s) (_initialised s) (_sector_initialised s) (_payload_length
  s) (_cnt s) (_sync_error s) (_byte_count s) (_response_type s) (_rp_state s) (_last_sector s)
  (_last_request_ms s) (_last_distance_received_ms s) (_last_reset_ms s) (_angle_deg_last s)
  (_distance_m_last s) (payload s) (uart_written s) v (boundary_inits s).
Definition set_boundary_inits (v : nat) (s : State) : State :=
  mkState (status s) (_num_sectors s) (_sector_middle_deg s) (_sector_width_deg s) (_angle s)
  (_distance s) (_distance_valid s) (_uart s) (_descriptor s) (_rp_systeminfo s) (_descriptor_data
  s) (_information_data s) (_resetted s) (_initialised s) (_sector_initialised s) (_payload_length
  s) (_cnt s) (_sync_error s) (_byte_count s) (_response_type s) (_rp_state s) (_last_sector s)
  (_last_request_ms s) (_last_distance_received_ms s) (_last_reset_ms s) (_angle_deg_last s)
  (_distance_m_last s) (payload s) (uart_written s) (boundary_updated s) v.

Notation "s |> f" := (f s) (at level 45, left associativity, only parsing).

(** ** Base class and math helpers the driver calls

    [AP_Proximity_Backend] and [AP_Math] are not among the sources.  What
    the driver needs from the base class is an interface here; the sector
    table a method reads is passed to it. *)

Class AP_Proximity_Backend := {
  (** capacity of the per-sector arrays *)
  PROXIMITY_SECTORS_MAX : Z;
  (** number of configured ignore areas *)
  get_ignore_area_count : Z;
  (** [get_ignore_area(index, angle_deg, width_deg)]: [None] when it returns
      false, otherwise the two values written *)
  get_ignore_area : Z -> option (Z * Z);
  (** [get_next_ignore_start_or_end(start_or_end, start_angle, out)]: [None]
      when it returns false and leaves [out] alone *)
  get_next_ignore_start_or_end : Z -> Z -> option Z;
  (** [convert_angle_to_sector(angle_degrees, sector)] over the sector table
      [_num_sectors], [_sector_middle_deg], [_sector_width_deg] *)
  convert_angle_to_sector : Z -> list Q -> list Z -> Q -> option Z;
  (** what an [int16_t] local holds before anything is assigned to it *)
  uninitialised_int16 : Z
}.

(** Modelled from the spec: [fmodf] and [wrap_360] of the math library are
    not among the sources; the partitioner wraps angles "at 360 degrees",
    which is the remainder of the truncated division moved into [0, 360). *)
Definition fmodf (x y : Q) : Q := x - y * inject_Z (Qtrunc (x / y)).

Definition wrap_360 (angle : Q) : Q :=
  let res := fmodf angle 360 in
  if Qlt_le_dec res 0 then res + 360 else res.

(** ** Payload bit fields

    [payload] is a packed union of a byte array and the two bit-field
    structs.  The fields are read from the bytes in the layout the target
    compilers give the packed struct (little-endian, bit fields allocated
    from the least significant bit), which is the layout of the device
    protocol: byte 0 = quality:6 | not_startbit | startbit,
    byte 1 = angle_q6[6:0] | checkbit, byte 2 = angle_q6[14:7],
    bytes 3-4 = distance_q2. *)

Definition byte_at (p : list Z) (i : nat) : Z := nth i p 0.

Definition startbit (p : list Z) : Z := Z.land (byte_at p 0) 1.
Definition not_startbit (p : list Z) : Z := Z.land (Z.shiftr (byte_at p 0) 1) 1.
Definition quality (p : list Z) : Z := Z.shiftr (byte_at p 0) 2.
Definition checkbit (p : list Z) : Z := Z.land (byte_at p 1) 1.
Definition angle_q6 (p : list Z) : Z :=
  Z.lor (Z.shiftr (byte_at p 1) 1) (Z.shiftl (byte_at p 2) 7).
Definition distance_q2 (p : list Z) : Z :=
  Z.lor (byte_at p 3) (Z.shiftl (byte_at p 4) 8).

Definition health_status (p : list Z) : Z := byte_at p 0.
Definition health_error_code (p : list Z) : Z :=
  Z.lor (byte_at p 1) (Z.shiftl (byte_at p 2) 8).

(** [(startbit == !not_startbit) && checkbit] *)
Definition scan_valid (p : list Z) : bool :=
  (startbit p =? (if not_startbit p =? 0 then 1 else 0)) && negb (checkbit p =? 0).

(** [const float angle_deg = angle_q6/64.0f] and
    [const float distance_m = distance_q2/4000.0f]: the bit field is
    promoted to [int] and converted to [float] exactly, and the division is
    a binary32 division. *)
Definition angle_deg (p : list Z) : Q := binary32 (inject_Z (angle_q6 p) / 64).
Definition distance_m (p : list Z) : Q := binary32 (inject_Z (distance_q2 p) / 4000).

#[global] Arguments angle_deg : simpl never.
#[global] Arguments distance_m : simpl never.

(** [distance_max()] returns [16.0f] and [distance_min()] returns [0.20f],
    the binary32 value nearest to 1/5, which is 13421773 / 2^26. *)
Definition distance_max : Q := 16.
Definition distance_min : Q := 13421773 # 67108864.

(** ** Collaborator calls *)

Definition uart_write (frame : list Z) (s : State) : State :=
  set_uart_written (uart_written s ++ [frame]) s.

Definition update_boundary_for_sector (sector : Z) (s : State) : State :=
  set_boundary_updated (boundary_updated s ++ [sector]) s.

Definition init_boundary (s : State) : State :=
  set_boundary_inits (S (boundary_inits s)) s.

(** ** Commands *)

Definition reset_rplidar (now : Z) (s : State) : State :=
  if negb (_uart s) then s
  else s |> uart_write [RPLIDAR_PREAMBLE; RPLIDAR_CMD_RESET]
         |> set_resetted true
         |> set_last_reset_ms now
         |> set_rp_state rp_resetted.

Definition set_scan_mode (now : Z) (s : State) : State :=
  if negb (_uart s) then s
  else s |> uart_write [RPLIDAR_PREAMBLE; RPLIDAR_CMD_SCAN]
         |> set_last_request_ms now
         |> set_rp_state rp_responding.

Definition send_request_for_health (now : Z) (s : State) : State :=
  if negb (_uart s) then s
  else s |> uart_write [RPLIDAR_PREAMBLE; RPLIDAR_CMD_GET_DEVICE_HEALTH]
         |> set_last_request_ms now
         |> set_rp_state rp_health.

(** ** Descriptor classifier *)

(** The two descriptors [parse_response_descriptor] recognises. *)
Definition scan_descriptor : list Z := [0xA5; 0x5A; 0x05; 0x00; 0x00; 0x40; 0x81].
Definition health_descriptor : list Z := [0xA5; 0x5A; 0x03; 0x00; 0x00; 0x00; 0x06].

Definition descriptor_header_ok (d : list Z) : bool :=
  (byte_at d 0 =? RPLIDAR_PREAMBLE) && (byte_at d 1 =? 0x5A).

Definition descriptor_is_scan (d : list Z) : bool :=
  (byte_at d 2 =? 0x05) && (byte_at d 3 =? 0x00) && (byte_at d 4 =? 0x00)
  && (byte_at d 5 =? 0x40) && (byte_at d 6 =? 0x81).

Definition descriptor_is_health (d : list Z) : bool :=
  (byte_at d 2 =? 0x03) && (byte_at d 3 =? 0x00) && (byte_at d 4 =? 0x00)
  && (byte_at d 5 =? 0x00) && (byte_at d 6 =? 0x06).

Definition parse_response_descriptor (now : Z) (s : State) : State :=
  if descriptor_header_ok (_descriptor s) then
    let s1 :=
      if descriptor_is_scan (_descriptor s) then
        s |> set_payload_length 5
          |> set_response_type ResponseType_SCAN
          |> set_last_distance_received_ms now
          |> set_rp_state rp_measurements
      else s in
    if descriptor_is_health (_descriptor s1) then
      s1 |> set_payload_length 3
         |> set_response_type ResponseType_Health
         |> set_last_distance_received_ms now
         |> set_rp_state rp_health
    else s1
  else set_rp_state rp_unknown s.

Section Driver.
Context {backend : AP_Proximity_Backend}.

(** ** Sector partitioner *)

(** The three-way choice of [sector_size] (a [uint16_t]) inside the loop. *)
Definition sector_size_for (degrees_to_fill : Z) : Z :=
  if 90 <=? degrees_to_fill then 45
  else if 45 <? degrees_to_fill then wrap16 (Qtrunc (inject_Z degrees_to_fill / 2))
  else wrap16 degrees_to_fill.

(** The [while] loop of [init_sectors] over the locals [sector],
    [start_angle], [degrees_to_fill].  The first argument bounds the number
    of iterations; [divide_area_exits] shows that [degrees_to_fill]
    iterations are never used up.  The element types of
    [_sector_middle_deg] and [_sector_width_deg] are declared in the base
    class; the entries hold the values assigned, as computed. *)
Fixpoint divide_area (n : nat) (sector start_angle degrees_to_fill : Z) (s : State)
  : Z * State :=
  match n with
  | O => (sector, s)
  | S n' =>
    if (0 <? degrees_to_fill) && (sector <? PROXIMITY_SECTORS_MAX) then
      let sector_size := sector_size_for degrees_to_fill in
      let s' :=
        s |> set_sector_middle_deg
               (<[Z.to_nat sector :=
                    wrap_360 (inject_Z start_angle + inject_Z sector_size / 2)]>
                  (_sector_middle_deg s))
          |> set_sector_width_deg
               (<[Z.to_nat sector := sector_size]> (_sector_width_deg s)) in
      divide_area n' (wrap8 (sector + 1)) (to_int16 (start_angle + sector_size))
                  (to_int16 (degrees_to_fill - sector_size)) s'
    else (sector, s)
  end.

(** Body of the [for] loop over the ignore areas. *)
Definition ignore_area_step (acc : Z * State) (i : Z) : Z * State :=
  let '(sector, s) := acc in
  match get_ignore_area i with
  | Some (ign_area_angle, ign_area_width) =>
    let start_angle :=
      default uninitialised_int16 (get_next_ignore_start_or_end 1 ign_area_angle) in
    let end_angle :=
      default uninitialised_int16 (get_next_ignore_start_or_end 0 start_angle) in
    let degrees_to_fill :=
      to_int16 (Qtrunc (wrap_360 (inject_Z (end_angle - start_angle)))) in
    divide_area (Z.to_nat degrees_to_fill) sector start_angle degrees_to_fill s
  | None => acc
  end.

Definition init_sectors (s : State) : State :=
  let ignore_area_count := get_ignore_area_count in
  if ignore_area_count =? 0 then set_sector_initialised true s
  else
    let '(sector, s1) := foldl ignore_area_step (0, s) (seqZ 0 ignore_area_count) in
    s1 |> set_num_sectors sector
       |> init_boundary
       |> set_sector_initialised true.

(** [initialise]: the returned flag and the state left behind. *)
Definition initialise (now : Z) (s : State) : bool * State :=
  if negb (_sector_initialised s) then (false, init_sectors s)
  else if negb (_initialised s) then (true, reset_rplidar now s)
  else (true, s).

(** ** Sector aggregator: the tail of the valid-sample branch of
    [parse_response_data], from [_last_distance_received_ms = millis()] on. *)
Definition ingest (now : Z) (angle distance : Q) (s : State) : State :=
  let s := set_last_distance_received_ms now s in
  match convert_angle_to_sector (_num_sectors s) (_sector_middle_deg s)
                                (_sector_width_deg s) angle with
  | Some sector =>
    if Qlt_le_dec distance_min distance then
      if _last_sector s =? sector then
        if Qlt_le_dec distance (_distance_m_last s) then
          s |> set_distance_m_last distance
            |> set_angle_deg_last angle
        else s
      else
        s |> set_angle (<[Z.to_nat (_last_sector s) := _angle_deg_last s]> (_angle s))
          |> set_distance (<[Z.to_nat (_last_sector s) := _distance_m_last s]> (_distance s))
          |> set_distance_valid (<[Z.to_nat (_last_sector s) := true]> (_distance_valid s))
          |> update_boundary_for_sector (_last_sector s)
          |> set_last_sector sector
          |> set_distance_m_last distance
          |> set_angle_deg_last angle
    else
      s |> set_distance_valid (<[Z.to_nat sector := false]> (_distance_valid s))
  | None => s
  end.

Definition parse_response_data (now : Z) (s : State) : State :=
  match _response_type s with
  | ResponseType_SCAN =>
    if scan_valid (payload s) then
      ingest now (angle_deg (payload s)) (distance_m (payload s)) s
    else
      set_sync_error (wrap8 (_sync_error s + 1)) s
  | ResponseType_Health => s
  | _ => s
  end.

(** ** Frame decoder: the body of the [while] loop of [get_readings], one
    case of the [switch] each. *)

Definition case_rp_resetted (now c : Z) (s : State) : State :=
  if ((c =? 0x52) || _information_data s) && (_byte_count s <? 62) then
    let s1 := if c =? 0x52 then set_information_data true s else s in
    s1 |> set_rp_systeminfo (<[Z.to_nat (_byte_count s1) := c]> (_rp_systeminfo s1))
       |> set_byte_count (wrap16 (_byte_count s1 + 1))
  else if _information_data s then
    s |> set_information_data false
      |> set_byte_count 0
      |> set_scan_mode now
  else if 5 <? _cnt s then
    s |> set_rp_state rp_unknown
      |> set_cnt 0
  else set_cnt (wrap8 (_cnt s + 1)) s.

Definition case_rp_responding (now c : Z) (s : State) : State :=
  if (c =? RPLIDAR_PREAMBLE) || _descriptor_data s then
    let s1 :=
      s |> set_descriptor_data true
        |> set_descriptor (<[Z.to_nat (_byte_count s) := c]> (_descriptor s))
        |> set_byte_count (wrap16 (_byte_count s + 1)) in
    if _byte_count s1 =? 7 then
      s1 |> set_response_type ResponseType_Descriptor
         |> parse_response_descriptor now
         |> set_byte_count 0
    else s1
  else set_rp_state rp_unknown s.

(** The statements of [case rp_measurements] after the [_sync_error] test:
    payload accumulation. *)
Definition read_payload (now c : Z) (s : State) : State :=
  let s1 :=
    s |> set_payload (<[Z.to_nat (_byte_count s) := c]> (payload s))
      |> set_byte_count (wrap16 (_byte_count s + 1)) in
  if _byte_count s1 =? _payload_length s1 then
    s1 |> parse_response_data now
       |> set_byte_count 0
  else s1.

Definition case_rp_measurements (now c : Z) (s : State) : State :=
  if negb (_sync_error s =? 0) then
    if Z.land c 0x03 =? 0x01 then
      s |> set_sync_error 0
        |> read_payload now c
    else if RESYNC_TIMEOUT <? wrap32 (now - _last_distance_received_ms s) then
      reset_rplidar now s
    else s
  else read_payload now c s.

Definition case_rp_health (now c : Z) (s : State) : State := s.

(** [case rp_unknown]; the [goto STATE] re-dispatches the same byte, and the
    state just assigned selects [case rp_responding]. *)
Definition case_rp_unknown (now c : Z) (s : State) : State :=
  if c =? RPLIDAR_PREAMBLE then
    s |> set_rp_state rp_responding
      |> case_rp_responding now c
  else
    let s1 := set_cnt (wrap8 (_cnt s + 1)) s in
    if 10 <? _cnt s1 then
      s1 |> reset_rplidar now
         |> set_rp_state rp_resetted
         |> set_cnt 0
    else s1.

Definition process_byte (now : Z) (s : State) (c : Z) : State :=
  match _rp_state s with
  | rp_resetted => case_rp_resetted now c s
  | rp_responding => case_rp_responding now c s
  | rp_measurements => case_rp_measurements now c s
  | rp_health => case_rp_health now c s
  | rp_unknown => case_rp_unknown now c s
  end.

(** [get_readings]: [bytes] are the [_uart->available()] bytes, in the
    order [_uart->read()] delivers them. *)
Definition get_readings (now : Z) (bytes : list Z) (s : State) : State :=
  if negb (_uart s) then s
  else foldl (process_byte now) s bytes.

(** [if (!_initialised) { _initialised = initialise(); }] *)
Definition update_initialise (now : Z) (s : State) : State :=
  if negb (_initialised s) then
    let '(ok, s') := initialise now s in set_initialised ok s'
  else s.

(** [update], called by the host on every cycle. *)
Definition update (now : Z) (bytes : list Z) (s : State) : State :=
  if negb (_uart s) then s
  else
    let s1 := update_initialise now s in
    let s2 := if _initialised s1 then get_readings now bytes s1 else s1 in
    if (_last_distance_received_ms s2 =? 0)
       || (COMM_ACTIVITY_TIMEOUT_MS <? wrap32 (now - _last_distance_received_ms s2))
    then set_status Proximity_NoData s2
    else set_status Proximity_Good s2.

End Driver.

(** ** Object construction and reachable states

    The constructor assigns [_cnt], [_sync_error] and [_byte_count]; every
    other member of the driver is read before it is written ([_initialised]
    in the first [update]), which is sound only on zero-filled storage.  The
    model takes the driver's members as zero-filled and leaves the members
    of the base class (sector table, committed readings) unconstrained. *)
Definition constructed (s : State) : Prop :=
  _cnt s = 0 /\ _sync_error s = 0 /\ _byte_count s = 0
  /\ _rp_state s = rp_unknown
  /\ _response_type s = ResponseType_Descriptor
  /\ _descriptor_data s = false /\ _information_data s = false
  /\ _resetted s = false /\ _initialised s = false /\ _sector_initialised s = false
  /\ _payload_length s = 0 /\ _last_sector s = 0
  /\ _last_request_ms s = 0 /\ _last_distance_received_ms s = 0 /\ _last_reset_ms s = 0
  /\ _angle_deg_last s = 0%Q /\ _distance_m_last s = 0%Q
  /\ _descriptor s = replicate 7 0 /\ _rp_systeminfo s = replicate 63 0
  /\ payload s = replicate 5 0
  /\ uart_written s = [] /\ boundary_updated s = [] /\ boundary_inits s = 0%nat.

(** States the sensor instance can be in: after construction, and after any
    number of [update] calls at any clock value with any received bytes. *)
Inductive reachable `{AP_Proximity_Backend} : State -> Prop :=
| reachable_constructed s : constructed s -> reachable s
| reachable_update now bytes s : reachable s -> reachable (update now bytes s).

(** What holds of the frame decoder in every reachable state. *)
Definition decoder_inv (s : State) : Prop :=
  (_sync_error s = 0 \/ _sync_error s = 1)
  /\ (_rp_state s = rp_measurements -> _payload_length s = 5)
  /\ (_rp_state s = rp_measurements -> _sync_error s <> 0 -> _byte_count s = 0).

(** ** Events of one decoded byte

    Path conditions of [process_byte], used to say when
    [_last_distance_received_ms] is written. *)

(** The byte is stored by [case rp_responding] (directly, or through the
    re-dispatch of [case rp_unknown]) and completes the 7-byte descriptor. *)
Definition completes_descriptor (s : State) (c : Z) : bool :=
  match _rp_state s with
  | rp_responding =>
    ((c =? RPLIDAR_PREAMBLE) || _descriptor_data s) && (wrap16 (_byte_count s + 1) =? 7)
  | rp_unknown => (c =? RPLIDAR_PREAMBLE) && (wrap16 (_byte_count s + 1) =? 7)
  | _ => false
  end.

(** The completed descriptor has the header and matches one of the two
    templates. *)
Definition recognises_descriptor (s : State) (c : Z) : bool :=
  let d := <[Z.to_nat (_byte_count s) := c]> (_descriptor s) in
  completes_descriptor s c && descriptor_header_ok d
  && (descriptor_is_scan d || descriptor_is_health d).

(** The byte completes a payload that [parse_response_data] decodes as a
    valid scan sample. *)
Definition decodes_measurement (s : State) (c : Z) : bool :=
  match _rp_state s with
  | rp_measurements =>
    ((_sync_error s =? 0) || (Z.land c 0x03 =? 0x01))
    && (wrap16 (_byte_count s + 1) =? _payload_length s)
    && match _response_type s with ResponseType_SCAN => true | _ => false end
    && scan_valid (<[Z.to_nat (_byte_count s) := c]> (payload s))
  | _ => false
  end.

Definition refreshes_activity (s : State) (c : Z) : bool :=
  recognises_descriptor s c || decodes_measurement s c.

Section Events.
Context {backend : AP_Proximity_Backend}.

(** Some byte of the drain refreshes the activity time stamp. *)
Fixpoint drain_refreshes (now : Z) (s : State) (bytes : list Z) : bool :=
  match bytes with
  | [] => false
  | c :: rest => refreshes_activity s c || drain_refreshes now (process_byte now s c) rest
  end.

(** Some byte of the drain is decoded as a valid scan sample. *)
Fixpoint drain_decodes (now : Z) (s : State) (bytes : list Z) : bool :=
  match bytes with
  | [] => false
  | c :: rest => decodes_measurement s c || drain_decodes now (process_byte now s c) rest
  end.

Definition update_refreshes (now : Z) (bytes : list Z) (s : State) : bool :=
  let s1 := update_initialise now s in
  _initialised s1 && drain_refreshes now s1 bytes.

Definition update_decodes (now : Z) (bytes : list Z) (s : State) : bool :=
  let s1 := update_initialise now s in
  _initialised s1 && drain_decodes now s1 bytes.

(** Feeding decoded samples (clock, angle, distance) to the aggregator. *)
Definition ingest_all (samples : list (Z * Q * Q)) (s : State) : State :=
  foldl (fun s '(now, angle, distance) => ingest now angle distance s) s samples.

(** The sector table [convert_angle_to_sector] reads, and the sector it
    gives an angle. *)
Definition sector_table (s : State) : Z * list Q * list Z :=
  (_num_sectors s, _sector_middle_deg s, _sector_width_deg s).

Definition sample_sector (table : Z * list Q * list Z) (angle : Q) : option Z :=
  convert_angle_to_sector table.1.1 table.1.2 table.2 angle.

(** The sample is beyond [distance_min()] and its angle maps to [sector]. *)
Definition observes (table : Z * list Q * list Z) (sector : Z) (x : Z * Q * Q) : bool :=
  let '(_, angle, distance) := x in
  if Qlt_le_dec distance_min distance then
    match sample_sector table angle with
    | Some k => k =? sector
    | None => false
    end
  else false.

(** The sample is beyond [distance_min()] and its angle maps to a sector
    other than [sector]. *)
Definition leaves (table : Z * list Q * list Z) (sector : Z) (x : Z * Q * Q) : bool :=
  let '(_, angle, distance) := x in
  if Qlt_le_dec distance_min distance then
    match sample_sector table angle with
    | Some k => negb (k =? sector)
    | None => false
    end
  else false.

(** Angle and distance of a sample. *)
Definition reading (x : Z * Q * Q) : Q * Q := (x.1.2, x.2).

(** Degrees covered by the sectors before sector [k], for sector widths
    [widths]. *)
Definition arc_before (widths : list Z) (k : nat) : Z := foldr Z.add 0 (take k widths).

End Events.

(** ** Checks over all values of a bit field *)

(** [f] holds of [i], [i + 1], ..., [i + n - 1]. *)
Fixpoint all_from (n : nat) (i : Z) (f : Z -> bool) : bool :=
  match n with
  | O => true
  | S n' => f i && all_from n' (i + 1) f
  end.

(** The binary32 quotient of an angle field by 64 is the exact quotient. *)
Definition angle_quotient_exact (a : Z) : bool :=
  Qeq_bool (binary32 (inject_Z a / 64)) (inject_Z a / 64).

(** The binary32 quotient [d] of a distance field [q] by 4000 and the exact
    quotient [x]: [d] is within half a unit in the last place of [x]
    ([|d - x| * 2^24 <= x]) and within a micrometre of it, and [d] is beyond
    [distance_min()] exactly when the field is beyond 800. *)
Definition distance_quotient_rounded (q : Z) : bool :=
  let x := (inject_Z q / 4000)%Q in
  let d := binary32 x in
  Qle_bool (Qabs (d - x) * 2 ^ 24) x
  && Qle_bool (Qabs (d - x)) (1 # 1000000)
  && Bool.eqb (if Qlt_le_dec distance_min d then true else false) (800 <? q).

(** ** A configured backend

    Modelled from the spec: the base class methods are not among the
    sources.  The configuration is an ordered list of blind spots
    (centre angle, width); the open arc after a blind spot runs from its end
    (centre + width/2) to the start (centre - width/2) of the next blind
    spot, wrapping at 360 degrees; an angle maps to the sector with the
    nearest middle angle. *)

Definition ignore_edge (start_or_end : Z) (area : Z * Z) : Z :=
  let '(angle, width) := area in
  let offset := if start_or_end =? 0 then - width else width in
  Qtrunc (wrap_360 (inject_Z angle + inject_Z offset / 2)).

(** The edge with the smallest wrapped distance ahead of [start_angle]. *)
Fixpoint next_ignore_edge (start_or_end start_angle : Z) (areas : list (Z * Z))
    (best : option (Z * Z)) : option Z :=
  match areas with
  | [] => snd <$> best
  | area :: rest =>
    let edge := ignore_edge start_or_end area in
    let diff := Qtrunc (wrap_360 (inject_Z (edge - start_angle))) in
    match best with
    | Some (smallest, _) =>
      if diff <? smallest
      then next_ignore_edge start_or_end start_angle rest (Some (diff, edge))
      else next_ignore_edge start_or_end start_angle rest best
    | None => next_ignore_edge start_or_end start_angle rest (Some (diff, edge))
    end
  end.

Definition angular_distance (a b : Q) : Q :=
  let d := wrap_360 (a - b) in
  if Qlt_le_dec 180 d then 360 - d else d.

Fixpoint nearest_middle (angle : Q) (middles : list Q) (i : Z) (best : option (Z * Q))
  : option Z :=
  match middles with
  | [] => fst <$> best
  | m :: rest =>
    let d := angular_distance m angle in
    match best with
    | Some (_, closest) =>
      if Qlt_le_dec d closest
      then nearest_middle angle rest (i + 1) (Some (i, d))
      else nearest_middle angle rest (i + 1) best
    | None => nearest_middle angle rest (i + 1) (Some (i, d))
    end
  end.

Definition configured (sectors_max : Z) (ignore_areas : list (Z * Z))
  : AP_Proximity_Backend :=
  {| PROXIMITY_SECTORS_MAX := sectors_max;
     get_ignore_area_count := Z.of_nat (length ignore_areas);
     get_ignore_area := fun i => if i <? 0 then None else ignore_areas !! Z.to_nat i;
     get_next_ignore_start_or_end := fun start_or_end start_angle =>
       next_ignore_edge start_or_end start_angle ignore_areas None;
     convert_angle_to_sector := fun num middles widths angle =>
       nearest_middle angle (take (Z.to_nat num) middles) 0 None;
     uninitialised_int16 := 0 |}.

(** The instance right after construction, with a UART and per-sector
    arrays of [sectors_max] zeroed entries. *)
Definition power_on (sectors_max : nat) : State :=
  {| status := Proximity_NotConnected;
     _num_sectors := 0;
     _sector_middle_deg := replicate sectors_max 0%Q;
     _sector_width_deg := replicate sectors_max 0;
     _angle := replicate sectors_max 0%Q;
     _distance := replicate sectors_max 0%Q;
     _distance_valid := replicate sectors_max false;
     _uart := true;
     _descriptor := replicate 7 0;
     _rp_systeminfo := replicate 63 0;
     _descriptor_data := false;
     _information_data := false;
     _resetted := false;
     _initialised := false;
     _sector_initialised := false;
     _payload_length := 0;
     _cnt := 0;
     _sync_error := 0;
     _byte_count := 0;
     _response_type := ResponseType_Descriptor;
     _rp_state := rp_unknown;
     _last_sector := 0;
     _last_request_ms := 0;
     _last_distance_received_ms := 0;
     _last_reset_ms := 0;
     _angle_deg_last := 0%Q;
     _distance_m_last := 0%Q;
     payload := replicate 5 0;
     uart_written := [];
     boundary_updated := [];
     boundary_inits := 0%nat |}.

(** ** A worked session

    Inputs for the closed examples: one blind spot of 30 degrees centred at
    0 degrees, arrays of 8 sectors. *)

Definition demo_backend : AP_Proximity_Backend := configured 8 [(0, 30)].

(** The bytes of a scan payload with the given fields, start bit set. *)
Definition scan_payload_bytes (quality angle distance : Z) : list Z :=
  [Z.lor (Z.shiftl quality 2) 1;
   Z.lor (Z.shiftl (Z.land angle 127) 1) 1;
   Z.shiftr angle 7;
   Z.land distance 255;
   Z.shiftr distance 8].

(** What the device sends after a reset: 62 bytes of firmware information
    starting with 'R', and one more byte. *)
Definition demo_info_bytes : list Z := 0x52 :: replicate 61 0x20 ++ [0x0A].

(** First cycle: the sectors are laid out. *)
Definition demo_partitioned : State := @update demo_backend 1000 [] (power_on 8).

(** Second cycle: reset, device information, scan request. *)
Definition demo_responding : State :=
  @update demo_backend 1010 demo_info_bytes demo_partitioned.

(** Third cycle: the scan descriptor arrives. *)
Definition demo_scanning : State :=
  @update demo_backend 1020 scan_descriptor demo_responding.

(** Fourth cycle: a payload with both start bits clear. *)
Definition demo_out_of_sync : State :=
  @update demo_backend 1040 [0x00; 0x01; 0x05; 0x40; 0x1F] demo_scanning.

(** Third cycle, had the health descriptor arrived instead. *)
Definition demo_health : State :=
  @update demo_backend 1020 health_descriptor demo_responding.

(** The response descriptor of the device-information request: it has the
    header and matches neither template. *)
Definition info_descriptor : list Z := [0xA5; 0x5A; 0x14; 0x00; 0x00; 0x00; 0x04].

(** The sample a scan payload decodes to, stamped with the clock. *)
Definition scan_sample (now : Z) (p : list Z) : Z * Q * Q :=
  (now, angle_deg p, distance_m p).

(** A dwell in sector 1 (60 to 105 degrees): 70 degrees at 1.5 m, 80 degrees
    at 1.0 m, a dead-zone sample at 90 degrees and 100 degrees at 1.2 m; and
    the sample that ends it, 110 degrees at 2.0 m. *)
Definition demo_dwell_first : Z * Q * Q :=
  scan_sample 1040 (scan_payload_bytes 15 4480 6000).
Definition demo_dwell_rest : list (Z * Q * Q) :=
  [scan_sample 1041 (scan_payload_bytes 15 5120 4000);
   scan_sample 1042 (scan_payload_bytes 15 5760 400);
   scan_sample 1043 (scan_payload_bytes 15 6400 4800)].
Definition demo_crossing : Z * Q * Q :=
  scan_sample 1044 (scan_payload_bytes 15 7040 8000).

(** The first dwell after start-up, in sector 0 (15 to 60 degrees): 30
    degrees at 1.5 m, 20 degrees at 1.0 m and 40 degrees at 1.2 m; and the
    sample that ends it, 70 degrees at 2.0 m. *)
Definition demo_first_dwell : list (list Z) :=
  [scan_payload_bytes 15 1920 6000;
   scan_payload_bytes 15 1280 4000;
   scan_payload_bytes 15 2560 4800].
Definition demo_first_crossing : list Z := scan_payload_bytes 15 4480 8000.

(** ** Notions for the properties of the frame decoder *)

(** The members the frame decoder works on; the sector code does not write
    them. *)
Definition decoder_fields (s : State) :=
  (_rp_state s, _response_type s, _payload_length s, _byte_count s, _cnt s,
   (_information_data s, _descriptor_data s, _initialised s, _uart s,
    (uart_written s, payload s, _descriptor s, _rp_systeminfo s))).

(** Where the byte counter and the retry counter can be, state by state. *)
Definition decoder_bounds (s : State) : Prop :=
  0 <= _cnt s <= 10
  /\ (_initialised s = false -> _rp_state s = rp_unknown)
  /\ match _rp_state s with
     | rp_unknown => _byte_count s = 0 /\ _information_data s = false
     | rp_resetted =>
       0 <= _byte_count s <= 62 /\ (_information_data s = false -> _byte_count s = 0)
     | rp_responding =>
       0 <= _byte_count s < 7 /\ (_descriptor_data s = false -> _byte_count s = 0)
       /\ _information_data s = false
     | rp_measurements =>
       0 <= _byte_count s < 5 /\ _payload_length s = 5
       /\ _response_type s = ResponseType_SCAN /\ _information_data s = false
     | rp_health => _byte_count s = 0 /\ _information_data s = false
     end.

(** The two command frames the driver sends. *)
Definition reset_command : list Z := [RPLIDAR_PREAMBLE; RPLIDAR_CMD_RESET].
Definition scan_command : list Z := [RPLIDAR_PREAMBLE; RPLIDAR_CMD_SCAN].

(** [s'] has sent what [s] had sent, and then only reset and scan
    commands. *)
Definition sends_known (s s' : State) : Prop :=
  exists extra, uart_written s' = uart_written s ++ extra
    /\ Forall (fun f => f = reset_command \/ f = scan_command) extra.

(** Degrees covered by the sectors [from], ..., [to - 1]. *)
Definition arc_between (widths : list Z) (from to : nat) : Z :=
  foldr Z.add 0 (take (to - from) (drop from widths)).

(** What [initialise] sets up, and the frame decoder leaves alone. *)
Definition setup_fields (s : State) :=
  (sector_table s, boundary_inits s, _sector_initialised s, _initialised s).

(** * Proofs *)

(** ** Arithmetic and bit-level facts *)

Lemma land_1_cases (z : Z) : Z.land z 1 = 0 \/ Z.land z 1 = 1.
Proof.
  pose proof (Z.land_ones z 1 ltac:(lia)) as H.
  change (Z.ones 1) with 1 in H. rewrite H. change (2 ^ 1) with 2.
  pose proof (Z.mod_pos_bound z 2). lia.
Qed.

Lemma scan_valid_false_iff (p : list Z) :
  scan_valid p = false <-> (startbit p = not_startbit p \/ checkbit p = 0).
Proof.
  unfold scan_valid, startbit, not_startbit, checkbit.
  destruct (land_1_cases (byte_at p 0)) as [-> | ->];
    destruct (land_1_cases (Z.shiftr (byte_at p 0) 1)) as [-> | ->];
    destruct (land_1_cases (byte_at p 1)) as [-> | ->];
    cbn; intuition (lia || congruence).
Qed.

Lemma scan_valid_true_iff (p : list Z) :
  scan_valid p = true <-> (startbit p <> not_startbit p /\ checkbit p = 1).
Proof.
  unfold scan_valid, startbit, not_startbit, checkbit.
  destruct (land_1_cases (byte_at p 0)) as [-> | ->];
    destruct (land_1_cases (Z.shiftr (byte_at p 0) 1)) as [-> | ->];
    destruct (land_1_cases (byte_at p 1)) as [-> | ->];
    cbn; intuition (lia || congruence).
Qed.

(** ** Truncation and wrapping of angles *)

Lemma Qtrunc_inject_Z (z : Z) : Qtrunc (inject_Z z) = z.
Proof.
  unfold Qtrunc. destruct (Qlt_le_dec (inject_Z z) 0).
  - apply Qceiling_Z.
  - apply Qfloor_Z.
Qed.

Lemma Qtrunc_comp (x y : Q) : (x == y)%Q -> Qtrunc x = Qtrunc y.
Proof.
  intros H. unfold Qtrunc.
  destruct (Qlt_le_dec x 0) as [Hx|Hx], (Qlt_le_dec y 0) as [Hy|Hy].
  - apply Qceiling_comp, H.
  - rewrite H in Hx. exfalso. exact (Qlt_not_le _ _ Hx Hy).
  - rewrite H in Hx. exfalso. exact (Qlt_not_le _ _ Hy Hx).
  - apply Qfloor_comp, H.
Qed.

Lemma Qtrunc_div (a b : Z) : 0 < b -> Qtrunc (inject_Z a / inject_Z b) = Z.quot a b.
Proof.
  intros Hb. unfold Qtrunc.
  destruct b as [|b|b]; try lia.
  assert (inject_Z a / inject_Z (Z.pos b) == a # b)%Q as E.
  { rewrite Qmake_Qdiv. reflexivity. }
  destruct (Qlt_le_dec (inject_Z a / inject_Z (Z.pos b)) 0) as [H|H].
  - rewrite (Qceiling_comp _ _ E). rewrite E in H.
    unfold Qceiling, Qfloor; cbn. unfold Qlt in H; cbn in H.
    assert (a < 0) by lia.
    rewrite <- (Z.quot_div_nonneg (- a)) by lia.
    rewrite Z.quot_opp_l by lia. lia.
  - rewrite (Qfloor_comp _ _ E). rewrite E in H.
    unfold Qfloor; cbn. unfold Qle in H; cbn in H.
    rewrite Z.quot_div_nonneg by lia. reflexivity.
Qed.

Lemma fmodf_inject_Z (a b : Z) : 0 < b ->
  (fmodf (inject_Z a) (inject_Z b) == inject_Z (Z.rem a b))%Q.
Proof.
  intros Hb. unfold fmodf. rewrite Qtrunc_div by exact Hb.
  rewrite <- inject_Z_mult. unfold Qminus. rewrite <- inject_Z_opp, <- inject_Z_plus.
  apply inject_Z_injective. pose proof (Z.quot_rem' a b). lia.
Qed.

Lemma wrap_360_inject_Z (z : Z) : (wrap_360 (inject_Z z) == inject_Z (z mod 360))%Q.
Proof.
  unfold wrap_360. cbn zeta.
  pose proof (fmodf_inject_Z z 360 ltac:(lia)) as E.
  change (inject_Z 360) with 360%Q in E.
  destruct (Qlt_le_dec (fmodf (inject_Z z) 360) 0) as [H|H]; rewrite E in *.
  - change 360%Q with (inject_Z 360). rewrite <- inject_Z_plus.
    apply inject_Z_injective.
    change 0%Q with (inject_Z 0) in H. rewrite <- Zlt_Qlt in H.
    pose proof (Z.rem_bound_abs z 360 ltac:(lia)).
    pose proof (Z.quot_rem' z 360).
    apply (Z.mod_unique z 360 (Z.quot z 360 - 1)); lia.
  - apply inject_Z_injective.
    change 0%Q with (inject_Z 0) in H. rewrite <- Zle_Qle in H.
    pose proof (Z.rem_bound_abs z 360 ltac:(lia)).
    pose proof (Z.quot_rem' z 360).
    apply (Z.mod_unique z 360 (Z.quot z 360)); lia.
Qed.

Lemma wrap_360_comp (x y : Q) : (x == y)%Q -> (wrap_360 x == wrap_360 y)%Q.
Proof.
  intros H. unfold wrap_360, fmodf. cbn zeta.
  assert (Qtrunc (x / 360) = Qtrunc (y / 360)) as Et by (apply Qtrunc_comp; rewrite H; reflexivity).
  rewrite Et.
  destruct (Qlt_le_dec _ 0) as [Hx|Hx], (Qlt_le_dec _ 0) as [Hy|Hy]; rewrite H in *.
  - reflexivity.
  - exfalso. exact (Qlt_not_le _ _ Hx Hy).
  - exfalso. exact (Qlt_not_le _ _ Hy Hx).
  - reflexivity.
Qed.

(** ** Frame lemmas: what each operation leaves alone *)

Section Frames.
Context {backend : AP_Proximity_Backend}.

Lemma reset_rplidar_sync_error now s :
  _sync_error (reset_rplidar now s) = _sync_error s.
Proof. unfold reset_rplidar. destruct (_uart s); reflexivity. Qed.

Lemma set_scan_mode_sync_error now s :
  _sync_error (set_scan_mode now s) = _sync_error s.
Proof. unfold set_scan_mode. destruct (_uart s); reflexivity. Qed.

Lemma parse_response_descriptor_sync_error now s :
  _sync_error (parse_response_descriptor now s) = _sync_error s.
Proof.
  unfold parse_response_descriptor.
  destruct (descriptor_header_ok _); [|reflexivity].
  destruct (descriptor_is_scan _); cbn;
    destruct (descriptor_is_health _); reflexivity.
Qed.

Lemma ingest_sync_error now a d s :
  _sync_error (ingest now a d s) = _sync_error s.
Proof.
  unfold ingest. cbn.
  destruct (convert_angle_to_sector _ _ _ _); [|reflexivity].
  destruct (Qlt_le_dec distance_min d); [|reflexivity].
  destruct (_last_sector s =? _); [|reflexivity].
  destruct (Qlt_le_dec d _); reflexivity.
Qed.

End Frames.

(** ** The decoder invariant *)

Section Invariant.
Context {backend : AP_Proximity_Backend}.

Local Ltac inv_done :=
  repeat split; intros; first [assumption | discriminate | congruence | auto].

(** The aggregator touches none of the members of the frame decoder. *)
Lemma ingest_decoder_frame now a d s :
  let s' := ingest now a d s in
  _rp_state s' = _rp_state s /\ _payload_length s' = _payload_length s
  /\ _byte_count s' = _byte_count s /\ _response_type s' = _response_type s
  /\ payload s' = payload s /\ _uart s' = _uart s.
Proof.
  unfold ingest; cbn.
  repeat (case_match; cbn); repeat split; reflexivity.
Qed.

Lemma parse_response_data_decoder now s :
  let s' := parse_response_data now s in
  _rp_state s' = _rp_state s /\ _payload_length s' = _payload_length s
  /\ _byte_count s' = _byte_count s
  /\ (_sync_error s' = _sync_error s \/ _sync_error s' = wrap8 (_sync_error s + 1)).
Proof.
  unfold parse_response_data; cbn.
  destruct (_response_type s); try (repeat split; auto; fail).
  destruct (scan_valid (payload s)).
  - pose proof (ingest_decoder_frame now (angle_deg (payload s)) (distance_m (payload s)) s)
      as (? & ? & ? & _).
    rewrite ingest_sync_error. auto.
  - cbn. auto.
Qed.

Lemma read_payload_inv now c s :
  _sync_error s = 0 ->
  let s' := read_payload now c s in
  (_sync_error s' = 0 \/ _sync_error s' = 1)
  /\ _rp_state s' = _rp_state s /\ _payload_length s' = _payload_length s
  /\ (_sync_error s' <> 0 -> _byte_count s' = 0).
Proof.
  intros Hs. unfold read_payload; cbn.
  case_match; cbn.
  - match goal with |- context [parse_response_data now ?t] =>
      pose proof (parse_response_data_decoder now t) as (E1 & E2 & _ & E4);
      cbn in E1, E2, E4; rewrite Hs in E4
    end.
    change (wrap8 (0 + 1)) with 1 in E4. auto.
  - rewrite Hs. repeat split; auto. congruence.
Qed.

Lemma parse_response_descriptor_inv now s :
  _rp_state s <> rp_measurements ->
  let s' := parse_response_descriptor now s in
  _rp_state s' = rp_measurements -> _payload_length s' = 5.
Proof.
  intros Hne. unfold parse_response_descriptor.
  destruct (descriptor_header_ok _); cbn; [|discriminate].
  destruct (descriptor_is_scan (_descriptor s)); cbn;
    destruct (descriptor_is_health (_descriptor s)); cbn;
    first [discriminate | reflexivity | contradiction].
Qed.

Lemma case_rp_responding_inv now c s :
  _rp_state s <> rp_measurements ->
  let s' := case_rp_responding now c s in
  _sync_error s' = _sync_error s
  /\ (_rp_state s' = rp_measurements -> _payload_length s' = 5 /\ _byte_count s' = 0).
Proof.
  intros Hne. unfold case_rp_responding.
  destruct ((c =? RPLIDAR_PREAMBLE) || _descriptor_data s); cbn.
  - case_match; cbn.
    + rewrite parse_response_descriptor_sync_error. split; [reflexivity|].
      intros Hm. split; [|reflexivity].
      apply parse_response_descriptor_inv in Hm; [exact Hm | exact Hne].
    + split; [reflexivity | contradiction].
  - split; [reflexivity | discriminate].
Qed.

Lemma case_rp_measurements_inv now c s :
  decoder_inv s -> _rp_state s = rp_measurements ->
  decoder_inv (case_rp_measurements now c s).
Proof.
  intros (H1 & H2 & H3) Hm. unfold case_rp_measurements.
  destruct (_sync_error s =? 0) eqn:E0; cbn.
  - apply Z.eqb_eq in E0.
    pose proof (read_payload_inv now c s E0) as (I1 & I2 & I3 & I4).
    unfold decoder_inv. rewrite I2, I3. auto.
  - destruct (Z.land c 3 =? 1).
    + pose proof (read_payload_inv now c (set_sync_error 0 s) eq_refl)
        as (I1 & I2 & I3 & I4).
      unfold decoder_inv. rewrite I2, I3. cbn. auto.
    + destruct (RESYNC_TIMEOUT <? _); [|unfold decoder_inv; auto].
      unfold decoder_inv, reset_rplidar.
      destruct (_uart s); cbn; [|auto].
      inv_done.
Qed.

Lemma process_byte_inv now s c :
  decoder_inv s -> decoder_inv (process_byte now s c).
Proof.
  intros Hinv. pose proof Hinv as (H1 & H2 & H3).
  unfold process_byte. destruct (_rp_state s) eqn:Es.
  - (* rp_unknown *)
    unfold case_rp_unknown. destruct (c =? RPLIDAR_PREAMBLE).
    + pose proof (case_rp_responding_inv now c (set_rp_state rp_responding s))
        as (I1 & I2); [discriminate|].
      unfold decoder_inv. rewrite I1. cbn. intuition.
    + cbn. destruct (10 <? wrap8 (_cnt s + 1)); unfold decoder_inv, reset_rplidar.
      * cbn. destruct (_uart s); cbn; inv_done.
      * cbn. rewrite Es. inv_done.
  - (* rp_resetted *)
    unfold case_rp_resetted, decoder_inv, set_scan_mode.
    repeat (case_match; cbn); rewrite ?Es; inv_done.
  - (* rp_responding *)
    pose proof (case_rp_responding_inv now c s) as (I1 & I2); [congruence|].
    unfold decoder_inv. rewrite I1. intuition.
  - (* rp_measurements *)
    apply case_rp_measurements_inv; assumption.
  - (* rp_health *)
    exact Hinv.
Qed.

Lemma get_readings_inv now bytes s :
  decoder_inv s -> decoder_inv (get_readings now bytes s).
Proof.
  unfold get_readings. destruct (_uart s); cbn; [|auto].
  revert s. induction bytes as [|c bytes IH]; cbn; intros s Hinv; [exact Hinv|].
  apply IH, process_byte_inv, Hinv.
Qed.

(** The sector partitioner writes the sector table only. *)
Lemma divide_area_decoder_frame n sector start_angle degrees_to_fill s :
  let s' := (divide_area n sector start_angle degrees_to_fill s).2 in
  _sync_error s' = _sync_error s /\ _rp_state s' = _rp_state s
  /\ _payload_length s' = _payload_length s /\ _byte_count s' = _byte_count s
  /\ _last_distance_received_ms s' = _last_distance_received_ms s
  /\ _uart s' = _uart s /\ _initialised s' = _initialised s.
Proof.
  revert sector start_angle degrees_to_fill s.
  induction n as [|n IH]; intros sector start_angle degrees_to_fill s; cbn;
    [repeat split; reflexivity|].
  destruct ((0 <? degrees_to_fill) && (sector <? PROXIMITY_SECTORS_MAX));
    [|cbn; repeat split; reflexivity].
  match goal with |- context [divide_area n ?a ?b ?c ?t] =>
    specialize (IH a b c t) end.
  cbn in IH. exact IH.
Qed.

Lemma init_sectors_decoder_frame s :
  let s' := init_sectors s in
  _sync_error s' = _sync_error s /\ _rp_state s' = _rp_state s
  /\ _payload_length s' = _payload_length s /\ _byte_count s' = _byte_count s
  /\ _last_distance_received_ms s' = _last_distance_received_ms s
  /\ _uart s' = _uart s /\ _initialised s' = _initialised s.
Proof.
  unfold init_sectors. destruct (get_ignore_area_count =? 0); cbn;
    [repeat split; reflexivity|].
  assert (forall l acc,
    let s' := (foldl ignore_area_step acc l).2 in
    _sync_error s' = _sync_error acc.2 /\ _rp_state s' = _rp_state acc.2
    /\ _payload_length s' = _payload_length acc.2 /\ _byte_count s' = _byte_count acc.2
    /\ _last_distance_received_ms s' = _last_distance_received_ms acc.2
    /\ _uart s' = _uart acc.2 /\ _initialised s' = _initialised acc.2) as Hfold.
  { induction l as [|i l IH]; intros acc; cbn; [repeat split; reflexivity|].
    specialize (IH (ignore_area_step acc i)). cbn in IH.
    destruct IH as (-> & -> & -> & -> & -> & -> & ->).
    unfold ignore_area_step. destruct acc as [sector t]; cbn.
    destruct (get_ignore_area i) as [[angle width]|]; [|repeat split; reflexivity].
    apply divide_area_decoder_frame. }
  specialize (Hfold (seqZ 0 get_ignore_area_count) (0, s)).
  destruct (foldl ignore_area_step (0, s) (seqZ 0 get_ignore_area_count)) as [sector s1].
  cbn in *. exact Hfold.
Qed.

Lemma update_initialise_inv now s :
  decoder_inv s -> decoder_inv (update_initialise now s).
Proof.
  intros Hinv. pose proof Hinv as (H1 & H2 & H3).
  unfold update_initialise, initialise.
  destruct (_initialised s); cbn; [exact Hinv|].
  destruct (_sector_initialised s); cbn.
  - unfold decoder_inv, reset_rplidar. destruct (_uart s); cbn; [|auto].
    inv_done.
  - pose proof (init_sectors_decoder_frame s) as (E1 & E2 & E3 & E4 & _).
    unfold decoder_inv; cbn. rewrite E1, E2, E3, E4. auto.
Qed.

Lemma update_inv now bytes s :
  decoder_inv s -> decoder_inv (update now bytes s).
Proof.
  intros Hinv. unfold update. destruct (_uart s); cbn; [|exact Hinv].
  assert (decoder_inv (if _initialised (update_initialise now s)
                       then get_readings now bytes (update_initialise now s)
                       else update_initialise now s)) as H.
  { destruct (_initialised _); [apply get_readings_inv|]; apply update_initialise_inv, Hinv. }
  destruct (_ || _); exact H.
Qed.

Lemma constructed_inv s : constructed s -> decoder_inv s.
Proof.
  intros (_ & Hs & _ & Hst & _). unfold decoder_inv. rewrite Hs, Hst.
  inv_done.
Qed.

Lemma reachable_inv s : reachable s -> decoder_inv s.
Proof.
  induction 1 as [s Hc | now bytes s _ IH].
  - apply constructed_inv, Hc.
  - apply update_inv, IH.
Qed.

End Invariant.

(** ** Sample validation and the sync-error counter *)

Section SyncError.
Context {backend : AP_Proximity_Backend}.

Lemma process_byte_sync_error_other now s c :
  _rp_state s <> rp_measurements ->
  _sync_error (process_byte now s c) = _sync_error s.
Proof.
  intros Hne. unfold process_byte. destruct (_rp_state s) eqn:Es.
  - unfold case_rp_unknown. destruct (c =? RPLIDAR_PREAMBLE).
    + pose proof (case_rp_responding_inv now c (set_rp_state rp_responding s))
        as (I1 & _); [discriminate|exact I1].
    + cbn. destruct (10 <? _); cbn; [|reflexivity].
      unfold reset_rplidar. cbn. destruct (_uart s); reflexivity.
  - unfold case_rp_resetted, set_scan_mode. repeat (case_match; cbn); reflexivity.
  - pose proof (case_rp_responding_inv now c s) as (I1 & _); [congruence|exact I1].
  - contradiction.
  - reflexivity.
Qed.

(** How one byte can change the counter: a rejected scan payload takes it
    from 0 to 1, a resynchronisation byte takes it back to 0, and nothing
    else touches it. *)
Lemma process_byte_sync_error_step now s c :
  decoder_inv s ->
  let s' := process_byte now s c in
  _sync_error s' = _sync_error s
  \/ (_sync_error s = 0 /\ _sync_error s' = 1 /\ _rp_state s = rp_measurements
      /\ _response_type s = ResponseType_SCAN
      /\ wrap16 (_byte_count s + 1) = _payload_length s
      /\ scan_valid (<[Z.to_nat (_byte_count s) := c]> (payload s)) = false)
  \/ (_sync_error s = 1 /\ _sync_error s' = 0 /\ _rp_state s = rp_measurements
      /\ Z.land c 0x03 = 0x01).
Proof.
  intros (H1 & H2 & H3). cbn zeta.
  destruct (rp_state_eqb (_rp_state s) rp_measurements) eqn:Em.
  2:{ left. apply process_byte_sync_error_other. intros E. rewrite E in Em. discriminate. }
  assert (_rp_state s = rp_measurements) as Hm by (destruct (_rp_state s); (discriminate || reflexivity)).
  clear Em. unfold process_byte. rewrite Hm. unfold case_rp_measurements.
  destruct (_sync_error s =? 0) eqn:E0; cbn.
  - apply Z.eqb_eq in E0. unfold read_payload; cbn.
    destruct (wrap16 (_byte_count s + 1) =? _payload_length s) eqn:El; cbn;
      [|left; reflexivity].
    apply Z.eqb_eq in El. unfold parse_response_data; cbn.
    destruct (_response_type s) eqn:Et; try (left; reflexivity).
    destruct (scan_valid _) eqn:Ev.
    + left. rewrite ingest_sync_error. reflexivity.
    + right; left. cbn. rewrite E0. repeat split; auto.
  - apply Z.eqb_neq in E0. destruct H1 as [H1|H1]; [contradiction|].
    destruct (Z.land c 3 =? 1) eqn:Ec.
    + apply Z.eqb_eq in Ec.
      pose proof (read_payload_inv now c (set_sync_error 0 s) eq_refl) as (I1 & _).
      destruct I1 as [I1|I1]; [right; right; auto | left; congruence].
    + left. destruct (RESYNC_TIMEOUT <? _); [apply reset_rplidar_sync_error | reflexivity].
Qed.

(** C9. The sync-error counter only ever holds 0 or 1: in every reachable
    state it is 0 or 1, and one decoded byte changes it only by a rejected
    scan payload in [parse_response_data] (0 to 1, which needs the counter
    to be 0 when the payload completes in the measurement state) or by a
    resynchronisation byte (1 to 0). *)
Theorem sync_error_zero_or_one s :
  reachable s ->
  (_sync_error s = 0 \/ _sync_error s = 1)
  /\ forall now c,
      let s' := process_byte now s c in
      _sync_error s' = _sync_error s
      \/ (_sync_error s = 0 /\ _sync_error s' = 1 /\ _rp_state s = rp_measurements
          /\ _response_type s = ResponseType_SCAN
          /\ wrap16 (_byte_count s + 1) = _payload_length s
          /\ scan_valid (<[Z.to_nat (_byte_count s) := c]> (payload s)) = false)
      \/ (_sync_error s = 1 /\ _sync_error s' = 0 /\ _rp_state s = rp_measurements
          /\ Z.land c 0x03 = 0x01).
Proof.
  intros Hr. pose proof (reachable_inv s Hr) as Hinv. split.
  - apply Hinv.
  - intros now c. apply process_byte_sync_error_step, Hinv.
Qed.

(** C3. A scan payload with [startbit = not_startbit] or [checkbit = 0]
    changes nothing but the sync-error counter, which goes up by exactly
    one: no committed angle, distance or validity flag, no retained
    candidate and no boundary update comes from it. *)
Theorem invalid_scan_payload_rejected now s :
  _response_type s = ResponseType_SCAN ->
  startbit (payload s) = not_startbit (payload s) \/ checkbit (payload s) = 0 ->
  0 <= _sync_error s < 255 ->
  let s' := parse_response_data now s in
  s' = set_sync_error (_sync_error s + 1) s
  /\ _sync_error s' = _sync_error s + 1
  /\ _angle s' = _angle s /\ _distance s' = _distance s
  /\ _distance_valid s' = _distance_valid s
  /\ _last_sector s' = _last_sector s
  /\ _angle_deg_last s' = _angle_deg_last s /\ _distance_m_last s' = _distance_m_last s
  /\ boundary_updated s' = boundary_updated s.
Proof.
  intros Ht Hbad Hrange. apply scan_valid_false_iff in Hbad.
  unfold parse_response_data. rewrite Ht, Hbad. cbn zeta.
  unfold wrap8. rewrite Z.mod_small by lia.
  repeat split; reflexivity.
Qed.

End SyncError.

(** ** Dead-zone samples *)

Section DeadZone.
Context {backend : AP_Proximity_Backend}.

(** C10. A valid scan sample at or below [distance_min()] clears the
    validity flag of the sector its angle maps to and (besides the activity
    time stamp) leaves everything else as it was: the open sector, the
    retained candidate, the committed readings and the boundary are
    untouched, whichever sector the angle maps to. *)
Theorem dead_zone_sample_only_invalidates now s sector :
  _response_type s = ResponseType_SCAN ->
  scan_valid (payload s) = true ->
  convert_angle_to_sector (_num_sectors s) (_sector_middle_deg s) (_sector_width_deg s)
                          (angle_deg (payload s)) = Some sector ->
  (distance_m (payload s) <= distance_min)%Q ->
  let s' := parse_response_data now s in
  s' = (s |> set_last_distance_received_ms now
          |> set_distance_valid (<[Z.to_nat sector := false]> (_distance_valid s)))
  /\ _distance_valid s' = <[Z.to_nat sector := false]> (_distance_valid s)
  /\ _last_sector s' = _last_sector s
  /\ _distance_m_last s' = _distance_m_last s /\ _angle_deg_last s' = _angle_deg_last s
  /\ _angle s' = _angle s /\ _distance s' = _distance s
  /\ boundary_updated s' = boundary_updated s.
Proof.
  intros Ht Hv Hc Hd. unfold parse_response_data. rewrite Ht, Hv.
  unfold ingest. cbn. rewrite Hc.
  destruct (Qlt_le_dec distance_min (distance_m (payload s))) as [Hlt|_].
  - exfalso. exact (Qlt_not_le _ _ Hlt Hd).
  - repeat split; reflexivity.
Qed.

End DeadZone.

(** ** Descriptor classifier and the health state *)

Section Descriptor.
Context {backend : AP_Proximity_Backend}.

Lemma seven_bytes (d : list Z) :
  length d = 7%nat ->
  d = [byte_at d 0; byte_at d 1; byte_at d 2; byte_at d 3; byte_at d 4;
       byte_at d 5; byte_at d 6].
Proof.
  intros H.
  destruct d as [|b0 [|b1 [|b2 [|b3 [|b4 [|b5 [|b6 [|b7 d]]]]]]]]; try discriminate.
  reflexivity.
Qed.

Lemma descriptor_is_scan_false (d : list Z) :
  length d = 7%nat -> descriptor_header_ok d = true -> d <> scan_descriptor ->
  descriptor_is_scan d = false.
Proof.
  intros Hl Hh Hne. destruct (descriptor_is_scan d) eqn:E; [|reflexivity].
  exfalso. apply Hne. rewrite (seven_bytes d Hl).
  unfold descriptor_is_scan in E. unfold descriptor_header_ok, RPLIDAR_PREAMBLE in Hh.
  repeat (apply andb_prop in E; destruct E as [E ?]).
  apply andb_prop in Hh; destruct Hh.
  repeat match goal with H : (_ =? _) = true |- _ => apply Z.eqb_eq in H; rewrite H end.
  reflexivity.
Qed.

Lemma descriptor_is_health_false (d : list Z) :
  length d = 7%nat -> descriptor_header_ok d = true -> d <> health_descriptor ->
  descriptor_is_health d = false.
Proof.
  intros Hl Hh Hne. destruct (descriptor_is_health d) eqn:E; [|reflexivity].
  exfalso. apply Hne. rewrite (seven_bytes d Hl).
  unfold descriptor_is_health in E. unfold descriptor_header_ok, RPLIDAR_PREAMBLE in Hh.
  repeat (apply andb_prop in E; destruct E as [E ?]).
  apply andb_prop in Hh; destruct Hh.
  repeat match goal with H : (_ =? _) = true |- _ => apply Z.eqb_eq in H; rewrite H end.
  reflexivity.
Qed.

(** C5, as the code has it.  A completed 7-byte descriptor that matches
    neither template is treated as invalid, and the decoder state becomes
    Unknown, exactly when its first two bytes are not 0xA5, 0x5A; with that
    header, [parse_response_descriptor] leaves the whole state, and so the
    decoder state, as it was. *)
Theorem descriptor_invalid_iff_bad_header now s :
  length (_descriptor s) = 7%nat ->
  _descriptor s <> scan_descriptor -> _descriptor s <> health_descriptor ->
  parse_response_descriptor now s =
    if (byte_at (_descriptor s) 0 =? 0xA5) && (byte_at (_descriptor s) 1 =? 0x5A)
    then s else set_rp_state rp_unknown s.
Proof.
  intros Hl Hs Hh. unfold parse_response_descriptor.
  change ((byte_at (_descriptor s) 0 =? 0xA5) && (byte_at (_descriptor s) 1 =? 0x5A))
    with (descriptor_header_ok (_descriptor s)).
  destruct (descriptor_header_ok (_descriptor s)) eqn:Hok; [|reflexivity].
  rewrite (descriptor_is_scan_false _ Hl Hok Hs).
  rewrite (descriptor_is_health_false _ Hl Hok Hh). reflexivity.
Qed.

(** C6, as the code has it.  In the AwaitingHealth state every incoming
    byte is dropped: nothing is accumulated, [parse_response_data] is not
    reached and the state stays as it was; and a health payload handed to
    [parse_response_data] changes no state, whatever its status byte. *)
Theorem health_state_drops_bytes now c s :
  (_rp_state s = rp_health -> process_byte now s c = s)
  /\ (_response_type s = ResponseType_Health -> parse_response_data now s = s).
Proof.
  split.
  - intros H. unfold process_byte. rewrite H. reflexivity.
  - intros H. unfold parse_response_data. rewrite H. reflexivity.
Qed.

End Descriptor.

(** ** Resynchronisation *)

Section Resync.
Context {backend : AP_Proximity_Backend}.

Lemma out_of_sync_discard now s c :
  _rp_state s = rp_measurements -> _sync_error s <> 0 -> Z.land c 0x03 <> 0x01 ->
  process_byte now s c =
    if RESYNC_TIMEOUT <? wrap32 (now - _last_distance_received_ms s)
    then reset_rplidar now s else s.
Proof.
  intros Hm Hs Hc. unfold process_byte. rewrite Hm. unfold case_rp_measurements.
  apply Z.eqb_neq in Hs, Hc. rewrite Hs, Hc. reflexivity.
Qed.

Lemma out_of_sync_resume now s c :
  decoder_inv s ->
  _rp_state s = rp_measurements -> _sync_error s <> 0 -> Z.land c 0x03 = 0x01 ->
  process_byte now s c =
    (s |> set_sync_error 0
       |> set_payload (<[0%nat := c]> (payload s))
       |> set_byte_count 1).
Proof.
  intros (_ & H2 & H3) Hm Hs Hc. unfold process_byte. rewrite Hm.
  unfold case_rp_measurements.
  specialize (H2 Hm). specialize (H3 Hm Hs).
  apply Z.eqb_neq in Hs. apply Z.eqb_eq in Hc. rewrite Hs, Hc. cbn [negb].
  unfold read_payload. cbn. rewrite H2, H3. reflexivity.
Qed.

(** C8. In the measurement state with the sync error set, a byte whose low
    two bits are not 01 is discarded: the payload buffer, the byte counter
    and the sync error stay as they are (the state is unchanged, or, once
    the resync timeout has passed, reset).  A byte whose low two bits are 01
    clears the sync error and is stored as byte 0 of the payload, with the
    byte counter at 1, whatever the clock reads: the timeout is tested for
    the discarded bytes only.  So the first such byte after any run of
    discarded bytes resumes the accumulation, unless a discarded byte came
    after the timeout and reset the device. *)
Theorem resync_on_start_marker now s :
  reachable s -> _rp_state s = rp_measurements -> _sync_error s <> 0 ->
  (forall b, Z.land b 0x03 <> 0x01 ->
     let s' := process_byte now s b in
     payload s' = payload s /\ _byte_count s' = _byte_count s
     /\ _sync_error s' = _sync_error s
     /\ (s' = s \/ s' = reset_rplidar now s))
  /\ (forall c, Z.land c 0x03 = 0x01 ->
        process_byte now s c =
          (s |> set_sync_error 0
             |> set_payload (<[0%nat := c]> (payload s))
             |> set_byte_count 1))
  /\ (forall junk c,
        Forall (fun b => Z.land b 0x03 <> 0x01) junk -> Z.land c 0x03 = 0x01 ->
        junk = [] \/ wrap32 (now - _last_distance_received_ms s) <= RESYNC_TIMEOUT ->
        foldl (process_byte now) s junk = s
        /\ foldl (process_byte now) s (junk ++ [c]) =
             (s |> set_sync_error 0
                |> set_payload (<[0%nat := c]> (payload s))
                |> set_byte_count 1)).
Proof.
  intros Hr Hm Hs. pose proof (reachable_inv s Hr) as Hinv. split; [|split].
  - intros b Hb. cbn zeta. rewrite (out_of_sync_discard now s b Hm Hs Hb).
    destruct (RESYNC_TIMEOUT <? _); [|auto].
    unfold reset_rplidar. destruct (_uart s); cbn; auto.
  - intros c Hc. apply out_of_sync_resume; assumption.
  - intros junk c Hjunk Hc Htime.
    assert (foldl (process_byte now) s junk = s) as Hdrop.
    { destruct Htime as [-> | Htime]; [reflexivity|].
      apply Z.ltb_ge in Htime.
      induction Hjunk as [|b junk Hb _ IH]; cbn; [reflexivity|].
      rewrite (out_of_sync_discard now s b Hm Hs Hb), Htime. exact IH. }
    split; [exact Hdrop|].
    rewrite foldl_app, Hdrop. cbn. apply out_of_sync_resume; assumption.
Qed.

End Resync.

(** ** Staleness *)

Section Staleness.
Context {backend : AP_Proximity_Backend}.

Lemma reset_rplidar_stamp now s :
  _last_distance_received_ms (reset_rplidar now s) = _last_distance_received_ms s.
Proof. unfold reset_rplidar. destruct (_uart s); reflexivity. Qed.

Lemma ingest_stamp now a d s :
  _last_distance_received_ms (ingest now a d s) = now.
Proof. unfold ingest; cbn. repeat (case_match; cbn); reflexivity. Qed.

Lemma parse_response_descriptor_stamp now s :
  _last_distance_received_ms (parse_response_descriptor now s) =
    if descriptor_header_ok (_descriptor s)
       && (descriptor_is_scan (_descriptor s) || descriptor_is_health (_descriptor s))
    then now else _last_distance_received_ms s.
Proof.
  unfold parse_response_descriptor.
  destruct (descriptor_header_ok _); cbn; [|reflexivity].
  destruct (descriptor_is_scan (_descriptor s)); cbn;
    destruct (descriptor_is_health (_descriptor s)); reflexivity.
Qed.

Lemma case_rp_responding_stamp now c s :
  _last_distance_received_ms (case_rp_responding now c s) =
    if ((c =? RPLIDAR_PREAMBLE) || _descriptor_data s)
       && (wrap16 (_byte_count s + 1) =? 7)
       && descriptor_header_ok (<[Z.to_nat (_byte_count s) := c]> (_descriptor s))
       && (descriptor_is_scan (<[Z.to_nat (_byte_count s) := c]> (_descriptor s))
           || descriptor_is_health (<[Z.to_nat (_byte_count s) := c]> (_descriptor s)))
    then now else _last_distance_received_ms s.
Proof.
  unfold case_rp_responding.
  destruct ((c =? RPLIDAR_PREAMBLE) || _descriptor_data s); cbn; [|reflexivity].
  destruct (wrap16 (_byte_count s + 1) =? 7); cbn; [|reflexivity].
  rewrite parse_response_descriptor_stamp. reflexivity.
Qed.

Lemma read_payload_stamp now c s :
  _last_distance_received_ms (read_payload now c s) =
    if (wrap16 (_byte_count s + 1) =? _payload_length s)
       && match _response_type s with ResponseType_SCAN => true | _ => false end
       && scan_valid (<[Z.to_nat (_byte_count s) := c]> (payload s))
    then now else _last_distance_received_ms s.
Proof.
  unfold read_payload; cbn.
  destruct (wrap16 (_byte_count s + 1) =? _payload_length s); cbn; [|reflexivity].
  unfold parse_response_data; cbn.
  destruct (_response_type s); cbn; try reflexivity.
  destruct (scan_valid _); cbn; [apply ingest_stamp | reflexivity].
Qed.

(** One byte writes the activity time stamp exactly when it completes a
    recognised descriptor or a valid scan payload. *)
Lemma process_byte_stamp now s c :
  _last_distance_received_ms (process_byte now s c) =
    if refreshes_activity s c then now else _last_distance_received_ms s.
Proof.
  unfold process_byte, refreshes_activity, recognises_descriptor,
    completes_descriptor, decodes_measurement.
  destruct (_rp_state s) eqn:Es; cbn.
  - unfold case_rp_unknown. destruct (c =? RPLIDAR_PREAMBLE) eqn:Ec; cbn.
    + rewrite case_rp_responding_stamp; cbn. rewrite Ec; cbn.
      rewrite orb_false_r. reflexivity.
    + destruct (10 <? _); cbn; [|reflexivity].
      rewrite reset_rplidar_stamp. reflexivity.
  - unfold case_rp_resetted, set_scan_mode. repeat (case_match; cbn); reflexivity.
  - rewrite case_rp_responding_stamp, orb_false_r. reflexivity.
  - unfold case_rp_measurements.
    destruct (_sync_error s =? 0); cbn.
    + rewrite read_payload_stamp. reflexivity.
    + destruct (Z.land c 3 =? 1); cbn.
      * rewrite read_payload_stamp. reflexivity.
      * destruct (RESYNC_TIMEOUT <? _); [apply reset_rplidar_stamp | reflexivity].
  - reflexivity.
Qed.

Lemma drain_stamp now bytes s :
  _last_distance_received_ms (foldl (process_byte now) s bytes) =
    if drain_refreshes now s bytes then now else _last_distance_received_ms s.
Proof.
  revert s. induction bytes as [|c bytes IH]; intros s; cbn; [reflexivity|].
  rewrite IH, process_byte_stamp.
  destruct (refreshes_activity s c); cbn; [|reflexivity].
  destruct (drain_refreshes _ _ _); reflexivity.
Qed.

Lemma update_initialise_frame now s :
  _last_distance_received_ms (update_initialise now s) = _last_distance_received_ms s
  /\ _uart (update_initialise now s) = _uart s.
Proof.
  unfold update_initialise, initialise.
  destruct (_initialised s); cbn; [split; reflexivity|].
  destruct (_sector_initialised s); cbn.
  - unfold reset_rplidar. destruct (_uart s) eqn:Eu; cbn; split; (reflexivity || assumption).
  - pose proof (init_sectors_decoder_frame s) as (_ & _ & _ & _ & E & E' & _).
    split; assumption.
Qed.

Lemma update_stamp now bytes s :
  _uart s = true ->
  _last_distance_received_ms (update now bytes s) =
    if update_refreshes now bytes s then now else _last_distance_received_ms s.
Proof.
  intros Hu. unfold update, update_refreshes. rewrite Hu; cbn.
  pose proof (update_initialise_frame now s) as (E1 & E2).
  assert (_last_distance_received_ms
            (if _initialised (update_initialise now s)
             then get_readings now bytes (update_initialise now s)
             else update_initialise now s) =
          if _initialised (update_initialise now s)
             && drain_refreshes now (update_initialise now s) bytes
          then now else _last_distance_received_ms s) as E.
  { destruct (_initialised (update_initialise now s)); cbn; [|exact E1].
    unfold get_readings. rewrite E2, Hu; cbn. rewrite drain_stamp, E1. reflexivity. }
  destruct (_ || _); cbn; exact E.
Qed.

(** C7, as the code has it.  After a call of [update] on an instance with a
    UART, the status is NoData exactly when the activity time stamp
    [_last_distance_received_ms] is 0 or lies more than 200 ms (modulo 2^32)
    before [now], and Good otherwise.  The time stamp is [now] when a byte
    of this call completed a valid scan payload or a recognised scan or
    health descriptor, and is unchanged otherwise; so an instance whose
    time stamp is 0 reports NoData until one of these happens. *)
Theorem update_status_follows_activity_stamp now bytes s :
  _uart s = true ->
  let s' := update now bytes s in
  let stamp := _last_distance_received_ms s' in
  (status s' = Proximity_NoData <->
     stamp = 0 \/ COMM_ACTIVITY_TIMEOUT_MS < wrap32 (now - stamp))
  /\ (status s' = Proximity_Good <->
     stamp <> 0 /\ wrap32 (now - stamp) <= COMM_ACTIVITY_TIMEOUT_MS)
  /\ stamp = (if update_refreshes now bytes s then now
              else _last_distance_received_ms s)
  /\ (_last_distance_received_ms s = 0 -> update_refreshes now bytes s = false ->
      status s' = Proximity_NoData).
Proof.
  intros Hu. cbn zeta.
  assert ((status (update now bytes s) = Proximity_NoData <->
            _last_distance_received_ms (update now bytes s) = 0
            \/ COMM_ACTIVITY_TIMEOUT_MS
               < wrap32 (now - _last_distance_received_ms (update now bytes s)))
          /\ (status (update now bytes s) = Proximity_Good <->
            _last_distance_received_ms (update now bytes s) <> 0
            /\ wrap32 (now - _last_distance_received_ms (update now bytes s))
               <= COMM_ACTIVITY_TIMEOUT_MS)) as [Hno Hgood].
  { unfold update. rewrite Hu; cbn.
    set (s2 := if _initialised (update_initialise now s) then _ else _).
    destruct (_last_distance_received_ms s2 =? 0) eqn:E0; cbn.
    - apply Z.eqb_eq in E0. split; split; intros H; auto; [discriminate|].
      destruct H; contradiction.
    - apply Z.eqb_neq in E0.
      destruct (COMM_ACTIVITY_TIMEOUT_MS <? _) eqn:Et; cbn.
      + apply Z.ltb_lt in Et. split; split; intros H; auto; [discriminate|lia].
      + apply Z.ltb_ge in Et. split; split; intros H; auto; [discriminate|lia]. }
  pose proof (update_stamp now bytes s Hu) as Hstamp.
  split; [exact Hno|]. split; [exact Hgood|]. split; [exact Hstamp|].
  intros Hz Hquiet. apply Hno. left. rewrite Hstamp, Hquiet. exact Hz.
Qed.

End Staleness.

(** ** Sector aggregator *)

Section Aggregator.
Context {backend : AP_Proximity_Backend}.

Lemma ingest_sector_table now a d s :
  sector_table (ingest now a d s) = sector_table s.
Proof.
  unfold sector_table, ingest; cbn. repeat (case_match; cbn); reflexivity.
Qed.

(** An in-range sample in the open sector: the candidate is replaced when
    the sample is strictly closer. *)
Lemma ingest_open now a d s :
  observes (sector_table s) (_last_sector s) (now, a, d) = true ->
  ingest now a d s =
    if Qlt_le_dec d (_distance_m_last s)
    then s |> set_last_distance_received_ms now
           |> set_distance_m_last d
           |> set_angle_deg_last a
    else set_last_distance_received_ms now s.
Proof.
  unfold observes, sample_sector, sector_table, ingest; cbn.
  destruct (Qlt_le_dec distance_min d); [|discriminate].
  destruct (convert_angle_to_sector _ _ _ a) as [k|]; [|discriminate].
  intros Hk. apply Z.eqb_eq in Hk. subst k. rewrite Z.eqb_refl. reflexivity.
Qed.

(** An in-range sample in another sector: the open sector is committed and
    the sample opens its own sector. *)
Lemma ingest_enter now a d s sector :
  _last_sector s <> sector ->
  observes (sector_table s) sector (now, a, d) = true ->
  ingest now a d s =
    (s |> set_last_distance_received_ms now
       |> set_angle (<[Z.to_nat (_last_sector s) := _angle_deg_last s]> (_angle s))
       |> set_distance (<[Z.to_nat (_last_sector s) := _distance_m_last s]> (_distance s))
       |> set_distance_valid (<[Z.to_nat (_last_sector s) := true]> (_distance_valid s))
       |> update_boundary_for_sector (_last_sector s)
       |> set_last_sector sector
       |> set_distance_m_last d
       |> set_angle_deg_last a).
Proof.
  intros Hne. unfold observes, sample_sector, sector_table, ingest; cbn.
  destruct (Qlt_le_dec distance_min d); [|discriminate].
  destruct (convert_angle_to_sector _ _ _ a) as [k|]; [|discriminate].
  intros Hk. apply Z.eqb_eq in Hk. subst k.
  apply Z.eqb_neq in Hne. rewrite Hne. reflexivity.
Qed.

(** Any other sample that does not leave the open sector (dead zone, or no
    sector for its angle) keeps the candidate, the commits and the boundary. *)
Lemma ingest_stay now a d s :
  observes (sector_table s) (_last_sector s) (now, a, d) = false ->
  leaves (sector_table s) (_last_sector s) (now, a, d) = false ->
  let s' := ingest now a d s in
  _last_sector s' = _last_sector s
  /\ _angle_deg_last s' = _angle_deg_last s /\ _distance_m_last s' = _distance_m_last s
  /\ _angle s' = _angle s /\ _distance s' = _distance s
  /\ boundary_updated s' = boundary_updated s.
Proof.
  unfold observes, leaves, sample_sector, sector_table, ingest; cbn.
  destruct (convert_angle_to_sector _ _ _ a) as [k|];
    destruct (Qlt_le_dec distance_min d); cbn;
    try (intros; repeat split; reflexivity).
  destruct (k =? _last_sector s); discriminate.
Qed.

Lemma ingest_open_frame now a d s :
  observes (sector_table s) (_last_sector s) (now, a, d) = true ->
  let s' := ingest now a d s in
  _last_sector s' = _last_sector s
  /\ _angle s' = _angle s /\ _distance s' = _distance s
  /\ boundary_updated s' = boundary_updated s
  /\ (_angle_deg_last s', _distance_m_last s') =
       (if Qlt_le_dec d (_distance_m_last s)
        then (a, d) else (_angle_deg_last s, _distance_m_last s)).
Proof.
  intros Ho. cbn zeta. rewrite (ingest_open now a d s Ho).
  destruct (Qlt_le_dec d (_distance_m_last s)); repeat split; reflexivity.
Qed.

(** The dwell in an open sector: whatever arrives without leaving the
    sector, the candidate is the nearest of the candidate held at the start
    and the in-range samples of the sector, and nothing is committed. *)
Lemma dwell_open rest : forall s,
  let table := sector_table s in
  let sector := _last_sector s in
  Forall (fun x => leaves table sector x = false) rest ->
  let observed := List.map reading (List.filter (observes table sector) rest) in
  let s1 := ingest_all rest s in
  _last_sector s1 = sector /\ sector_table s1 = table
  /\ _angle s1 = _angle s /\ _distance s1 = _distance s
  /\ boundary_updated s1 = boundary_updated s
  /\ ((_angle_deg_last s1, _distance_m_last s1) = (_angle_deg_last s, _distance_m_last s)
      \/ In (_angle_deg_last s1, _distance_m_last s1) observed)
  /\ (_distance_m_last s1 <= _distance_m_last s)%Q
  /\ Forall (fun r => (_distance_m_last s1 <= r.2)%Q) observed.
Proof.
  induction rest as [|[[now a] d] rest IH]; intros s; cbn zeta; intros Hstay.
  - cbn. repeat split; auto using Qle_refl.
  - apply Forall_cons_1 in Hstay as [Hx Hrest].
    change (ingest_all ((now, a, d) :: rest) s)
      with (ingest_all rest (ingest now a d s)).
    pose proof (ingest_sector_table now a d s) as Ht.
    specialize (IH (ingest now a d s)). cbn zeta in IH. rewrite Ht in IH.
    cbn [List.filter].
    destruct (observes (sector_table s) (_last_sector s) (now, a, d)) eqn:Eo.
    + (* an in-range sample of the sector *)
      pose proof (ingest_open_frame now a d s Eo) as (E1 & E2 & E3 & E4 & E5).
      rewrite E1, E2, E3, E4 in IH. specialize (IH Hrest).
      destruct IH as (I1 & I2 & I3 & I4 & I5 & I6 & I7 & I8).
      destruct (Qlt_le_dec d (_distance_m_last s)) as [Hlt|Hge];
        injection E5 as Ea Ed; rewrite Ea, Ed in *.
      * repeat split; auto.
        -- right. destruct I6 as [I6|I6]; [left; unfold reading; cbn; congruence|].
           right. exact I6.
        -- eapply Qle_trans; [exact I7 | apply Qlt_le_weak, Hlt].
        -- cbn. constructor; [exact I7 | exact I8].
      * repeat split; auto.
        -- destruct I6 as [I6|I6]; [left; exact I6 | right; right; exact I6].
        -- cbn. constructor; [eapply Qle_trans; [exact I7 | exact Hge] | exact I8].
    + (* a sample that neither counts nor leaves *)
      pose proof (ingest_stay now a d s Eo Hx) as (E1 & E2 & E3 & E4 & E5 & E6).
      rewrite E1, E2, E3, E4, E5, E6 in IH.
      exact (IH Hrest).
Qed.

(** X18. A dwell in one sector: the sample that opens the sector, then any
    samples that do not leave it (in-range samples of the sector, dead-zone
    samples, samples without a sector), then the first in-range sample of
    another sector.  After the dwell the retained candidate is the nearest
    in-range reading of the sector, with its own angle; the crossing sample
    commits exactly that reading to the sector, marks it valid, notifies the
    boundary once for it, and becomes the candidate of the new open sector.
    During the dwell only the sector open before it is committed. *)
Theorem sector_dwell_commit s sector first rest crossing :
  let table := sector_table s in
  _last_sector s <> sector ->
  observes table sector first = true ->
  Forall (fun x => leaves table sector x = false) rest ->
  leaves table sector crossing = true ->
  let observed := List.map reading (List.filter (observes table sector) (first :: rest)) in
  let s1 := ingest_all (first :: rest) s in
  let s2 := ingest_all [crossing] s1 in
  exists am dm,
    In (am, dm) observed /\ Forall (fun r => (dm <= r.2)%Q) observed
    /\ _last_sector s1 = sector
    /\ _angle_deg_last s1 = am /\ _distance_m_last s1 = dm
    /\ _angle s1 = <[Z.to_nat (_last_sector s) := _angle_deg_last s]> (_angle s)
    /\ _distance s1 = <[Z.to_nat (_last_sector s) := _distance_m_last s]> (_distance s)
    /\ _angle s2 = <[Z.to_nat sector := am]> (_angle s1)
    /\ _distance s2 = <[Z.to_nat sector := dm]> (_distance s1)
    /\ _distance_valid s2 = <[Z.to_nat sector := true]> (_distance_valid s1)
    /\ boundary_updated s2 = boundary_updated s ++ [_last_sector s; sector]
    /\ sample_sector table (reading crossing).1 = Some (_last_sector s2)
    /\ _last_sector s2 <> sector
    /\ (_angle_deg_last s2, _distance_m_last s2) = reading crossing.
Proof.
  destruct first as [[now0 a0] d0]. destruct crossing as [[now' a'] d'].
  cbn zeta. intros Hne Hfirst Hrest Hcross.
  change (ingest_all ((now0, a0, d0) :: rest) s)
    with (ingest_all rest (ingest now0 a0 d0 s)).
  change (ingest_all [(now', a', d')] ?t) with (ingest now' a' d' t).
  pose proof (ingest_enter now0 a0 d0 s sector Hne Hfirst) as E0.
  pose proof (ingest_sector_table now0 a0 d0 s) as Ht0.
  assert (_last_sector (ingest now0 a0 d0 s) = sector) as F1
    by (rewrite E0; reflexivity).
  assert (_angle (ingest now0 a0 d0 s)
          = <[Z.to_nat (_last_sector s) := _angle_deg_last s]> (_angle s)) as F2
    by (rewrite E0; reflexivity).
  assert (_distance (ingest now0 a0 d0 s)
          = <[Z.to_nat (_last_sector s) := _distance_m_last s]> (_distance s)) as F3
    by (rewrite E0; reflexivity).
  assert (boundary_updated (ingest now0 a0 d0 s)
          = boundary_updated s ++ [_last_sector s]) as F4
    by (rewrite E0; reflexivity).
  assert (_angle_deg_last (ingest now0 a0 d0 s) = a0) as F5
    by (rewrite E0; reflexivity).
  assert (_distance_m_last (ingest now0 a0 d0 s) = d0) as F6
    by (rewrite E0; reflexivity).
  pose proof (dwell_open rest (ingest now0 a0 d0 s)) as Hd. cbn zeta in Hd.
  rewrite Ht0, F1, F2, F3, F4, F5, F6 in Hd.
  specialize (Hd Hrest).
  destruct Hd as (D1 & D2 & D3 & D4 & D5 & D6 & D7 & D8).
  set (s1 := ingest_all rest (ingest now0 a0 d0 s)) in *.
  cbn [List.filter]. rewrite Hfirst. cbn [List.map].
  (* the crossing sample *)
  assert (exists k, sample_sector (sector_table s) a' = Some k /\ k <> sector
                    /\ observes (sector_table s1) k (now', a', d') = true)
    as (k & Hk & Hkne & Hobs).
  { unfold leaves in Hcross. unfold observes. rewrite D2.
    destruct (Qlt_le_dec distance_min d'); [|discriminate].
    destruct (sample_sector (sector_table s) a') as [k|]; [|discriminate].
    exists k. repeat split; [|apply Z.eqb_refl].
    intros ->. rewrite Z.eqb_refl in Hcross. discriminate. }
  assert (_last_sector s1 <> k) as Hne1 by (rewrite D1; congruence).
  pose proof (ingest_enter now' a' d' s1 k Hne1 Hobs) as E2.
  exists (_angle_deg_last s1), (_distance_m_last s1).
  rewrite E2. cbn. rewrite D1, D3, D4, D5.
  split.
  { destruct D6 as [D6|D6]; [left; unfold reading; cbn; congruence | right; exact D6]. }
  split.
  { constructor; [exact D7 | exact D8]. }
  repeat split; auto.
  rewrite <- app_assoc. reflexivity.
Qed.

End Aggregator.

(** ** Sector partitioner *)

Lemma to_int16_small (z : Z) : -32768 <= z < 32768 -> to_int16 z = z.
Proof. intros H. unfold to_int16. rewrite Z.mod_small by lia. lia. Qed.

Lemma Qtrunc_half (d : Z) : 0 <= d -> Qtrunc (inject_Z d / 2) = d / 2.
Proof.
  intros H. change 2%Q with (inject_Z 2). rewrite Qtrunc_div by lia.
  apply Z.quot_div_nonneg; lia.
Qed.

(** The size rule gives a sector of 1 to 45 degrees that fits the arc. *)
Lemma sector_size_for_bounds (d : Z) :
  0 < d <= 32767 ->
  0 < sector_size_for d <= 45 /\ sector_size_for d <= d.
Proof.
  intros H. unfold sector_size_for, wrap16.
  destruct (90 <=? d) eqn:E90; [apply Z.leb_le in E90; lia|].
  apply Z.leb_gt in E90.
  destruct (45 <? d) eqn:E45.
  - apply Z.ltb_lt in E45. rewrite Qtrunc_half by lia.
    pose proof (Z.div_mod d 2 ltac:(lia)). pose proof (Z.mod_pos_bound d 2 ltac:(lia)).
    rewrite Z.mod_small by lia. lia.
  - apply Z.ltb_ge in E45. rewrite Z.mod_small by lia. lia.
Qed.

Section Partitioner.
Context {backend : AP_Proximity_Backend}.

(** The bound on the iterations of [divide_area] is never what stops the
    loop: with at least [degrees_to_fill] iterations allowed, allowing more
    changes nothing. *)
Lemma divide_area_exits n : forall sector start_angle degrees_to_fill s m,
  degrees_to_fill <= 32767 -> degrees_to_fill <= Z.of_nat n ->
  divide_area (n + m) sector start_angle degrees_to_fill s
  = divide_area n sector start_angle degrees_to_fill s.
Proof.
  induction n as [|n IH]; intros sector start_angle d s m Hd Hn.
  - destruct m as [|m]; cbn; [reflexivity|].
    replace (0 <? d) with false by (symmetry; apply Z.ltb_ge; lia). reflexivity.
  - cbn. destruct (0 <? d) eqn:E0; cbn; [|reflexivity].
    destruct (sector <? PROXIMITY_SECTORS_MAX); [|reflexivity].
    apply Z.ltb_lt in E0.
    pose proof (sector_size_for_bounds d ltac:(lia)) as [Hs1 Hs2].
    apply IH; rewrite to_int16_small by lia; lia.
Qed.

Lemma divide_area_iter n sector start_angle d s size d' :
  0 < d -> sector < PROXIMITY_SECTORS_MAX ->
  sector_size_for d = size -> to_int16 (d - size) = d' ->
  divide_area (S n) sector start_angle d s =
  divide_area n (wrap8 (sector + 1)) (to_int16 (start_angle + size)) d'
    (s |> set_sector_middle_deg
            (<[Z.to_nat sector := wrap_360 (inject_Z start_angle + inject_Z size / 2)]>
               (_sector_middle_deg s))
       |> set_sector_width_deg
            (<[Z.to_nat sector := size]> (_sector_width_deg s))).
Proof.
  intros Hd Hs <- <-. cbn [divide_area].
  apply Z.ltb_lt in Hd, Hs. rewrite Hd, Hs. reflexivity.
Qed.

Lemma divide_area_done n sector start_angle s :
  divide_area n sector start_angle 0 s = (sector, s).
Proof. destruct n; reflexivity. Qed.
End Partitioner.

(** The size rule in the words of the partitioner: 45 degrees while at
    least 90 remain, half of what remains between 45 and 90, all of it at
    45 or less. *)
Lemma sector_size_for_rule (d : Z) :
  0 <= d <= 32767 ->
  (90 <= d -> sector_size_for d = 45)
  /\ (45 < d < 90 -> sector_size_for d = d / 2)
  /\ (d <= 45 -> sector_size_for d = d).
Proof.
  intros H. unfold sector_size_for, wrap16. repeat split; intros Hd.
  - replace (90 <=? d) with true by (symmetry; apply Z.leb_le; lia). reflexivity.
  - replace (90 <=? d) with false by (symmetry; apply Z.leb_gt; lia).
    replace (45 <? d) with true by (symmetry; apply Z.ltb_lt; lia).
    rewrite Qtrunc_half by lia.
    pose proof (Z.div_mod d 2 ltac:(lia)). pose proof (Z.mod_pos_bound d 2 ltac:(lia)).
    apply Z.mod_small. lia.
  - replace (90 <=? d) with false by (symmetry; apply Z.leb_gt; lia).
    replace (45 <? d) with false by (symmetry; apply Z.ltb_ge; lia).
    apply Z.mod_small. lia.
Qed.

(** *** One blind spot of 30 degrees *)

Lemma ignore_edge_end (A : Z) : ignore_edge 1 (A, 30) = (A + 15) mod 360.
Proof.
  unfold ignore_edge. cbn [Z.eqb].
  assert (inject_Z A + inject_Z 30 / 2 == inject_Z (A + 15))%Q as E.
  { rewrite inject_Z_plus. apply Qplus_comp; reflexivity. }
  rewrite (Qtrunc_comp _ _ (wrap_360_comp _ _ E)).
  rewrite (Qtrunc_comp _ _ (wrap_360_inject_Z _)). apply Qtrunc_inject_Z.
Qed.

Lemma ignore_edge_start (A : Z) : ignore_edge 0 (A, 30) = (A - 15) mod 360.
Proof.
  unfold ignore_edge. change (0 =? 0) with true. cbn iota. change (- (30)) with (-30).
  assert (inject_Z A + inject_Z (-30) / 2 == inject_Z (A - 15))%Q as E.
  { unfold Z.sub. rewrite inject_Z_plus. apply Qplus_comp; reflexivity. }
  rewrite (Qtrunc_comp _ _ (wrap_360_comp _ _ E)).
  rewrite (Qtrunc_comp _ _ (wrap_360_inject_Z _)). apply Qtrunc_inject_Z.
Qed.

Lemma open_arc_330 (A : Z) :
  to_int16 (Qtrunc (wrap_360 (inject_Z ((A - 15) mod 360 - (A + 15) mod 360)))) = 330.
Proof.
  rewrite (Qtrunc_comp _ _ (wrap_360_inject_Z _)), Qtrunc_inject_Z.
  rewrite <- Zminus_mod.
  replace (A - 15 - (A + 15)) with (-30) by lia. reflexivity.
Qed.


#[local] Opaque wrap_360 Qtrunc to_int16 ignore_edge.

Lemma init_sectors_single_30 (max A : Z) s :
  0 <= A < 360 -> 8 <= max ->
  let start := (A + 15) mod 360 in
  let s' := @init_sectors (configured max [(A, 30)]) s in
  _num_sectors s' = 8 /\ _sector_initialised s' = true
  /\ _sector_width_deg s' =
       <[7%nat := 30]> (<[6%nat := 30]> (<[5%nat := 45]> (<[4%nat := 45]>
       (<[3%nat := 45]> (<[2%nat := 45]> (<[1%nat := 45]> (<[0%nat := 45]>
          (_sector_width_deg s))))))))
  /\ _sector_middle_deg s' =
       <[7%nat := wrap_360 (inject_Z (start + 300) + inject_Z 30 / 2)]>
       (<[6%nat := wrap_360 (inject_Z (start + 270) + inject_Z 30 / 2)]>
       (<[5%nat := wrap_360 (inject_Z (start + 225) + inject_Z 45 / 2)]>
       (<[4%nat := wrap_360 (inject_Z (start + 180) + inject_Z 45 / 2)]>
       (<[3%nat := wrap_360 (inject_Z (start + 135) + inject_Z 45 / 2)]>
       (<[2%nat := wrap_360 (inject_Z (start + 90) + inject_Z 45 / 2)]>
       (<[1%nat := wrap_360 (inject_Z (start + 45) + inject_Z 45 / 2)]>
       (<[0%nat := wrap_360 (inject_Z (start + 0) + inject_Z 45 / 2)]>
          (_sector_middle_deg s)))))))).
Proof.
  intros HA Hmax start. unfold init_sectors.
  change (@get_ignore_area_count (configured max [(A, 30)])) with 1.
  change (1 =? 0) with false. cbn iota. change (seqZ 0 1) with [0].
  cbn [foldl]. unfold ignore_area_step.
  change (@get_ignore_area (configured max [(A, 30)]) 0) with (Some (A, 30)).
  cbn iota.
  change (@get_next_ignore_start_or_end (configured max [(A, 30)]) 1 A)
    with (Some (ignore_edge 1 (A, 30))).
  cbn [from_option id].
  change (@get_next_ignore_start_or_end (configured max [(A, 30)]) 0 (ignore_edge 1 (A, 30)))
    with (Some (ignore_edge 0 (A, 30))).
  cbn [from_option id].
  rewrite ignore_edge_end, ignore_edge_start, open_arc_330.
  fold start.
  assert (0 <= start < 360) as Hst by (apply Z.mod_pos_bound; lia).
  change (Z.to_nat 330) with (8 + 322)%nat. cbn [Nat.add].
  assert (forall k, k < 8 -> k < @PROXIMITY_SECTORS_MAX (configured max [(A, 30)])) as Hk
    by (intros k Hk; cbn; lia).
  rewrite (divide_area_iter _ 0 _ 330 _ 45 285)
    by first [reflexivity | lia | apply Hk; lia].
  rewrite (divide_area_iter _ 1 _ 285 _ 45 240)
    by first [reflexivity | lia | apply Hk; lia].
  rewrite (divide_area_iter _ 2 _ 240 _ 45 195)
    by first [reflexivity | lia | apply Hk; lia].
  rewrite (divide_area_iter _ 3 _ 195 _ 45 150)
    by first [reflexivity | lia | apply Hk; lia].
  rewrite (divide_area_iter _ 4 _ 150 _ 45 105)
    by first [reflexivity | lia | apply Hk; lia].
  rewrite (divide_area_iter _ 5 _ 105 _ 45 60)
    by first [reflexivity | lia | apply Hk; lia].
  rewrite (divide_area_iter _ 6 _ 60 _ 30 30)
    by first [vm_compute; reflexivity | lia | apply Hk; lia].
  rewrite (divide_area_iter _ 7 _ 30 _ 30 0)
    by first [vm_compute; reflexivity | lia | apply Hk; lia].
  rewrite divide_area_done.
  repeat (rewrite to_int16_small by lia).
  cbn.
  replace (start + 45 + 45 + 45 + 45 + 45 + 45 + 30) with (start + 300) by lia.
  replace (start + 45 + 45 + 45 + 45 + 45 + 45) with (start + 270) by lia.
  replace (start + 45 + 45 + 45 + 45 + 45) with (start + 225) by lia.
  replace (start + 45 + 45 + 45 + 45) with (start + 180) by lia.
  replace (start + 45 + 45 + 45) with (start + 135) by lia.
  replace (start + 45 + 45) with (start + 90) by lia.
  replace (inject_Z start) with (inject_Z (start + 0)) by (f_equal; lia).
  repeat split; reflexivity.
Qed.


(** C4. One blind spot of 30 degrees centred at [A], with room for at least
    eight sectors.  [init_sectors] makes eight sectors of widths 45, 45, 45,
    45, 45, 45, 30, 30.  Each width is at most 45 and is what the size rule
    gives for the arc still to fill (330 minus the widths before it).  The
    sectors are contiguous: sector [k] starts at the end of the blind spot
    plus the widths of the sectors before it, and its recorded middle is
    that start plus half its width, wrapped.  The widths add up to 330, so
    the last sector ends where the blind spot starts: the open arc is
    covered without a gap. *)
Theorem single_blind_spot_partition (max A : Z) s :
  0 <= A < 360 -> 8 <= max ->
  length (_sector_middle_deg s) = Z.to_nat max ->
  length (_sector_width_deg s) = Z.to_nat max ->
  let s' := @init_sectors (configured max [(A, 30)]) s in
  let widths := [45; 45; 45; 45; 45; 45; 30; 30] in
  let arc_start := (A + 15) mod 360 in
  _num_sectors s' = Z.of_nat (length widths)
  /\ (forall k w, widths !! k = Some w ->
        _sector_width_deg s' !! k = Some w
        /\ w <= 45
        /\ w = sector_size_for (330 - arc_before widths k)
        /\ _sector_middle_deg s' !! k =
             Some (wrap_360 (inject_Z (arc_start + arc_before widths k) + inject_Z w / 2)))
  /\ arc_before widths (length widths) = 330
  /\ (arc_start + 330) mod 360 = (A - 15) mod 360
  /\ (forall d, 0 <= d <= 32767 ->
        (90 <= d -> sector_size_for d = 45)
        /\ (45 < d < 90 -> sector_size_for d = d / 2)
        /\ (d <= 45 -> sector_size_for d = d)).
Proof.
  intros HA Hmax Hlm Hlw. cbn zeta.
  pose proof (init_sectors_single_30 max A s HA Hmax) as (E1 & _ & E3 & E4).
  cbn zeta in E3, E4. rewrite E1, E3, E4. clear E1 E3 E4.
  split; [reflexivity|]. split.
  - intros k w Hk.
    assert (8 <= length (_sector_middle_deg s))%nat by lia.
    assert (8 <= length (_sector_width_deg s))%nat by lia.
    do 8 (destruct k as [|k];
      [injection Hk as <-;
       split; [|split; [lia|split; [vm_compute; reflexivity|]]];
       repeat (rewrite list_lookup_insert_ne by lia);
       (rewrite list_lookup_insert_eq by (rewrite ?length_insert; lia));
       reflexivity |]).
    discriminate.
  - split; [reflexivity|]. split; [|exact sector_size_for_rule].
    rewrite Zplus_mod_idemp_l.
    replace (A + 15 + 330) with (A - 15 + 1 * 360) by lia.
    apply Z_mod_plus_full.
Qed.

#[local] Transparent wrap_360 Qtrunc to_int16 ignore_edge.

(** ** Measurement decoder *)

Lemma lor_lt_pow2 (a b n : Z) :
  0 <= n -> 0 <= a < 2 ^ n -> 0 <= b < 2 ^ n -> 0 <= Z.lor a b < 2 ^ n.
Proof.
  intros Hn Ha Hb. split; [apply Z.lor_nonneg; lia|].
  destruct (Z.eq_dec (Z.lor a b) 0) as [E|E]; [rewrite E; lia|].
  assert (0 < Z.lor a b) by (pose proof (proj2 (Z.lor_nonneg a b)); lia).
  apply Z.log2_lt_pow2; [assumption|].
  rewrite Z.log2_lor by lia.
  destruct (Z.eq_dec a 0) as [->|Ea], (Z.eq_dec b 0) as [->|Eb].
  - cbn in E. contradiction.
  - rewrite Z.max_r by (cbn; apply Z.log2_nonneg). apply Z.log2_lt_pow2; lia.
  - rewrite Z.max_l by (cbn; apply Z.log2_nonneg). apply Z.log2_lt_pow2; lia.
  - apply Z.max_lub_lt; apply Z.log2_lt_pow2; lia.
Qed.

Lemma byte_at_range (p : list Z) (i : nat) :
  Forall (fun b => 0 <= b < 256) p -> 0 <= byte_at p i < 256.
Proof.
  unfold byte_at. intros H. revert i.
  induction H as [|b p Hb _ IH]; intros [|i]; cbn; try lia. apply IH.
Qed.

Lemma angle_q6_range (p : list Z) :
  Forall (fun b => 0 <= b < 256) p -> 0 <= angle_q6 p < 2 ^ 15.
Proof.
  intros H. unfold angle_q6.
  pose proof (byte_at_range p 1 H). pose proof (byte_at_range p 2 H).
  apply lor_lt_pow2; [lia | |].
  - rewrite Z.shiftr_div_pow2 by lia. change (2 ^ 1) with 2.
    pose proof (Z.div_pos (byte_at p 1) 2). 
    pose proof (Z.div_lt_upper_bound (byte_at p 1) 2 128). lia.
  - rewrite Z.shiftl_mul_pow2 by lia. lia.
Qed.

Lemma distance_q2_range (p : list Z) :
  Forall (fun b => 0 <= b < 256) p -> 0 <= distance_q2 p < 2 ^ 16.
Proof.
  intros H. unfold distance_q2.
  pose proof (byte_at_range p 3 H). pose proof (byte_at_range p 4 H).
  apply lor_lt_pow2; [lia | lia |].
  rewrite Z.shiftl_mul_pow2 by lia. lia.
Qed.

Lemma all_from_spec n : forall i f,
  all_from n i f = true -> forall k, i <= k < i + Z.of_nat n -> f k = true.
Proof.
  induction n as [|n IH]; intros i f H k Hk; [lia|].
  cbn [all_from] in H. apply andb_prop in H as [H0 H1].
  destruct (Z.eq_dec k i) as [->|Hne]; [exact H0|].
  apply (IH (i + 1) f H1). lia.
Qed.

(** Every 15-bit angle field and every 16-bit distance field, by
    evaluation. *)
Lemma angle_quotients_exact :
  all_from (Z.to_nat 32768) 0 angle_quotient_exact = true.
Proof. vm_compute. reflexivity. Qed.

Lemma distance_quotients_rounded :
  all_from (Z.to_nat 65536) 0 distance_quotient_rounded = true.
Proof. vm_compute. reflexivity. Qed.

(** The literal [0.20f]. *)
Lemma distance_min_literal : distance_min = binary32 (20 # 100).
Proof. vm_compute. reflexivity. Qed.

Lemma angle_deg_exact (p : list Z) :
  Forall (fun b => 0 <= b < 256) p ->
  (angle_deg p == inject_Z (angle_q6 p) / 64)%Q.
Proof.
  intros Hb. pose proof (angle_q6_range p Hb) as Hr.
  apply Qeq_bool_iff.
  apply (all_from_spec _ _ _ angle_quotients_exact (angle_q6 p)).
  change (2 ^ 15) with 32768 in Hr. lia.
Qed.

Lemma distance_m_rounded (p : list Z) :
  Forall (fun b => 0 <= b < 256) p ->
  (Qabs (distance_m p - inject_Z (distance_q2 p) / 4000) * 2 ^ 24
     <= inject_Z (distance_q2 p) / 4000)%Q
  /\ (Qabs (distance_m p - inject_Z (distance_q2 p) / 4000) <= 1 # 1000000)%Q
  /\ ((distance_min < distance_m p)%Q <-> 800 < distance_q2 p).
Proof.
  intros Hb. pose proof (distance_q2_range p Hb) as Hr.
  change (2 ^ 16) with 65536 in Hr.
  pose proof (all_from_spec _ _ _ distance_quotients_rounded (distance_q2 p)
                ltac:(lia)) as H.
  unfold distance_quotient_rounded in H. cbn zeta in H.
  apply andb_prop in H as [H H3]. apply andb_prop in H as [H1 H2].
  apply Qle_bool_iff in H1, H2. apply Bool.eqb_prop in H3.
  fold (distance_m p) in H1, H2, H3.
  split; [exact H1|]. split; [exact H2|].
  destruct (Qlt_le_dec distance_min (distance_m p)) as [Hlt|Hge].
  - symmetry in H3. apply Z.ltb_lt in H3. tauto.
  - symmetry in H3. apply Z.ltb_ge in H3. split; [intros Hlt|lia].
    exfalso. exact (Qlt_not_le _ _ Hlt Hge).
Qed.

Section Decoder.
Context {backend : AP_Proximity_Backend}.

(** C2. A scan payload accepted as valid decodes to the angle field divided
    by 64 and the distance field divided by 4000, in binary32 as the code
    computes them, and these are the values [parse_response_data] hands to
    the aggregator.  The angle quotient is exact.  The distance quotient is
    the exact quotient rounded to binary32: it differs from it by at most
    half a unit in the last place, and by less than a micrometre, and it is
    beyond [distance_min()] exactly when the field is beyond 800.  An angle
    field of 640 and a distance field of 8000 decode to exactly 10 degrees
    and 2 metres. *)
Theorem scan_payload_decoding (p : list Z) :
  scan_valid p = true ->
  Forall (fun b => 0 <= b < 256) p ->
  0 <= angle_q6 p < 2 ^ 15 /\ 0 <= distance_q2 p < 2 ^ 16
  /\ (angle_deg p == inject_Z (angle_q6 p) / 64)%Q
  /\ distance_m p = binary32 (inject_Z (distance_q2 p) / 4000)
  /\ (Qabs (distance_m p - inject_Z (distance_q2 p) / 4000) * 2 ^ 24
        <= inject_Z (distance_q2 p) / 4000)%Q
  /\ (Qabs (distance_m p - inject_Z (distance_q2 p) / 4000) <= 1 # 1000000)%Q
  /\ ((distance_min < distance_m p)%Q <-> 800 < distance_q2 p)
  /\ (forall now s, _response_type s = ResponseType_SCAN -> payload s = p ->
        parse_response_data now s = ingest now (angle_deg p) (distance_m p) s)
  /\ (angle_q6 p = 640 -> distance_q2 p = 8000 ->
        (angle_deg p == 10)%Q /\ (distance_m p == 2)%Q
        /\ (Qabs (angle_deg p - 10) <= 1 # 1000)%Q
        /\ (Qabs (distance_m p - 2) <= 1 # 1000)%Q).
Proof.
  intros Hv Hb.
  pose proof (distance_m_rounded p Hb) as (D1 & D2 & D3).
  split; [apply angle_q6_range, Hb|]. split; [apply distance_q2_range, Hb|].
  split; [apply angle_deg_exact, Hb|].
  split; [reflexivity|].
  split; [exact D1|]. split; [exact D2|]. split; [exact D3|].
  split.
  - intros now s Ht <-. unfold parse_response_data. rewrite Ht, Hv. reflexivity.
  - intros Ha Hd. unfold angle_deg, distance_m. rewrite Ha, Hd.
    repeat split; vm_compute; congruence.
Qed.

End Decoder.

(** * Further properties of the driver *)

(** ** What the sector code leaves alone *)

Lemma decoder_fields_eq (s t : State) :
  decoder_fields s = decoder_fields t ->
  _rp_state s = _rp_state t /\ _response_type s = _response_type t
  /\ _payload_length s = _payload_length t /\ _byte_count s = _byte_count t
  /\ _cnt s = _cnt t /\ _information_data s = _information_data t
  /\ _descriptor_data s = _descriptor_data t /\ _initialised s = _initialised t
  /\ _uart s = _uart t /\ uart_written s = uart_written t
  /\ payload s = payload t /\ _descriptor s = _descriptor t
  /\ _rp_systeminfo s = _rp_systeminfo t.
Proof.
  unfold decoder_fields. intros H. injection H as -> -> -> -> -> -> -> -> -> -> -> -> ->.
  repeat split; reflexivity.
Qed.

Section DecoderFrame.
Context {backend : AP_Proximity_Backend}.

Lemma ingest_decoder_fields now a d s :
  decoder_fields (ingest now a d s) = decoder_fields s.
Proof.
  unfold decoder_fields, ingest; cbn. repeat (case_match; cbn); reflexivity.
Qed.

Lemma parse_response_data_decoder_fields now s :
  decoder_fields (parse_response_data now s) = decoder_fields s.
Proof.
  unfold parse_response_data.
  destruct (_response_type s); try reflexivity.
  destruct (scan_valid (payload s)); [apply ingest_decoder_fields | reflexivity].
Qed.

Lemma divide_area_decoder_fields n : forall sector start_angle degrees_to_fill s,
  decoder_fields (divide_area n sector start_angle degrees_to_fill s).2 = decoder_fields s.
Proof.
  induction n as [|n IH]; intros sector start_angle d s; cbn; [reflexivity|].
  destruct ((0 <? d) && (sector <? PROXIMITY_SECTORS_MAX)); [|reflexivity].
  rewrite IH. reflexivity.
Qed.

Lemma init_sectors_decoder_fields s :
  decoder_fields (init_sectors s) = decoder_fields s.
Proof.
  unfold init_sectors. destruct (get_ignore_area_count =? 0); [reflexivity|].
  assert (forall l acc,
    decoder_fields (foldl ignore_area_step acc l).2 = decoder_fields acc.2) as Hfold.
  { induction l as [|i l IH]; intros acc; cbn; [reflexivity|].
    rewrite IH. unfold ignore_area_step. destruct acc as [sector t]; cbn.
    destruct (get_ignore_area i) as [[angle width]|]; [|reflexivity].
    apply divide_area_decoder_fields. }
  specialize (Hfold (seqZ 0 get_ignore_area_count) (0, s)).
  destruct (foldl ignore_area_step (0, s) (seqZ 0 get_ignore_area_count)) as [sector s1].
  cbn in Hfold. rewrite <- Hfold. reflexivity.
Qed.

End DecoderFrame.

(** ** Buffer indices and counters stay in range *)

Section Bounds.
Context {backend : AP_Proximity_Backend}.

Local Ltac fields H :=
  apply decoder_fields_eq in H;
  destruct H as (Fst & Frt & Fpl & Fbc & Fcnt & Finfo & Fdd & Fini & Fuart & Fw & Fp
                 & Fd & Fsys).

Local Ltac arith :=
  unfold wrap8, wrap16 in *;
  repeat match goal with
         | |- context [(?a + 1) mod ?m] => rewrite (Z.mod_small (a + 1) m) by lia
         | H : context [(?a + 1) mod ?m] |- _ =>
           rewrite (Z.mod_small (a + 1) m) in H by lia
         end;
  repeat match goal with
         | H : (_ =? _) = true |- _ => apply Z.eqb_eq in H
         | H : (_ =? _) = false |- _ => apply Z.eqb_neq in H
         | H : (_ <? _) = true |- _ => apply Z.ltb_lt in H
         | H : (_ <? _) = false |- _ => apply Z.ltb_ge in H
         end.

Local Ltac fin := arith; repeat split; auto; try lia; try discriminate.

Lemma bounds_initialised s :
  decoder_bounds s -> _rp_state s <> rp_unknown -> _initialised s = true.
Proof.
  intros (_ & Hi & _) Hne. destruct (_initialised s); [reflexivity|].
  specialize (Hi eq_refl). contradiction.
Qed.

Lemma read_payload_bounds now c s :
  decoder_bounds s -> _initialised s = true -> _rp_state s = rp_measurements ->
  decoder_bounds (read_payload now c s) /\ _initialised (read_payload now c s) = true.
Proof.
  intros (Hc & Hi & Hb) Hini Hm. rewrite Hm in Hb. destruct Hb as (Hbc & Hpl & Ht & Hinfo).
  unfold read_payload; cbn.
  destruct (wrap16 (_byte_count s + 1) =? _payload_length s) eqn:E.
  - match goal with |- context [parse_response_data now ?t] =>
      pose proof (parse_response_data_decoder_fields now t) as F end.
    fields F. cbn in Fst, Frt, Fpl, Fbc, Fcnt, Finfo, Fdd, Fini.
    unfold decoder_bounds; cbn. rewrite Fst, Frt, Fpl, Fcnt, Finfo, Fini, Hm, Hini.
    clear Fst Frt Fpl Fbc Fcnt Finfo Fdd Fini Fuart Fw Fp Fd Fsys.
    fin.
  - unfold decoder_bounds; cbn. rewrite Hm, Hini. arith. fin.
Qed.

Lemma case_rp_responding_bounds now c s :
  decoder_bounds s -> _initialised s = true -> _rp_state s = rp_responding ->
  decoder_bounds (case_rp_responding now c s)
  /\ _initialised (case_rp_responding now c s) = true.
Proof.
  intros (Hc & Hi & Hb) Hini Hm. rewrite Hm in Hb. destruct Hb as (Hbc & Hdd & Hinfo).
  unfold case_rp_responding.
  destruct ((c =? RPLIDAR_PREAMBLE) || _descriptor_data s) eqn:Ec; cbn.
  - destruct (wrap16 (_byte_count s + 1) =? 7) eqn:E7; cbn.
    + unfold parse_response_descriptor, decoder_bounds; cbn.
      repeat (case_match; cbn); rewrite ?Hini; fin.
    + unfold decoder_bounds; cbn. rewrite Hm, Hini. arith. fin.
  - apply orb_false_elim in Ec as [_ Ed]. specialize (Hdd Ed).
    unfold decoder_bounds; cbn. rewrite Hini. fin.
Qed.

Lemma process_byte_bounds now s c :
  decoder_inv s -> decoder_bounds s -> _initialised s = true ->
  decoder_bounds (process_byte now s c) /\ _initialised (process_byte now s c) = true.
Proof.
  intros (_ & _ & I3) Hb Hini. pose proof Hb as (Hc & Hi & Hst).
  unfold process_byte. destruct (_rp_state s) eqn:Es.
  - (* rp_unknown *)
    destruct Hst as (Hbc & Hinfo). unfold case_rp_unknown.
    destruct (c =? RPLIDAR_PREAMBLE) eqn:Ec.
    + apply case_rp_responding_bounds; [|exact Hini|reflexivity].
      unfold decoder_bounds; cbn. rewrite Hini. fin.
    + cbn. destruct (10 <? wrap8 (_cnt s + 1)) eqn:E10; unfold decoder_bounds, reset_rplidar;
        cbn; [destruct (_uart s); cbn|rewrite Es]; rewrite Hini; arith; fin.
  - (* rp_resetted *)
    destruct Hst as (Hbc & Hinfo).
    unfold case_rp_resetted, decoder_bounds, set_scan_mode.
    destruct (((c =? 0x52) || _information_data s) && (_byte_count s <? 62)) eqn:E1.
    + apply andb_prop in E1 as [E1 E2].
      destruct (c =? 82) eqn:Ec; cbn; rewrite ?Es, ?Hini; cbn in E1; fin.
      intros Hf. rewrite Hf in E1. discriminate.
    + destruct (_information_data s) eqn:Einfo; cbn.
      * destruct (_uart s); cbn; rewrite ?Es, ?Hini; fin.
      * destruct (5 <? _cnt s) eqn:E5; cbn; rewrite ?Es, ?Hini; arith; fin.
  - (* rp_responding *)
    apply case_rp_responding_bounds; assumption.
  - (* rp_measurements *)
    unfold case_rp_measurements.
    destruct (_sync_error s =? 0) eqn:E0; cbn.
    + apply read_payload_bounds; assumption.
    + destruct (Z.land c 3 =? 1).
      * apply (read_payload_bounds now c (set_sync_error 0 s)); [|exact Hini|exact Es].
        unfold decoder_bounds in *; cbn. rewrite Es in *. exact Hb.
      * destruct (RESYNC_TIMEOUT <? _); [|split; assumption].
        apply Z.eqb_neq in E0. specialize (I3 eq_refl E0).
        destruct Hst as (Hbc & Hpl & Ht & Hinfo).
        unfold reset_rplidar, decoder_bounds.
        destruct (_uart s); cbn; rewrite ?Es, ?Hini; fin.
  - (* rp_health *)
    unfold case_rp_health. split; assumption.
Qed.

Lemma drain_bounds now bytes : forall s,
  decoder_inv s -> decoder_bounds s -> _initialised s = true ->
  decoder_inv (foldl (process_byte now) s bytes)
  /\ decoder_bounds (foldl (process_byte now) s bytes)
  /\ _initialised (foldl (process_byte now) s bytes) = true.
Proof.
  induction bytes as [|c bytes IH]; cbn; intros s Hinv Hb Hini; [auto|].
  destruct (process_byte_bounds now s c Hinv Hb Hini) as [Hb' Hini'].
  apply IH; [apply process_byte_inv, Hinv | exact Hb' | exact Hini'].
Qed.

Lemma get_readings_bounds now bytes s :
  decoder_inv s -> decoder_bounds s -> _initialised s = true ->
  decoder_bounds (get_readings now bytes s).
Proof.
  intros Hinv Hb Hini. unfold get_readings. destruct (_uart s); cbn; [|exact Hb].
  apply drain_bounds; assumption.
Qed.

Lemma update_initialise_bounds now s :
  decoder_bounds s -> decoder_bounds (update_initialise now s).
Proof.
  intros Hb. pose proof Hb as (Hc & Hi & Hst).
  unfold update_initialise, initialise.
  destruct (_initialised s) eqn:Eini; cbn; [exact Hb|].
  specialize (Hi eq_refl). rewrite Hi in Hst. destruct Hst as (Hbc & Hinfo).
  destruct (_sector_initialised s); cbn.
  - unfold reset_rplidar, decoder_bounds.
    destruct (_uart s); cbn; rewrite ?Hi;
      fin.
  - pose proof (init_sectors_decoder_fields s) as F. fields F.
    unfold decoder_bounds; cbn. rewrite Fst, Fbc, Fcnt, Finfo, Hi.
    repeat split; auto; lia.
Qed.

Lemma update_bounds now bytes s :
  decoder_inv s -> decoder_bounds s -> decoder_bounds (update now bytes s).
Proof.
  intros Hinv Hb. unfold update. destruct (_uart s); cbn; [|exact Hb].
  assert (decoder_bounds (if _initialised (update_initialise now s)
                          then get_readings now bytes (update_initialise now s)
                          else update_initialise now s)) as H.
  { destruct (_initialised _) eqn:Eini; [|apply update_initialise_bounds, Hb].
    apply get_readings_bounds;
      [apply update_initialise_inv, Hinv | apply update_initialise_bounds, Hb | exact Eini]. }
  destruct (_ || _); exact H.
Qed.

Lemma reachable_bounds s : reachable s -> decoder_bounds s.
Proof.
  induction 1 as [s Hc | now bytes s Hr IH].
  - destruct Hc as (Hcnt & _ & Hbc & Hst & _ & _ & Hinfo & _).
    unfold decoder_bounds. rewrite Hst, Hcnt. fin.
  - apply update_bounds; [apply reachable_inv, Hr | exact IH].
Qed.

End Bounds.

Section BoundsTheorems.
Context {backend : AP_Proximity_Backend}.

(** X1. In every reachable state the byte counter is a valid index of the
    buffer the current state fills (5 payload bytes, 7 descriptor bytes, 63
    bytes of device information, of which 62 are used) and the retry counter
    is between 0 and 10: no store of [get_readings] lands outside its array
    and no counter wraps. *)
Theorem byte_count_in_range s :
  reachable s ->
  0 <= _cnt s <= 10
  /\ match _rp_state s with
     | rp_measurements => 0 <= _byte_count s < 5
     | rp_responding => 0 <= _byte_count s < 7
     | rp_resetted => 0 <= _byte_count s <= 62
     | rp_unknown | rp_health => _byte_count s = 0
     end.
Proof.
  intros Hr. destruct (reachable_bounds s Hr) as (Hc & _ & Hst).
  split; [exact Hc|]. destruct (_rp_state s); intuition.
Qed.

(** X2. Whenever the decoder is in the measurement state the stream is a
    scan stream: the response type is SCAN and the payload length is 5.
    [parse_response_data] is called from that state only, so its health
    branch and its default branch are never taken. *)
Theorem measurements_are_scan s :
  reachable s -> _rp_state s = rp_measurements ->
  _response_type s = ResponseType_SCAN /\ _payload_length s = 5
  /\ forall now, parse_response_data now s =
       if scan_valid (payload s)
       then ingest now (angle_deg (payload s)) (distance_m (payload s)) s
       else set_sync_error (wrap8 (_sync_error s + 1)) s.
Proof.
  intros Hr Hm. destruct (reachable_bounds s Hr) as (_ & _ & Hst).
  rewrite Hm in Hst. destruct Hst as (_ & Hpl & Ht & _).
  repeat split; auto. intros now. unfold parse_response_data. rewrite Ht. reflexivity.
Qed.

End BoundsTheorems.

(** ** Commands sent to the device *)

Section Commands.
Context {backend : AP_Proximity_Backend}.

Lemma sends_known_refl s : sends_known s s.
Proof. exists []. rewrite app_nil_r. split; [reflexivity | constructor]. Qed.

Lemma sends_known_trans s t u : sends_known s t -> sends_known t u -> sends_known s u.
Proof.
  intros (e1 & E1 & F1) (e2 & E2 & F2). exists (e1 ++ e2).
  rewrite E2, E1, app_assoc. split; [reflexivity | apply Forall_app; split; assumption].
Qed.

Lemma sends_known_same s t : uart_written t = uart_written s -> sends_known s t.
Proof. intros E. exists []. rewrite app_nil_r. split; [exact E | constructor]. Qed.

Lemma sends_known_one s t f :
  f = reset_command \/ f = scan_command ->
  uart_written t = uart_written s ++ [f] -> sends_known s t.
Proof. intros Hf E. exists [f]. split; [exact E | constructor; [exact Hf | constructor]]. Qed.

Local Ltac sent :=
  first [ apply sends_known_same; reflexivity
        | eapply sends_known_one; [|reflexivity]; (left; reflexivity) || (right; reflexivity) ].

Lemma process_byte_sends now s c : sends_known s (process_byte now s c).
Proof.
  unfold process_byte. destruct (_rp_state s).
  - unfold case_rp_unknown, case_rp_responding, parse_response_descriptor, reset_rplidar.
    cbn. repeat (case_match; cbn); sent.
  - unfold case_rp_resetted, set_scan_mode. repeat (case_match; cbn); sent.
  - unfold case_rp_responding, parse_response_descriptor.
    repeat (case_match; cbn); sent.
  - unfold case_rp_measurements, read_payload, reset_rplidar. cbn.
    repeat (case_match; cbn); try sent;
      apply sends_known_same;
      match goal with |- context [parse_response_data now ?t] =>
        pose proof (parse_response_data_decoder_fields now t) as F end;
      apply decoder_fields_eq in F;
      destruct F as (_ & _ & _ & _ & _ & _ & _ & _ & _ & Fw & _); exact Fw.
  - apply sends_known_refl.
Qed.

Lemma drain_sends now bytes : forall s, sends_known s (foldl (process_byte now) s bytes).
Proof.
  induction bytes as [|c bytes IH]; intros s; cbn; [apply sends_known_refl|].
  eapply sends_known_trans; [apply process_byte_sends | apply IH].
Qed.

Lemma init_sectors_uart_written s : uart_written (init_sectors s) = uart_written s.
Proof.
  pose proof (init_sectors_decoder_fields s) as F. apply decoder_fields_eq in F.
  destruct F as (_ & _ & _ & _ & _ & _ & _ & _ & _ & Fw & _). exact Fw.
Qed.

(** What one [update] adds to the commands sent: nothing before
    initialisation is complete; the reset first in the call that completes
    it; reset and scan commands afterwards. *)
Lemma update_sends now bytes s :
  let s' := update now bytes s in
  (_initialised s = true -> sends_known s s')
  /\ (_initialised s = false ->
      (uart_written s' = uart_written s /\ _initialised s' = false)
      \/ (exists extra, uart_written s' = uart_written s ++ reset_command :: extra
            /\ Forall (fun f => f = reset_command \/ f = scan_command) extra)).
Proof.
  cbn zeta. unfold update. destruct (_uart s) eqn:Eu; cbn.
  2:{ split; [intros _; apply sends_known_refl | intros H; left; auto]. }
  unfold update_initialise, initialise.
  destruct (_initialised s) eqn:Eini; cbn; (split; intros Hini; [|discriminate])
    || (split; intros Hini; [discriminate|]).
  - rewrite Eini. unfold get_readings. rewrite Eu; cbn.
    destruct (drain_sends now bytes s) as (e & E & F).
    destruct (_ || _); exists e; split; assumption.
  - destruct (_sector_initialised s); cbn.
    + right. unfold get_readings, reset_rplidar. rewrite Eu; cbn. rewrite Eu; cbn.
      match goal with |- context [foldl (process_byte now) ?t bytes] =>
        destruct (drain_sends now bytes t) as (e & E & F) end.
      cbn in E. exists e. rewrite <- app_assoc in E. cbn in E.
      destruct (_ || _); cbn; split; assumption.
    + left. pose proof (init_sectors_decoder_fields s) as F.
      apply decoder_fields_eq in F.
      destruct F as (_ & _ & _ & _ & _ & _ & _ & Fini & _ & Fw & _).
      destruct (_ || _); cbn; auto.
Qed.

(** X3. Everything the driver ever writes to the UART is a reset command
    (A5 40) or a scan command (A5 20), and the first command is the reset
    sent when initialisation completes.  Stop, force-scan, express-scan,
    device-info and health requests are never sent. *)
Theorem only_reset_and_scan_sent s :
  reachable s ->
  Forall (fun f => f = reset_command \/ f = scan_command) (uart_written s)
  /\ ((uart_written s = [] /\ _initialised s = false)
      \/ exists rest, uart_written s = reset_command :: rest).
Proof.
  induction 1 as [s Hc | now bytes s Hr [IH1 IH2]].
  - destruct Hc as (_ & _ & _ & _ & _ & _ & _ & _ & Hini & _ & _ & _ & _ & _ & _ & _ & _
                    & _ & _ & _ & Hw & _).
    rewrite Hw. split; [constructor | left; auto].
  - destruct (update_sends now bytes s) as (Hon & Hoff).
    destruct (_initialised s) eqn:Eini.
    + destruct (Hon eq_refl) as (e & E & F). rewrite E. split.
      * apply Forall_app; split; assumption.
      * destruct IH2 as [[_ Hf] | (rest & Hrest)]; [discriminate|].
        right. exists (rest ++ e). rewrite Hrest. reflexivity.
    + destruct (Hoff eq_refl) as [[E Hf] | (e & E & F)].
      * rewrite E. split; [exact IH1|].
        destruct IH2 as [[Hnil _] | (rest & Hrest)]; [left; auto | right; eauto].
      * rewrite E. split.
        -- apply Forall_app; split; [exact IH1|]. constructor; [left; reflexivity | exact F].
        -- right. destruct IH2 as [[Hnil _] | (rest & Hrest)].
           ++ rewrite Hnil. eauto.
           ++ rewrite Hrest. eauto.
Qed.

End Commands.

(** ** Byte sequences through the frame decoder *)

Section Sequences.
Context {backend : AP_Proximity_Backend}.

Local Ltac seven_bytes :=
  match goal with
  | H : length ?d = 7%nat |- _ =>
    destruct d as [|? [|? [|? [|? [|? [|? [|? [|? ?]]]]]]]]; try discriminate H
  end.

(** The first descriptor byte: the preamble. *)
Lemma descriptor_first now s :
  _rp_state s = rp_responding \/ _rp_state s = rp_unknown -> _byte_count s = 0 ->
  process_byte now s RPLIDAR_PREAMBLE =
    (s |> set_rp_state rp_responding
       |> set_descriptor_data true
       |> set_descriptor (<[0%nat := RPLIDAR_PREAMBLE]> (_descriptor s))
       |> set_byte_count 1).
Proof.
  intros Hs Hbc. destruct s; cbn in Hs, Hbc. subst.
  destruct Hs as [-> | ->]; reflexivity.
Qed.

(** A descriptor byte that is not the last. *)
Lemma descriptor_store now s c (n : nat) :
  _rp_state s = rp_responding -> _descriptor_data s = true ->
  _byte_count s = Z.of_nat n -> (n < 6)%nat ->
  process_byte now s c =
    (s |> set_descriptor (<[n := c]> (_descriptor s))
       |> set_byte_count (Z.of_nat (S n))).
Proof.
  intros Hs Hdd Hbc Hn. unfold process_byte. rewrite Hs. unfold case_rp_responding.
  rewrite Hdd, orb_true_r. cbn.
  assert (wrap16 (_byte_count s + 1) = Z.of_nat (S n)) as Hw
    by (unfold wrap16; rewrite Z.mod_small by lia; lia).
  assert (Z.to_nat (_byte_count s) = n) as Hnat by lia.
  rewrite Hw, Hnat.
  replace (Z.of_nat (S n) =? 7) with false by (symmetry; apply Z.eqb_neq; lia).
  clear Hw Hnat Hbc. destruct s; cbn in Hdd; subst. reflexivity.
Qed.

Lemma descriptor_stores now bytes : forall s (n : nat),
  _rp_state s = rp_responding -> _descriptor_data s = true ->
  _byte_count s = Z.of_nat n -> (n + length bytes <= 6)%nat ->
  foldl (process_byte now) s bytes =
    (s |> set_descriptor (list_inserts n bytes (_descriptor s))
       |> set_byte_count (Z.of_nat (n + length bytes))).
Proof.
  induction bytes as [|c bytes IH]; intros s n Hs Hdd Hbc Hn.
  - cbn. rewrite Nat.add_0_r, <- Hbc. destruct s; reflexivity.
  - cbn [foldl length list_inserts] in *.
    rewrite (descriptor_store now s c n Hs Hdd Hbc) by lia.
    match goal with |- context [foldl _ ?t bytes] =>
      rewrite (IH t (S n)) by first [exact Hs | exact Hdd | reflexivity | lia] end.
    cbn [_descriptor set_byte_count set_descriptor].
    rewrite <- list_insert_inserts_lt by lia.
    replace (S n + length bytes)%nat with (n + S (length bytes))%nat by lia.
    reflexivity.
Qed.

(** The seventh descriptor byte: the classifier runs. *)
Lemma descriptor_last now s c :
  _rp_state s = rp_responding -> _descriptor_data s = true -> _byte_count s = 6 ->
  process_byte now s c =
    (s |> set_descriptor (<[6%nat := c]> (_descriptor s))
       |> set_byte_count 7
       |> set_response_type ResponseType_Descriptor
       |> parse_response_descriptor now
       |> set_byte_count 0).
Proof.
  intros Hs Hdd Hbc. destruct s; cbn in Hs, Hdd, Hbc. subst.
  unfold process_byte, case_rp_responding. cbn. rewrite orb_true_r. reflexivity.
Qed.

(** Seven bytes starting with the preamble, received while awaiting a
    descriptor or in the unknown state, at a frame boundary: they fill
    [_descriptor] and the classifier runs once, on the seventh. *)
Lemma descriptor_frame now s d :
  _rp_state s = rp_responding \/ _rp_state s = rp_unknown ->
  _byte_count s = 0 -> length (_descriptor s) = 7%nat ->
  length d = 7%nat -> byte_at d 0 = RPLIDAR_PREAMBLE ->
  foldl (process_byte now) s d =
    (s |> set_rp_state rp_responding
       |> set_descriptor_data true
       |> set_descriptor d
       |> set_byte_count 7
       |> set_response_type ResponseType_Descriptor
       |> parse_response_descriptor now
       |> set_byte_count 0).
Proof.
  intros Hs Hbc Hl Hd H0.
  destruct d as [|d0 [|d1 [|d2 [|d3 [|d4 [|d5 [|d6 [|? ?]]]]]]]]; try discriminate Hd.
  clear Hd. cbn in H0. subst d0.
  change [RPLIDAR_PREAMBLE; d1; d2; d3; d4; d5; d6]
    with (RPLIDAR_PREAMBLE :: [d1; d2; d3; d4; d5] ++ [d6]).
  cbn [foldl]. rewrite (descriptor_first now s Hs Hbc), foldl_app.
  match goal with |- context [foldl _ ?t [d1; d2; d3; d4; d5]] =>
    rewrite (descriptor_stores now [d1; d2; d3; d4; d5] t 1)
      by first [reflexivity | cbn; lia] end.
  cbn [foldl].
  match goal with |- process_byte _ ?t d6 = _ =>
    rewrite (descriptor_last now t d6) by reflexivity end.
  cbn [_descriptor set_byte_count set_descriptor set_descriptor_data set_rp_state].
  seven_bytes. reflexivity.
Qed.

(** X4. The scan descriptor A5 5A 05 00 00 40 81, received while awaiting a
    descriptor or in the unknown state, puts the decoder in the measurement
    state with payload length 5, response type SCAN, the byte counter back
    at 0 and the activity time stamp at [now].  From the unknown state the
    preamble byte that ends the search is itself the first descriptor
    byte. *)
Theorem scan_descriptor_recognised now s :
  _rp_state s = rp_responding \/ _rp_state s = rp_unknown ->
  _byte_count s = 0 -> length (_descriptor s) = 7%nat ->
  foldl (process_byte now) s scan_descriptor =
    (s |> set_descriptor_data true
       |> set_descriptor scan_descriptor
       |> set_payload_length 5
       |> set_response_type ResponseType_SCAN
       |> set_last_distance_received_ms now
       |> set_rp_state rp_measurements
       |> set_byte_count 0).
Proof.
  intros Hs Hbc Hl. destruct s; cbn in Hs, Hbc, Hl. subst. seven_bytes.
  destruct Hs as [-> | ->]; vm_compute; reflexivity.
Qed.

(** X5. The health descriptor A5 5A 03 00 00 00 06, received in the same
    two states, puts the decoder in the health state with payload length 3
    and response type Health. *)
Theorem health_descriptor_recognised now s :
  _rp_state s = rp_responding \/ _rp_state s = rp_unknown ->
  _byte_count s = 0 -> length (_descriptor s) = 7%nat ->
  foldl (process_byte now) s health_descriptor =
    (s |> set_descriptor_data true
       |> set_descriptor health_descriptor
       |> set_payload_length 3
       |> set_response_type ResponseType_Health
       |> set_last_distance_received_ms now
       |> set_rp_state rp_health
       |> set_byte_count 0).
Proof.
  intros Hs Hbc Hl. destruct s; cbn in Hs, Hbc, Hl. subst. seven_bytes.
  destruct Hs as [-> | ->]; vm_compute; reflexivity.
Qed.

Local Ltac five_bytes H :=
  match type of H with
  | length ?d = 5%nat =>
    destruct d as [|? [|? [|? [|? [|? [|? ?]]]]]]; try discriminate H
  end.

(** Five bytes in the measurement state, in sync and at a payload boundary:
    they fill the payload buffer and [parse_response_data] runs once, on
    the fifth. *)
Lemma payload_accumulated now s p :
  _rp_state s = rp_measurements -> _sync_error s = 0 -> _byte_count s = 0 ->
  _payload_length s = 5 -> length (payload s) = 5%nat -> length p = 5%nat ->
  foldl (process_byte now) s p =
    (s |> set_payload p
       |> set_byte_count 5
       |> parse_response_data now
       |> set_byte_count 0).
Proof.
  intros Hs Hsync Hbc Hpl Hl Hp. destruct s; cbn in Hs, Hsync, Hbc, Hpl, Hl. subst.
  five_bytes Hl. five_bytes Hp.
  cbv -[parse_response_data]. reflexivity.
Qed.

Lemma ingest_buffer_commute now a d s p k :
  ingest now a d (s |> set_payload p |> set_byte_count k) =
  (ingest now a d s |> set_payload p |> set_byte_count k).
Proof.
  unfold ingest; cbn. repeat (case_match; cbn); reflexivity.
Qed.

(** One valid scan payload at a payload boundary is one sample for the
    aggregator. *)
Lemma valid_payload_ingested now s p :
  _rp_state s = rp_measurements -> _sync_error s = 0 -> _byte_count s = 0 ->
  _payload_length s = 5 -> _response_type s = ResponseType_SCAN ->
  length (payload s) = 5%nat -> length p = 5%nat -> scan_valid p = true ->
  foldl (process_byte now) s p =
    (ingest now (angle_deg p) (distance_m p) s |> set_payload p |> set_byte_count 0).
Proof.
  intros Hs Hsync Hbc Hpl Ht Hl Hp Hv.
  rewrite payload_accumulated by assumption.
  unfold parse_response_data at 1. cbn. rewrite Ht, Hv.
  rewrite ingest_buffer_commute. reflexivity.
Qed.

Lemma ingest_all_decoder_fields samples : forall s,
  decoder_fields (ingest_all samples s) = decoder_fields s
  /\ _sync_error (ingest_all samples s) = _sync_error s.
Proof.
  induction samples as [|[[t a] d] samples IH]; intros s; [split; reflexivity|].
  change (ingest_all ((t, a, d) :: samples) s) with (ingest_all samples (ingest t a d s)).
  destruct (IH (ingest t a d s)) as [-> ->].
  split; [apply ingest_decoder_fields | apply ingest_sync_error].
Qed.

(** X6. A run of well-formed scan payloads, starting in sync at a payload
    boundary, is decoded one sample per five bytes: the state afterwards is
    the state the aggregator reaches on the decoded samples, in order, with
    the last payload in the buffer and the byte counter back at 0.  The
    decoder stays in sync in the measurement state. *)
Theorem scan_stream_decoded now payloads last s :
  _rp_state s = rp_measurements -> _sync_error s = 0 -> _byte_count s = 0 ->
  _payload_length s = 5 -> _response_type s = ResponseType_SCAN ->
  length (payload s) = 5%nat ->
  Forall (fun p => length p = 5%nat /\ scan_valid p = true) (payloads ++ [last]) ->
  foldl (process_byte now) s (concat (payloads ++ [last])) =
    (ingest_all (scan_sample now <$> (payloads ++ [last])) s
       |> set_payload last |> set_byte_count 0).
Proof.
  intros Hs Hsync Hbc Hpl Ht Hl. revert last.
  induction payloads as [|p payloads IH] using rev_ind; intros last Hall.
  - apply Forall_app in Hall as [_ Hlast]. apply Forall_cons_1 in Hlast as [[Hp Hv] _].
    cbn. rewrite app_nil_r. apply valid_payload_ingested; assumption.
  - apply Forall_app in Hall as [Hinit Hlast].
    apply Forall_cons_1 in Hlast as [[Hp Hv] _].
    rewrite concat_app, foldl_app, (IH p Hinit). cbn [concat]. rewrite app_nil_r.
    set (t := ingest_all (scan_sample now <$> (payloads ++ [p])) s).
    destruct (ingest_all_decoder_fields (scan_sample now <$> (payloads ++ [p])) s)
      as [F Fsync]. fold t in F, Fsync. apply decoder_fields_eq in F.
    destruct F as (Fst & Frt & Fpl & _).
    apply Forall_app in Hinit as [_ Hp']. apply Forall_cons_1 in Hp' as [[Hp' _] _].
    rewrite valid_payload_ingested; cbn; try congruence.
    rewrite ingest_buffer_commute. cbn.
    rewrite fmap_app.
    replace (ingest_all ((scan_sample now <$> payloads ++ [p])
                         ++ (scan_sample now <$> [last])) s)
      with (ingest now (angle_deg last) (distance_m last) t)
      by (subst t; unfold ingest_all; rewrite foldl_app; reflexivity).
    reflexivity.
Qed.

(** X7. The health state is terminal: once the decoder is there, [update]
    consumes the incoming bytes without any effect and only recomputes the
    status from an activity time stamp that is never refreshed again. *)
Theorem health_state_is_terminal now bytes s :
  _rp_state s = rp_health -> _uart s = true -> _initialised s = true ->
  update now bytes s =
    set_status
      (if (_last_distance_received_ms s =? 0)
          || (COMM_ACTIVITY_TIMEOUT_MS <? wrap32 (now - _last_distance_received_ms s))
       then Proximity_NoData else Proximity_Good) s.
Proof.
  intros Hs Hu Hini.
  assert (foldl (process_byte now) s bytes = s) as Hdrain.
  { induction bytes as [|c bytes IH]; [reflexivity|]. cbn.
    unfold process_byte at 2. rewrite Hs. exact IH. }
  unfold update, update_initialise, get_readings. rewrite Hu, Hini; cbn.
  rewrite Hini, Hu; cbn. rewrite Hdrain. destruct (_ || _); reflexivity.
Qed.

Lemma unknown_miss now s c :
  _rp_state s = rp_unknown -> c <> RPLIDAR_PREAMBLE -> 0 <= _cnt s < 10 ->
  process_byte now s c = set_cnt (_cnt s + 1) s.
Proof.
  intros Hs Hc Hcnt. unfold process_byte. rewrite Hs. unfold case_rp_unknown.
  apply Z.eqb_neq in Hc. rewrite Hc. cbn. unfold wrap8.
  rewrite Z.mod_small by lia.
  replace (10 <? _cnt s + 1) with false by (symmetry; apply Z.ltb_ge; lia).
  reflexivity.
Qed.

Lemma unknown_misses now junk : forall s,
  _rp_state s = rp_unknown -> Forall (fun b => b <> RPLIDAR_PREAMBLE) junk ->
  0 <= _cnt s -> _cnt s + Z.of_nat (length junk) <= 10 ->
  foldl (process_byte now) s junk = set_cnt (_cnt s + Z.of_nat (length junk)) s.
Proof.
  induction junk as [|b junk IH]; intros s Hs Hj H0 Hn.
  - cbn. rewrite Z.add_0_r. destruct s; reflexivity.
  - apply Forall_cons_1 in Hj as [Hb Hj]. cbn [foldl length] in *.
    rewrite (unknown_miss now s b Hs Hb) by lia.
    rewrite IH; cbn; try assumption; try lia.
    replace (_cnt s + 1 + Z.of_nat (length junk))
      with (_cnt s + Z.of_nat (S (length junk))) by lia.
    reflexivity.
Qed.

(** X8. The unknown state tolerates ten bytes that are not the preamble,
    counting them; the eleventh makes the driver send the reset command and
    wait for the reset, with the counter cleared. *)
Theorem unknown_state_retry_limit now s junk c :
  _rp_state s = rp_unknown -> _uart s = true ->
  0 <= _cnt s -> _cnt s + Z.of_nat (length junk) = 10 ->
  Forall (fun b => b <> RPLIDAR_PREAMBLE) junk -> c <> RPLIDAR_PREAMBLE ->
  foldl (process_byte now) s junk = set_cnt 10 s
  /\ foldl (process_byte now) s (junk ++ [c]) =
       (s |> uart_write reset_command
          |> set_resetted true
          |> set_last_reset_ms now
          |> set_rp_state rp_resetted
          |> set_cnt 0).
Proof.
  intros Hs Hu H0 Hn Hj Hc.
  assert (foldl (process_byte now) s junk = set_cnt 10 s) as Hjunk.
  { rewrite unknown_misses by (assumption || lia). rewrite Hn. reflexivity. }
  split; [exact Hjunk|].
  rewrite foldl_app, Hjunk. cbn.
  unfold process_byte; cbn. rewrite Hs. unfold case_rp_unknown, reset_rplidar.
  apply Z.eqb_neq in Hc. rewrite Hc. cbn. rewrite Hu. reflexivity.
Qed.

Lemma resetted_miss now s c :
  _rp_state s = rp_resetted -> _information_data s = false -> c <> 0x52 ->
  0 <= _cnt s <= 5 ->
  process_byte now s c = set_cnt (_cnt s + 1) s.
Proof.
  intros Hs Hi Hc Hcnt. unfold process_byte. rewrite Hs. unfold case_rp_resetted.
  apply Z.eqb_neq in Hc. rewrite Hc, Hi. cbn. unfold wrap8.
  rewrite Z.mod_small by lia.
  replace (5 <? _cnt s) with false by (symmetry; apply Z.ltb_ge; lia).
  reflexivity.
Qed.

Lemma resetted_misses now junk : forall s,
  _rp_state s = rp_resetted -> _information_data s = false ->
  Forall (fun b => b <> 0x52) junk ->
  0 <= _cnt s -> _cnt s + Z.of_nat (length junk) <= 6 ->
  foldl (process_byte now) s junk = set_cnt (_cnt s + Z.of_nat (length junk)) s.
Proof.
  induction junk as [|b junk IH]; intros s Hs Hi Hj H0 Hn.
  - cbn. rewrite Z.add_0_r. destruct s; reflexivity.
  - apply Forall_cons_1 in Hj as [Hb Hj]. cbn [foldl length] in *.
    rewrite (resetted_miss now s b Hs Hi Hb) by lia.
    rewrite IH; cbn; try assumption; try lia.
    replace (_cnt s + 1 + Z.of_nat (length junk))
      with (_cnt s + Z.of_nat (S (length junk))) by lia.
    reflexivity.
Qed.

(** X9. After a reset, when the device information does not show up: six
    bytes other than 'R' (0x52) are counted, and the seventh sends the
    decoder to the unknown state with the counter cleared.  No scan request
    is sent on this path. *)
Theorem reset_without_information now s junk c :
  _rp_state s = rp_resetted -> _information_data s = false ->
  0 <= _cnt s -> _cnt s + Z.of_nat (length junk) = 6 ->
  Forall (fun b => b <> 0x52) junk -> c <> 0x52 ->
  foldl (process_byte now) s (junk ++ [c]) = (s |> set_rp_state rp_unknown |> set_cnt 0)
  /\ uart_written (foldl (process_byte now) s (junk ++ [c])) = uart_written s.
Proof.
  intros Hs Hi H0 Hn Hj Hc.
  assert (foldl (process_byte now) s (junk ++ [c])
          = (s |> set_rp_state rp_unknown |> set_cnt 0)) as E.
  { rewrite foldl_app, (resetted_misses now junk s) by (assumption || lia). rewrite Hn. cbn.
    unfold process_byte; cbn. rewrite Hs. unfold case_rp_resetted.
    apply Z.eqb_neq in Hc. cbn. rewrite Hc, Hi. reflexivity. }
  split; [exact E | rewrite E; reflexivity].
Qed.

Lemma information_store now s c (n : nat) :
  _rp_state s = rp_resetted -> c = 0x52 \/ _information_data s = true ->
  _byte_count s = Z.of_nat n -> (n < 62)%nat ->
  process_byte now s c =
    (s |> set_information_data true
       |> set_rp_systeminfo (<[n := c]> (_rp_systeminfo s))
       |> set_byte_count (Z.of_nat (S n))).
Proof.
  intros Hs Hc Hbc Hn. unfold process_byte. rewrite Hs. unfold case_rp_resetted.
  replace (_byte_count s <? 62) with true by (symmetry; apply Z.ltb_lt; lia).
  assert (wrap16 (_byte_count s + 1) = Z.of_nat (S n)) as Hw
    by (unfold wrap16; rewrite Z.mod_small by lia; lia).
  assert (Z.to_nat (_byte_count s) = n) as Hnat by lia.
  destruct Hc as [-> | Hi].
  - cbn. rewrite Hw, Hnat. reflexivity.
  - rewrite Hi, orb_true_r. cbn.
    destruct (c =? 82); cbn; rewrite Hw, Hnat; [reflexivity|].
    clear Hw Hnat. destruct s; cbn in *; subst; reflexivity.
Qed.

Lemma information_stores now info : forall s (n : nat),
  _rp_state s = rp_resetted -> _information_data s = true ->
  _byte_count s = Z.of_nat n -> (n + length info <= 62)%nat ->
  foldl (process_byte now) s info =
    (s |> set_rp_systeminfo (list_inserts n info (_rp_systeminfo s))
       |> set_byte_count (Z.of_nat (n + length info))).
Proof.
  induction info as [|c info IH]; intros s n Hs Hi Hbc Hn.
  - cbn. rewrite Nat.add_0_r, <- Hbc. destruct s; reflexivity.
  - cbn [foldl length list_inserts] in *.
    rewrite (information_store now s c n Hs (or_intror Hi) Hbc) by lia.
    match goal with |- context [foldl _ ?t info] =>
      rewrite (IH t (S n)) by first [exact Hs | reflexivity | lia] end.
    cbn [_rp_systeminfo set_byte_count set_rp_systeminfo set_information_data].
    rewrite <- list_insert_inserts_lt by lia.
    replace (S n + length info)%nat with (n + S (length info))%nat by lia.
    clear IH Hbc. destruct s; cbn in Hi; subst. reflexivity.
Qed.

(** The device information and the byte after it, as one step of the
    decoder. *)
Lemma information_frame now s info c :
  _rp_state s = rp_resetted -> _uart s = true -> _byte_count s = 0 ->
  length info = 61%nat ->
  foldl (process_byte now) s (0x52 :: info ++ [c]) =
    (s |> set_rp_systeminfo (list_inserts 0 (0x52 :: info) (_rp_systeminfo s))
       |> set_information_data false
       |> set_byte_count 0
       |> uart_write scan_command
       |> set_last_request_ms now
       |> set_rp_state rp_responding).
Proof.
  intros Hs Hu Hbc Hinfo. cbn [foldl].
  rewrite (information_store now s 0x52 0 Hs (or_introl eq_refl) Hbc) by lia.
  rewrite foldl_app.
  match goal with |- context [foldl _ ?t info] =>
    rewrite (information_stores now info t 1) by first [exact Hs | reflexivity | lia] end.
  cbn [_rp_systeminfo set_byte_count set_rp_systeminfo set_information_data].
  rewrite Hinfo. unfold process_byte; cbn. rewrite Hs. unfold case_rp_resetted; cbn.
  rewrite orb_true_r. cbn. unfold set_scan_mode; cbn. rewrite Hu; cbn.
  rewrite <- list_insert_inserts_lt by lia. reflexivity.
Qed.

(** X10. After a reset, the device information: the byte 'R' (0x52) and the
    61 bytes after it are stored as the first 62 bytes of [_rp_systeminfo];
    the byte after them is consumed as well, and on it the driver sends the
    scan command and awaits the descriptor with the byte counter at 0. *)
Theorem device_information_consumed now s info c :
  _rp_state s = rp_resetted -> _uart s = true -> _byte_count s = 0 ->
  length (_rp_systeminfo s) = 63%nat -> length info = 61%nat ->
  let s' := foldl (process_byte now) s (0x52 :: info ++ [c]) in
  s' = (s |> set_rp_systeminfo (list_inserts 0 (0x52 :: info) (_rp_systeminfo s))
          |> set_information_data false
          |> set_byte_count 0
          |> uart_write scan_command
          |> set_last_request_ms now
          |> set_rp_state rp_responding)
  /\ _rp_systeminfo s' = (0x52 :: info) ++ drop 62 (_rp_systeminfo s).
Proof.
  intros Hs Hu Hbc Hl Hinfo. cbn zeta.
  pose proof (information_frame now s info c Hs Hu Hbc Hinfo) as E.
  split; [exact E|]. rewrite E. cbn [_rp_systeminfo set_rp_state set_last_request_ms
    uart_write set_uart_written set_byte_count set_information_data set_rp_systeminfo].
  rewrite <- (take_drop 62 (_rp_systeminfo s)) at 1.
  apply list_inserts_0_r. rewrite length_take, Hl. cbn [length]. rewrite Hinfo.
  reflexivity.
Qed.

End Sequences.

(** ** The sector loop in general *)

Lemma arc_between_empty (widths : list Z) (k : nat) : arc_between widths k k = 0.
Proof. unfold arc_between. rewrite Nat.sub_diag. reflexivity. Qed.

Lemma arc_between_step (widths : list Z) (from to : nat) (w : Z) :
  widths !! from = Some w -> (from < to)%nat ->
  arc_between widths from to = w + arc_between widths (S from) to.
Proof.
  intros Hw Hlt. unfold arc_between.
  replace (to - from)%nat with (S (to - S from)) by lia.
  rewrite (drop_S _ _ _ Hw). reflexivity.
Qed.

Section Loop.
Context {backend : AP_Proximity_Backend}.

(** X11. The [while] loop of [init_sectors], for any arc: started at sector
    [sector] with [d] degrees to fill from [start_angle], it writes the
    entries [sector], ..., [sector' - 1] of the two tables and no other,
    never an entry at or beyond [PROXIMITY_SECTORS_MAX]; each width is
    between 1 and 45 degrees and is what the size rule gives for the degrees
    still to fill; each middle is the start of its sector plus half its
    width, wrapped; the widths never add up to more than [d], and they add
    up to [d] exactly unless the tables are full. *)
Theorem divide_area_covers n : forall sector start_angle d s,
  0 <= sector -> PROXIMITY_SECTORS_MAX <= 255 ->
  0 <= d <= Z.of_nat n -> d <= 32767 ->
  -32768 <= start_angle -> start_angle + d <= 32767 ->
  (Z.to_nat PROXIMITY_SECTORS_MAX <= length (_sector_width_deg s))%nat ->
  (Z.to_nat PROXIMITY_SECTORS_MAX <= length (_sector_middle_deg s))%nat ->
  let sector' := (divide_area n sector start_angle d s).1 in
  let s' := (divide_area n sector start_angle d s).2 in
  let widths := _sector_width_deg s' in
  let first := Z.to_nat sector in
  let last := Z.to_nat sector' in
  sector <= sector'
  /\ (sector <= PROXIMITY_SECTORS_MAX -> sector' <= PROXIMITY_SECTORS_MAX)
  /\ (forall k, (first <= k < last)%nat ->
        exists w, widths !! k = Some w /\ 0 < w <= 45
          /\ w = sector_size_for (d - arc_between widths first k)
          /\ _sector_middle_deg s' !! k =
               Some (wrap_360 (inject_Z (start_angle + arc_between widths first k)
                               + inject_Z w / 2)))
  /\ (forall k, ~ (first <= k < last)%nat ->
        widths !! k = _sector_width_deg s !! k
        /\ _sector_middle_deg s' !! k = _sector_middle_deg s !! k)
  /\ arc_between widths first last <= d
  /\ (sector' < PROXIMITY_SECTORS_MAX -> arc_between widths first last = d).
Proof.
  induction n as [|n IH]; intros sector start_angle d s H0 Hmax Hd Hd16 Hlo Hhi Hlw Hlm.
  - cbn. rewrite arc_between_empty. repeat split; lia.
  - cbn zeta. cbn [divide_area].
    destruct ((0 <? d) && (sector <? PROXIMITY_SECTORS_MAX)) eqn:Econd.
    + apply andb_prop in Econd as [Ed Es]. apply Z.ltb_lt in Ed, Es.
      pose proof (sector_size_for_bounds d ltac:(lia)) as [Hsz1 Hsz2].
      set (size := sector_size_for d) in *.
      assert (wrap8 (sector + 1) = sector + 1) as ->
        by (unfold wrap8; apply Z.mod_small; lia).
      rewrite !to_int16_small by lia.
      set (s1 := s |> set_sector_middle_deg _ |> set_sector_width_deg _).
      specialize (IH (sector + 1) (start_angle + size) (d - size) s1).
      cbn zeta in IH.
      assert (Z.to_nat PROXIMITY_SECTORS_MAX <= length (_sector_width_deg s1))%nat
        as Hlw1 by (subst s1; cbn; rewrite length_insert; exact Hlw).
      assert (Z.to_nat PROXIMITY_SECTORS_MAX <= length (_sector_middle_deg s1))%nat
        as Hlm1 by (subst s1; cbn; rewrite length_insert; exact Hlm).
      destruct IH as (I1 & I2 & I3 & I4 & I5 & I6); [first [assumption | lia] .. |].
      set (r := divide_area n (sector + 1) (start_angle + size) (d - size) s1) in *.
      assert (Z.to_nat (sector + 1) = S (Z.to_nat sector)) as Hnat by lia.
      rewrite Hnat in *.
      assert (_sector_width_deg r.2 !! Z.to_nat sector = Some size
              /\ _sector_middle_deg r.2 !! Z.to_nat sector
                 = Some (wrap_360 (inject_Z start_angle + inject_Z size / 2)))
        as [Hw Hm].
      { destruct (I4 (Z.to_nat sector) ltac:(lia)) as [-> ->].
        subst s1; cbn. split; apply list_lookup_insert_eq; lia. }
      split; [lia|]. split; [intros _; apply I2; lia|]. split; [|split; [|split]].
      * intros k Hk. destruct (decide (k = Z.to_nat sector)) as [->|Hne].
        -- exists size. rewrite arc_between_empty, Z.sub_0_r, Z.add_0_r.
           repeat split; [exact Hw | lia | lia | exact Hm].
        -- destruct (I3 k ltac:(lia)) as (w & Kw & Kr & Ks & Km).
           exists w. rewrite (arc_between_step _ _ _ _ Hw) by lia.
           split; [exact Kw|]. split; [exact Kr|]. split.
           ++ rewrite Ks. f_equal. lia.
           ++ rewrite Km, Z.add_assoc. reflexivity.
      * intros k Hk. destruct (I4 k ltac:(lia)) as [-> ->].
        subst s1; cbn. split; apply list_lookup_insert_ne; lia.
      * rewrite (arc_between_step _ _ _ _ Hw) by lia. lia.
      * intros Hroom. rewrite (arc_between_step _ _ _ _ Hw) by lia.
        rewrite (I6 Hroom). lia.
    + cbn. rewrite arc_between_empty.
      apply andb_false_iff in Econd.
      destruct Econd as [E|E]; apply Z.ltb_ge in E; repeat split; lia.
Qed.

End Loop.

(** ** Initialisation happens once *)

Section Setup.
Context {backend : AP_Proximity_Backend}.

Lemma setup_fields_eq (s t : State) :
  setup_fields s = setup_fields t ->
  sector_table s = sector_table t /\ boundary_inits s = boundary_inits t
  /\ _sector_initialised s = _sector_initialised t /\ _initialised s = _initialised t.
Proof.
  unfold setup_fields. intros H.
  pose proof (f_equal (fun x => x.1.1.1) H) as H1.
  pose proof (f_equal (fun x => x.1.1.2) H) as H2.
  pose proof (f_equal (fun x => x.1.2) H) as H3.
  pose proof (f_equal (fun x => x.2) H) as H4.
  cbn in H1, H2, H3, H4. auto.
Qed.

Lemma ingest_setup_fields now a d s : setup_fields (ingest now a d s) = setup_fields s.
Proof.
  unfold setup_fields, sector_table, ingest; cbn. repeat (case_match; cbn); reflexivity.
Qed.

Lemma parse_response_data_setup_fields now s :
  setup_fields (parse_response_data now s) = setup_fields s.
Proof.
  unfold parse_response_data.
  destruct (_response_type s); try reflexivity.
  destruct (scan_valid (payload s)); [apply ingest_setup_fields | reflexivity].
Qed.

Lemma parse_response_descriptor_setup_fields now s :
  setup_fields (parse_response_descriptor now s) = setup_fields s.
Proof.
  unfold parse_response_descriptor.
  destruct (descriptor_header_ok _); [|reflexivity].
  destruct (descriptor_is_scan _); cbn; destruct (descriptor_is_health _); reflexivity.
Qed.

Lemma reset_rplidar_setup_fields now s :
  setup_fields (reset_rplidar now s) = setup_fields s.
Proof. unfold reset_rplidar. destruct (_uart s); reflexivity. Qed.

Lemma read_payload_setup_fields now c s :
  setup_fields (read_payload now c s) = setup_fields s.
Proof.
  unfold read_payload. cbn. destruct (_ =? _); [|reflexivity].
  change (setup_fields (set_byte_count 0 ?t)) with (setup_fields t).
  rewrite parse_response_data_setup_fields. reflexivity.
Qed.

Lemma case_rp_responding_setup_fields now c s :
  setup_fields (case_rp_responding now c s) = setup_fields s.
Proof.
  unfold case_rp_responding. destruct (_ || _); [|reflexivity].
  cbn. destruct (_ =? 7); [|reflexivity].
  change (setup_fields (set_byte_count 0 ?t)) with (setup_fields t).
  rewrite parse_response_descriptor_setup_fields. reflexivity.
Qed.

(** The frame decoder writes neither the sector table nor the two
    initialisation flags. *)
Lemma process_byte_setup_fields now s c :
  setup_fields (process_byte now s c) = setup_fields s.
Proof.
  unfold process_byte. destruct (_rp_state s).
  - unfold case_rp_unknown. destruct (c =? RPLIDAR_PREAMBLE).
    + rewrite case_rp_responding_setup_fields. reflexivity.
    + cbn. destruct (10 <? _); [|reflexivity].
      change (setup_fields (set_cnt 0 (set_rp_state rp_resetted ?t)))
        with (setup_fields t).
      rewrite reset_rplidar_setup_fields. reflexivity.
  - unfold case_rp_resetted, set_scan_mode. repeat (case_match; cbn); reflexivity.
  - apply case_rp_responding_setup_fields.
  - unfold case_rp_measurements. destruct (negb _).
    + destruct (Z.land c 3 =? 1).
      * rewrite read_payload_setup_fields. reflexivity.
      * destruct (RESYNC_TIMEOUT <? _); [apply reset_rplidar_setup_fields | reflexivity].
    + apply read_payload_setup_fields.
  - reflexivity.
Qed.

Lemma drain_setup_fields now bytes : forall s,
  setup_fields (foldl (process_byte now) s bytes) = setup_fields s.
Proof.
  induction bytes as [|c bytes IH]; intros s; cbn; [reflexivity|].
  rewrite IH. apply process_byte_setup_fields.
Qed.

Lemma divide_area_flags n : forall sector start_angle d s,
  let s' := (divide_area n sector start_angle d s).2 in
  boundary_inits s' = boundary_inits s
  /\ _sector_initialised s' = _sector_initialised s.
Proof.
  induction n as [|n IH]; intros sector start_angle d s; cbn; [split; reflexivity|].
  destruct ((0 <? d) && (sector <? PROXIMITY_SECTORS_MAX)); [|split; reflexivity].
  match goal with |- context [divide_area n ?a ?b ?c ?t] =>
    specialize (IH a b c t) end.
  cbn in IH. exact IH.
Qed.

(** [init_sectors] re-initialises the boundary once when there are ignore
    areas, and not at all when there are none. *)
Lemma init_sectors_flags s :
  _sector_initialised (init_sectors s) = true
  /\ boundary_inits (init_sectors s) =
       if get_ignore_area_count =? 0 then boundary_inits s else S (boundary_inits s).
Proof.
  unfold init_sectors. destruct (get_ignore_area_count =? 0); [split; reflexivity|].
  assert (forall l acc,
    boundary_inits (foldl ignore_area_step acc l).2 = boundary_inits acc.2) as Hfold.
  { induction l as [|i l IH]; intros acc; cbn; [reflexivity|].
    rewrite IH. unfold ignore_area_step. destruct acc as [sector t]; cbn.
    destruct (get_ignore_area i) as [[angle width]|]; [|reflexivity].
    apply divide_area_flags. }
  specialize (Hfold (seqZ 0 get_ignore_area_count) (0, s)).
  destruct (foldl ignore_area_step (0, s) (seqZ 0 get_ignore_area_count)) as [sector s1].
  cbn in Hfold. cbn. rewrite Hfold. split; reflexivity.
Qed.

Lemma get_readings_setup_fields now bytes s :
  setup_fields (get_readings now bytes s) = setup_fields s.
Proof.
  unfold get_readings. destruct (_uart s); cbn; [apply drain_setup_fields | reflexivity].
Qed.

Lemma update_initialise_setup now s :
  _sector_initialised s = true ->
  sector_table (update_initialise now s) = sector_table s
  /\ boundary_inits (update_initialise now s) = boundary_inits s
  /\ _sector_initialised (update_initialise now s) = true.
Proof.
  intros Hsi. unfold update_initialise, initialise. rewrite Hsi.
  destruct (_initialised s); cbn; [repeat split; auto|].
  unfold reset_rplidar. destruct (_uart s); cbn; repeat split; auto.
Qed.

(** Once the sectors are laid out, [update] neither changes the sector table
    nor re-initialises the boundary. *)
Lemma update_setup now bytes s :
  _sector_initialised s = true ->
  sector_table (update now bytes s) = sector_table s
  /\ boundary_inits (update now bytes s) = boundary_inits s
  /\ _sector_initialised (update now bytes s) = true.
Proof.
  intros Hsi. unfold update. destruct (_uart s); cbn; [|repeat split; auto].
  pose proof (update_initialise_setup now s Hsi) as (E1 & E2 & E3).
  assert (sector_table (if _initialised (update_initialise now s)
                        then get_readings now bytes (update_initialise now s)
                        else update_initialise now s) = sector_table s
          /\ boundary_inits (if _initialised (update_initialise now s)
                             then get_readings now bytes (update_initialise now s)
                             else update_initialise now s) = boundary_inits s
          /\ _sector_initialised (if _initialised (update_initialise now s)
                                  then get_readings now bytes (update_initialise now s)
                                  else update_initialise now s) = true) as H.
  { destruct (_initialised (update_initialise now s)); [|auto].
    pose proof (get_readings_setup_fields now bytes (update_initialise now s)) as F.
    apply setup_fields_eq in F. destruct F as (F1 & F2 & F3 & _).
    rewrite F1, F2, F3. auto. }
  destruct (_ || _); exact H.
Qed.

(** The first [update] lays out the sectors and nothing else. *)
Lemma update_first_setup now bytes s :
  _sector_initialised s = false -> _initialised s = false ->
  update now bytes s = s
  \/ (_sector_initialised (update now bytes s) = true
      /\ _initialised (update now bytes s) = false
      /\ (boundary_inits (update now bytes s) <= S (boundary_inits s))%nat).
Proof.
  intros Hsi Hini. unfold update. destruct (_uart s); cbn; [|left; reflexivity].
  right. unfold update_initialise, initialise. rewrite Hini, Hsi. cbn.
  pose proof (init_sectors_flags s) as [F1 F2].
  assert (boundary_inits (init_sectors s) <= S (boundary_inits s))%nat as F3
    by (rewrite F2; destruct (_ =? _); lia).
  destruct (_ || _); cbn; auto.
Qed.

Lemma update_initialised_order now bytes s :
  (_initialised s = true -> _sector_initialised s = true) ->
  _initialised (update now bytes s) = true -> _sector_initialised (update now bytes s) = true.
Proof.
  intros Hord Hini'.
  destruct (_sector_initialised s) eqn:Esi; [apply update_setup, Esi|].
  destruct (_initialised s) eqn:Eini; [discriminate (Hord eq_refl)|].
  destruct (update_first_setup now bytes s Esi Eini) as [E | (E & _)]; [|exact E].
  rewrite E in Hini'. congruence.
Qed.

(** X12. Initialisation is ordered and happens once.  In every reachable
    state the boundary has been re-initialised at most once, and not at all
    before the sectors are laid out; the device is reset (and
    [_initialised] set) only after the sectors are laid out; and from then
    on no [update] changes the sector table, re-initialises the boundary or
    clears the flag. *)
Theorem sectors_initialised_once s :
  reachable s ->
  (boundary_inits s <= 1)%nat
  /\ (_sector_initialised s = false -> boundary_inits s = 0%nat)
  /\ (_initialised s = true -> _sector_initialised s = true)
  /\ (_sector_initialised s = true -> forall now bytes,
        sector_table (update now bytes s) = sector_table s
        /\ boundary_inits (update now bytes s) = boundary_inits s
        /\ _sector_initialised (update now bytes s) = true).
Proof.
  intros Hr.
  assert ((boundary_inits s <= 1)%nat
          /\ (_sector_initialised s = false -> boundary_inits s = 0%nat)
          /\ (_initialised s = true -> _sector_initialised s = true)) as (H1 & H2 & H3).
  { induction Hr as [s Hc | now bytes s Hr (IH1 & IH2 & IH3)].
    - destruct Hc as (_ & _ & _ & _ & _ & _ & _ & _ & Hini & Hsi & _ & _ & _ & _ & _ & _
                      & _ & _ & _ & _ & _ & _ & Hb).
      rewrite Hb, Hini. repeat split; auto; discriminate.
    - split; [|split]; [| |apply update_initialised_order, IH3].
      + destruct (_sector_initialised s) eqn:Esi.
        * destruct (update_setup now bytes s Esi) as (_ & -> & _). exact IH1.
        * destruct (_initialised s) eqn:Eini; [discriminate (IH3 eq_refl)|].
          destruct (update_first_setup now bytes s Esi Eini) as [-> | (_ & _ & E)];
            [exact IH1|]. rewrite (IH2 eq_refl) in E. exact E.
      + intros Hsi'. destruct (_sector_initialised s) eqn:Esi.
        * destruct (update_setup now bytes s Esi) as (_ & _ & E). congruence.
        * destruct (_initialised s) eqn:Eini; [discriminate (IH3 eq_refl)|].
          destruct (update_first_setup now bytes s Esi Eini) as [-> | (E & _)];
            [apply IH2; reflexivity | congruence]. }
  split; [exact H1|]. split; [exact H2|]. split; [exact H3|].
  intros Hsi now bytes. apply update_setup, Hsi.
Qed.

End Setup.

(** ** Start-up *)

Section StartUp.
Context {backend : AP_Proximity_Backend}.

(** The cycle after the sectors are laid out: the reset command, then the
    bytes received, decoded from the reset state. *)
Lemma update_reset_cycle now bytes s :
  _uart s = true -> _initialised s = false -> _sector_initialised s = true ->
  update now bytes s =
    let r := foldl (process_byte now)
               (s |> uart_write reset_command
                  |> set_resetted true
                  |> set_last_reset_ms now
                  |> set_rp_state rp_resetted
                  |> set_initialised true) bytes in
    set_status
      (if (_last_distance_received_ms r =? 0)
          || (COMM_ACTIVITY_TIMEOUT_MS <? wrap32 (now - _last_distance_received_ms r))
       then Proximity_NoData else Proximity_Good) r.
Proof.
  intros Hu Hini Hsi. cbn zeta.
  unfold update, update_initialise, initialise, reset_rplidar, get_readings.
  rewrite Hu, Hini, Hsi. cbn. rewrite Hu. cbn.
  destruct (_ || _); reflexivity.
Qed.

(** The cycle that lays out the sectors reads nothing. *)
Lemma update_first_cycle now bytes s :
  _uart s = true -> _initialised s = false -> _sector_initialised s = false ->
  _last_distance_received_ms s = 0 ->
  update now bytes s =
    (init_sectors s |> set_initialised false |> set_status Proximity_NoData).
Proof.
  intros Hu Hini Hsi Hstamp.
  pose proof (init_sectors_decoder_frame s) as (_ & _ & _ & _ & Es & _).
  cbn zeta in Es.
  unfold update, update_initialise, initialise. rewrite Hu, Hini, Hsi. cbn.
  rewrite Es, Hstamp. reflexivity.
Qed.

(** A cycle of the initialised driver: the bytes received, then the
    status. *)
Lemma update_initialised_cycle now bytes s :
  _uart s = true -> _initialised s = true ->
  update now bytes s =
    let r := foldl (process_byte now) s bytes in
    set_status
      (if (_last_distance_received_ms r =? 0)
          || (COMM_ACTIVITY_TIMEOUT_MS <? wrap32 (now - _last_distance_received_ms r))
       then Proximity_NoData else Proximity_Good) r.
Proof.
  intros Hu Hini. cbn zeta. unfold update, update_initialise, get_readings.
  rewrite Hu, Hini. cbn. rewrite Hini, Hu. cbn. destruct (_ || _); reflexivity.
Qed.

(** X13. Start-up takes two cycles.  The first [update] after construction
    lays out the sectors and does nothing else: it reads no byte (whatever
    has been received stays unread), sends nothing, and reports NoData.  The
    second sends the reset command, and only then starts reading: the bytes
    are decoded from the reset state. *)
Theorem start_up_takes_two_cycles t1 b1 t2 b2 s :
  constructed s -> _uart s = true ->
  let s1 := update t1 b1 s in
  let s2 := update t2 b2 s1 in
  s1 = (init_sectors s |> set_initialised false |> set_status Proximity_NoData)
  /\ decoder_fields s1 = decoder_fields s
  /\ s2 =
       let r := foldl (process_byte t2)
                  (s1 |> uart_write reset_command
                      |> set_resetted true
                      |> set_last_reset_ms t2
                      |> set_rp_state rp_resetted
                      |> set_initialised true) b2 in
       set_status
         (if (_last_distance_received_ms r =? 0)
             || (COMM_ACTIVITY_TIMEOUT_MS <? wrap32 (t2 - _last_distance_received_ms r))
          then Proximity_NoData else Proximity_Good) r.
Proof.
  intros Hc Hu. cbn zeta.
  destruct Hc as (_ & _ & _ & _ & _ & _ & _ & _ & Hini & Hsi & _ & _ & _ & Hstamp & _).
  pose proof (init_sectors_decoder_frame s) as (_ & _ & _ & _ & Es & Eu & Ei).
  cbn zeta in Es, Eu, Ei.
  pose proof (init_sectors_flags s) as [Fsi _].
  pose proof (update_first_cycle t1 b1 s Hu Hini Hsi Hstamp) as E1.
  split; [exact E1|]. split.
  - rewrite E1. pose proof (init_sectors_decoder_fields s) as F.
    apply decoder_fields_eq in F.
    destruct F as (F1 & F2 & F3 & F4 & F5 & F6 & F7 & _ & F9 & F10 & F11 & F12 & F13).
    unfold decoder_fields. cbn.
    rewrite F1, F2, F3, F4, F5, F6, F7, F9, F10, F11, F12, F13, Hini. reflexivity.
  - apply update_reset_cycle; rewrite E1; cbn;
      [rewrite Eu; exact Hu | reflexivity | exact Fsi].
Qed.

End StartUp.

(** ** A candidate inside the dead zone *)

Section StaleCandidate.
Context {backend : AP_Proximity_Backend}.

(** X14. A retained candidate at or below [distance_min()] is never
    replaced while its sector stays open: in-range samples of the sector
    are farther than it, so the comparison keeps it.  The first in-range
    sample of another sector then commits it, marked valid.  This is the
    situation after construction, where the candidate is 0 m at 0 degrees in
    sector 0. *)
Theorem candidate_in_dead_zone_is_committed s rest crossing :
  let table := sector_table s in
  let sector := _last_sector s in
  (_distance_m_last s <= distance_min)%Q ->
  Forall (fun x => leaves table sector x = false) rest ->
  leaves table sector crossing = true ->
  let s1 := ingest_all rest s in
  let s2 := ingest_all [crossing] s1 in
  _last_sector s1 = sector
  /\ _angle_deg_last s1 = _angle_deg_last s /\ _distance_m_last s1 = _distance_m_last s
  /\ _angle s2 = <[Z.to_nat sector := _angle_deg_last s]> (_angle s)
  /\ _distance s2 = <[Z.to_nat sector := _distance_m_last s]> (_distance s)
  /\ _distance_valid s2 = <[Z.to_nat sector := true]> (_distance_valid s1)
  /\ boundary_updated s2 = boundary_updated s ++ [sector].
Proof.
  cbn zeta. intros Hlow Hrest Hcross.
  pose proof (dwell_open rest s) as Hd. cbn zeta in Hd. specialize (Hd Hrest).
  destruct Hd as (D1 & D2 & D3 & D4 & D5 & D6 & D7 & D8).
  set (s1 := ingest_all rest s) in *.
  assert ((_angle_deg_last s1, _distance_m_last s1)
          = (_angle_deg_last s, _distance_m_last s)) as Hkeep.
  { destruct D6 as [D6|D6]; [exact D6|]. exfalso.
    apply in_map_iff in D6 as ([[t a] d] & Er & Hin).
    apply filter_In in Hin as [_ Ho].
    unfold reading in Er; cbn in Er. injection Er as Ea Ed.
    unfold observes in Ho. destruct (Qlt_le_dec distance_min d) as [Hlt|]; [|discriminate].
    rewrite Ed in Hlt.
    apply (Qlt_not_le _ _ Hlt). eapply Qle_trans; [exact D7 | exact Hlow]. }
  injection Hkeep as Ka Kd.
  destruct crossing as [[now' a'] d'].
  change (ingest_all [(now', a', d')] s1) with (ingest now' a' d' s1).
  assert (exists k, k <> _last_sector s
                    /\ observes (sector_table s1) k (now', a', d') = true)
    as (k & Hkne & Hobs).
  { unfold leaves in Hcross. unfold observes. rewrite D2.
    destruct (Qlt_le_dec distance_min d'); [|discriminate].
    destruct (sample_sector (sector_table s) a') as [k|]; [|discriminate].
    exists k. split; [|apply Z.eqb_refl].
    intros ->. rewrite Z.eqb_refl in Hcross. discriminate. }
  assert (_last_sector s1 <> k) as Hne1 by (rewrite D1; congruence).
  rewrite (ingest_enter now' a' d' s1 k Hne1 Hobs). cbn.
  rewrite D1, D3, D4, D5, Ka, Kd. repeat split; reflexivity.
Qed.

End StaleCandidate.

(** ** From construction to the measurement state *)

Section Session.
Context {backend : AP_Proximity_Backend}.

(** X15. The whole start-up handshake, for any configuration: a freshly
    constructed instance with a UART, a first cycle, a cycle in which the
    device information arrives (the byte 'R', 61 more bytes and one byte
    after them), and a cycle in which the scan descriptor arrives.  The
    driver has then sent exactly the reset command and the scan command, is
    in the measurement state, in sync and at a payload boundary, and
    expects 5-byte scan payloads.  The status is still NoData after the
    second cycle and becomes Good with the descriptor, before any
    measurement (unless the clock reads 0, which the status test takes for
    "never"). *)
Theorem power_on_to_measurements t1 b1 t2 info c t3 s :
  constructed s -> _uart s = true -> length info = 61%nat ->
  let s1 := update t1 b1 s in
  let s2 := update t2 (0x52 :: info ++ [c]) s1 in
  let s3 := update t3 scan_descriptor s2 in
  _rp_state s2 = rp_responding /\ status s2 = Proximity_NoData
  /\ uart_written s3 = [reset_command; scan_command]
  /\ _rp_state s3 = rp_measurements /\ _sync_error s3 = 0 /\ _byte_count s3 = 0
  /\ _payload_length s3 = 5 /\ _response_type s3 = ResponseType_SCAN
  /\ length (payload s3) = 5%nat
  /\ _last_distance_received_ms s3 = t3
  /\ status s3 = (if t3 =? 0 then Proximity_NoData else Proximity_Good).
Proof.
  intros Hc Hu Hinfo. cbn zeta.
  destruct Hc as (_ & Hsync & Hbc & _ & _ & _ & _ & _ & Hini & Hsi & _ & _ & _ & Hstamp
                  & _ & _ & _ & Hdesc & _ & Hpay & Hw & _).
  rewrite (update_first_cycle t1 b1 s Hu Hini Hsi Hstamp).
  pose proof (init_sectors_decoder_frame s) as (Esync & _ & _ & Ebc & Es & Eu & _).
  cbn zeta in Esync, Ebc, Es, Eu.
  pose proof (init_sectors_decoder_fields s) as F. apply decoder_fields_eq in F.
  destruct F as (_ & _ & _ & _ & _ & _ & _ & _ & _ & Fw & Fp & Fd & _).
  pose proof (init_sectors_flags s) as [Fsi _].
  rewrite Hsync in Esync. rewrite Hbc in Ebc. rewrite Hstamp in Es. rewrite Hu in Eu.
  rewrite Hw in Fw. rewrite Hpay in Fp. rewrite Hdesc in Fd.
  set (I := init_sectors s) in *. clearbody I. clear s Hu Hsync Hbc Hini Hsi Hstamp Hdesc Hpay Hw.
  rewrite update_reset_cycle by (cbn; assumption || reflexivity). cbn zeta.
  rewrite information_frame by (cbn; assumption || reflexivity).
  cbn [_last_distance_received_ms set_rp_state set_last_request_ms uart_write
       set_uart_written set_byte_count set_information_data set_rp_systeminfo
       set_initialised set_last_reset_ms set_resetted set_status].
  rewrite Es. cbn [Z.eqb orb].
  split; [reflexivity|]. split; [reflexivity|].
  rewrite update_initialised_cycle by (cbn; assumption || reflexivity). cbn zeta.
  rewrite descriptor_frame
    by (cbn; first [left; reflexivity | reflexivity | rewrite Fd; reflexivity]).
  unfold parse_response_descriptor. cbn.
  rewrite Fw, Fp, Esync, Z.sub_diag. cbn.
  rewrite orb_false_r. repeat split; reflexivity.
Qed.

End Session.

(** ** The descriptor flag *)

Section DescriptorFlag.
Context {backend : AP_Proximity_Backend}.

Lemma parse_response_descriptor_flag now s :
  _descriptor_data (parse_response_descriptor now s) = _descriptor_data s.
Proof.
  unfold parse_response_descriptor.
  destruct (descriptor_header_ok _); [|reflexivity].
  destruct (descriptor_is_scan _); cbn; destruct (descriptor_is_health _); reflexivity.
Qed.

Lemma parse_response_data_flag now s :
  _descriptor_data (parse_response_data now s) = _descriptor_data s.
Proof.
  pose proof (parse_response_data_decoder_fields now s) as F.
  apply decoder_fields_eq in F. tauto.
Qed.

Lemma reset_rplidar_flag now s :
  _descriptor_data (reset_rplidar now s) = _descriptor_data s.
Proof. unfold reset_rplidar. destruct (_uart s); reflexivity. Qed.

Lemma read_payload_flag now c s :
  _descriptor_data (read_payload now c s) = _descriptor_data s.
Proof.
  unfold read_payload. cbn. destruct (_ =? _); [|reflexivity].
  cbn. rewrite parse_response_data_flag. reflexivity.
Qed.

Lemma process_byte_flag now s c :
  _descriptor_data s = true -> _descriptor_data (process_byte now s c) = true.
Proof.
  intros Hdd.
  assert (forall t, _descriptor_data t = true ->
            _descriptor_data (case_rp_responding now c t) = true) as Hresp.
  { intros t Ht. unfold case_rp_responding. rewrite Ht, orb_true_r. cbn.
    destruct (_ =? 7); [|reflexivity].
    cbn. rewrite parse_response_descriptor_flag. reflexivity. }
  unfold process_byte. destruct (_rp_state s).
  - unfold case_rp_unknown. destruct (c =? RPLIDAR_PREAMBLE).
    + apply Hresp. exact Hdd.
    + cbn. destruct (10 <? _); [|exact Hdd].
      cbn. rewrite reset_rplidar_flag. exact Hdd.
  - unfold case_rp_resetted, set_scan_mode. repeat (case_match; cbn); exact Hdd.
  - apply Hresp, Hdd.
  - unfold case_rp_measurements. destruct (negb _).
    + destruct (Z.land c 3 =? 1).
      * rewrite read_payload_flag. exact Hdd.
      * destruct (RESYNC_TIMEOUT <? _); [rewrite reset_rplidar_flag|]; exact Hdd.
    + rewrite read_payload_flag. exact Hdd.
  - exact Hdd.
Qed.

Lemma drain_flag now bytes : forall s,
  _descriptor_data s = true -> _descriptor_data (foldl (process_byte now) s bytes) = true.
Proof.
  induction bytes as [|c bytes IH]; intros s Hdd; cbn; [exact Hdd|].
  apply IH, process_byte_flag, Hdd.
Qed.

Lemma update_initialise_flag now s :
  _descriptor_data (update_initialise now s) = _descriptor_data s.
Proof.
  unfold update_initialise, initialise.
  destruct (_initialised s); cbn; [reflexivity|].
  destruct (_sector_initialised s); cbn; [apply reset_rplidar_flag|].
  pose proof (init_sectors_decoder_fields s) as F. apply decoder_fields_eq in F. tauto.
Qed.

(** X16. [_descriptor_data] is set by the first descriptor byte and never
    cleared, by no path of [update].  So the search for the preamble
    ([case rp_responding] falling back to the unknown state on another
    byte) works before the first descriptor only: afterwards every byte
    received while awaiting a descriptor is stored as a descriptor byte, and
    the only way from there to the unknown state is a completed descriptor
    with a bad header. *)
Theorem descriptor_flag_never_cleared now bytes s :
  _descriptor_data s = true ->
  _descriptor_data (update now bytes s) = true
  /\ forall c, _rp_state s = rp_responding ->
       _descriptor (process_byte now s c) = <[Z.to_nat (_byte_count s) := c]> (_descriptor s)
       /\ (_rp_state (process_byte now s c) = rp_unknown ->
           wrap16 (_byte_count s + 1) = 7
           /\ descriptor_header_ok (_descriptor (process_byte now s c)) = false).
Proof.
  intros Hdd. split.
  - unfold update. destruct (_uart s); cbn; [|exact Hdd].
    pose proof (update_initialise_flag now s) as E. rewrite Hdd in E.
    assert (_descriptor_data (if _initialised (update_initialise now s)
                              then get_readings now bytes (update_initialise now s)
                              else update_initialise now s) = true) as H.
    { destruct (_initialised _); [|exact E].
      unfold get_readings. destruct (negb _); [exact E | apply drain_flag, E]. }
    destruct (_ || _); exact H.
  - intros c Hs. unfold process_byte. rewrite Hs. unfold case_rp_responding.
    rewrite Hdd, orb_true_r. cbn.
    destruct (wrap16 (_byte_count s + 1) =? 7) eqn:E7; cbn.
    + apply Z.eqb_eq in E7. unfold parse_response_descriptor. cbn.
      destruct (descriptor_header_ok _) eqn:Eh; cbn.
      * destruct (descriptor_is_scan _); cbn; destruct (descriptor_is_health _); cbn;
          (split; [reflexivity|]); rewrite ?Hs; intros; discriminate.
      * split; [reflexivity|]. intros _. split; [exact E7 | exact Eh].
    + split; [reflexivity|]. rewrite Hs. discriminate.
Qed.

End DescriptorFlag.

(** ** The status is an output *)

Section Chunks.
Context {backend : AP_Proximity_Backend}.

Lemma ingest_status st now a d s :
  ingest now a d (set_status st s) = set_status st (ingest now a d s).
Proof. unfold ingest; cbn. repeat (case_match; cbn); reflexivity. Qed.

Lemma parse_response_data_status st now s :
  parse_response_data now (set_status st s) = set_status st (parse_response_data now s).
Proof.
  unfold parse_response_data; cbn.
  destruct (_response_type s); try reflexivity.
  destruct (scan_valid (payload s)); [apply ingest_status | reflexivity].
Qed.

Lemma parse_response_descriptor_status st now s :
  parse_response_descriptor now (set_status st s)
  = set_status st (parse_response_descriptor now s).
Proof.
  unfold parse_response_descriptor; cbn.
  destruct (descriptor_header_ok _); [|reflexivity].
  destruct (descriptor_is_scan _); cbn; destruct (descriptor_is_health _); reflexivity.
Qed.

Lemma reset_rplidar_status st now s :
  reset_rplidar now (set_status st s) = set_status st (reset_rplidar now s).
Proof. unfold reset_rplidar; cbn. destruct (_uart s); reflexivity. Qed.

Lemma set_status_byte_count st n s :
  set_status st (set_byte_count n s) = set_byte_count n (set_status st s).
Proof. reflexivity. Qed.

Lemma read_payload_status st now c s :
  read_payload now c (set_status st s) = set_status st (read_payload now c s).
Proof.
  unfold read_payload; cbn. destruct (_ =? _); [|reflexivity].
  rewrite set_status_byte_count, <- parse_response_data_status. reflexivity.
Qed.

Lemma case_rp_responding_status st now c s :
  case_rp_responding now c (set_status st s) = set_status st (case_rp_responding now c s).
Proof.
  unfold case_rp_responding; cbn. destruct (_ || _); [|reflexivity].
  destruct (_ =? 7); [|reflexivity].
  rewrite set_status_byte_count, <- parse_response_descriptor_status. reflexivity.
Qed.

(** The frame decoder never reads the status. *)
Lemma process_byte_status st now s c :
  process_byte now (set_status st s) c = set_status st (process_byte now s c).
Proof.
  unfold process_byte. cbn. destruct (_rp_state s).
  - unfold case_rp_unknown; cbn. destruct (c =? RPLIDAR_PREAMBLE).
    + change (set_rp_state rp_responding (set_status st s))
        with (set_status st (set_rp_state rp_responding s)).
      apply case_rp_responding_status.
    + destruct (10 <? _); [|reflexivity].
      change (set_cnt ?n (set_status st s)) with (set_status st (set_cnt n s)).
      rewrite reset_rplidar_status. reflexivity.
  - unfold case_rp_resetted, set_scan_mode; cbn. repeat (case_match; cbn); reflexivity.
  - apply case_rp_responding_status.
  - unfold case_rp_measurements; cbn. destruct (negb _).
    + destruct (Z.land c 3 =? 1).
      * change (set_sync_error 0 (set_status st s))
          with (set_status st (set_sync_error 0 s)).
        apply read_payload_status.
      * destruct (RESYNC_TIMEOUT <? _); [apply reset_rplidar_status | reflexivity].
    + apply read_payload_status.
  - reflexivity.
Qed.

Lemma drain_status st now bytes : forall s,
  foldl (process_byte now) (set_status st s) bytes
  = set_status st (foldl (process_byte now) s bytes).
Proof.
  induction bytes as [|c bytes IH]; intros s; cbn; [reflexivity|].
  rewrite process_byte_status. apply IH.
Qed.

Lemma parse_response_data_uart now s : _uart (parse_response_data now s) = _uart s.
Proof.
  pose proof (parse_response_data_decoder_fields now s) as F.
  apply decoder_fields_eq in F. tauto.
Qed.

Lemma parse_response_descriptor_uart now s :
  _uart (parse_response_descriptor now s) = _uart s.
Proof.
  unfold parse_response_descriptor.
  destruct (descriptor_header_ok _); [|reflexivity].
  destruct (descriptor_is_scan _); cbn; destruct (descriptor_is_health _); reflexivity.
Qed.

Lemma reset_rplidar_uart now s : _uart (reset_rplidar now s) = _uart s.
Proof. unfold reset_rplidar. destruct (_uart s) eqn:E; cbn; exact E. Qed.

Lemma read_payload_uart now c s : _uart (read_payload now c s) = _uart s.
Proof.
  unfold read_payload. cbn. destruct (_ =? _); [|reflexivity].
  cbn. rewrite parse_response_data_uart. reflexivity.
Qed.

Lemma case_rp_responding_uart now c s : _uart (case_rp_responding now c s) = _uart s.
Proof.
  unfold case_rp_responding. destruct (_ || _); [|reflexivity].
  cbn. destruct (_ =? 7); [|reflexivity].
  cbn. rewrite parse_response_descriptor_uart. reflexivity.
Qed.

Lemma process_byte_uart now s c : _uart (process_byte now s c) = _uart s.
Proof.
  unfold process_byte. destruct (_rp_state s).
  - unfold case_rp_unknown. destruct (c =? RPLIDAR_PREAMBLE).
    + rewrite case_rp_responding_uart. reflexivity.
    + cbn. destruct (10 <? _); [|reflexivity].
      cbn. rewrite reset_rplidar_uart. reflexivity.
  - unfold case_rp_resetted, set_scan_mode.
    destruct (_uart s) eqn:E; repeat (case_match; cbn); auto.
  - apply case_rp_responding_uart.
  - unfold case_rp_measurements. destruct (negb _).
    + destruct (Z.land c 3 =? 1).
      * rewrite read_payload_uart. reflexivity.
      * destruct (RESYNC_TIMEOUT <? _); [apply reset_rplidar_uart | reflexivity].
    + apply read_payload_uart.
  - reflexivity.
Qed.

Lemma drain_uart now bytes : forall s,
  _uart (foldl (process_byte now) s bytes) = _uart s.
Proof.
  induction bytes as [|c bytes IH]; intros s; cbn; [reflexivity|].
  rewrite IH. apply process_byte_uart.
Qed.

(** X17. How the received bytes are spread over the cycles does not matter
    to an initialised driver: two [update] calls at one clock value leave
    the state one call with all the bytes leaves.  Partial frames are
    carried from one cycle to the next, and the status written at the end of
    a cycle is not read back by the decoder. *)
Theorem update_chunks now b1 b2 s :
  _uart s = true -> _initialised s = true ->
  update now b2 (update now b1 s) = update now (b1 ++ b2) s.
Proof.
  intros Hu Hini.
  rewrite (update_initialised_cycle now b1 s Hu Hini). cbn zeta.
  rewrite (update_initialised_cycle now (b1 ++ b2) s Hu Hini). cbn zeta.
  rewrite foldl_app.
  pose proof (drain_setup_fields now b1 s) as F. apply setup_fields_eq in F.
  destruct F as (_ & _ & _ & Fini).
  pose proof (drain_uart now b1 s) as Fu.
  set (r := foldl (process_byte now) s b1) in *.
  rewrite Hu in Fu. rewrite Hini in Fini.
  rewrite update_initialised_cycle by assumption. cbn zeta.
  rewrite drain_status. cbn.
  destruct (_ || _); reflexivity.
Qed.

End Chunks.

(** * The worked session: instances and the cases where the specification
      and the code part ways *)

#[local] Existing Instance demo_backend.

Lemma power_on_constructed : constructed (power_on 8).
Proof. unfold constructed. repeat split; reflexivity. Qed.

Lemma demo_out_of_sync_reachable : reachable demo_out_of_sync.
Proof.
  unfold demo_out_of_sync, demo_scanning, demo_responding, demo_partitioned.
  do 4 apply reachable_update. apply reachable_constructed, power_on_constructed.
Qed.

(** C1, at start-up.  After the handshake sector 0 is open without ever
    having been entered, and its candidate is 0 m at 0 degrees.  The first
    dwell is in sector 0: valid payloads for 30 degrees at 1.5 m, 20 degrees
    at 1.0 m and 40 degrees at 1.2 m, all beyond [distance_min()].  The
    candidate stays 0 m at 0 degrees, and the sample at 70 degrees, in
    sector 1, commits 0 m at 0 degrees to sector 0 and marks it valid; no
    sample of the dwell was at 0 m. *)
Lemma start_up_dwell_commits_zero :
  let s1 := update 1040 (concat demo_first_dwell) demo_scanning in
  let s2 := update 1041 demo_first_crossing s1 in
  _last_sector demo_scanning = 0
  /\ Forall (fun p => scan_valid p = true
                      /\ observes (sector_table demo_scanning) 0 (scan_sample 1040 p) = true
                      /\ (0 < distance_m p)%Q) demo_first_dwell
  /\ scan_valid demo_first_crossing = true
  /\ leaves (sector_table demo_scanning) 0 (scan_sample 1041 demo_first_crossing) = true
  /\ _angle_deg_last s1 = 0%Q /\ _distance_m_last s1 = 0%Q
  /\ _angle s2 !! 0%nat = Some 0%Q /\ _distance s2 !! 0%nat = Some 0%Q
  /\ _distance_valid s2 !! 0%nat = Some true
  /\ boundary_updated s2 = [0]
  /\ _last_sector s2 = 1.
Proof.
  cbn zeta. split; [vm_compute; reflexivity|]. split.
  { repeat constructor; vm_compute; reflexivity. }
  repeat split; vm_compute; reflexivity.
Qed.

(** A dwell that begins with the sample entering sector 1. *)
Lemma sector_dwell_commit_witness :
  let s1 := ingest_all (demo_dwell_first :: demo_dwell_rest) demo_scanning in
  let s2 := ingest_all [demo_crossing] s1 in
  exists am dm,
    _angle_deg_last s1 = am /\ _distance_m_last s1 = dm
    /\ _distance s2 = <[1%nat := dm]> (_distance s1)
    /\ _angle s2 = <[1%nat := am]> (_angle s1)
    /\ _distance_valid s2 = <[1%nat := true]> (_distance_valid s1)
    /\ boundary_updated s2 = [0; 1].
Proof.
  cbn zeta.
  destruct (sector_dwell_commit demo_scanning 1
              demo_dwell_first demo_dwell_rest demo_crossing)
    as (am & dm & _ & _ & _ & Ha & Hd & _ & _ & Ca & Cd & Cv & Cb & _).
  - vm_compute. congruence.
  - vm_compute. reflexivity.
  - repeat constructor; vm_compute; reflexivity.
  - vm_compute. reflexivity.
  - exists am, dm.
    split; [exact Ha|]. split; [exact Hd|]. split; [exact Cd|].
    split; [exact Ca|]. split; [exact Cv|].
    rewrite Cb. vm_compute. reflexivity.
Defined.

Lemma scan_payload_decoding_witness :
  (angle_deg (scan_payload_bytes 15 640 8000) == 10)%Q
  /\ (distance_m (scan_payload_bytes 15 640 8000) == 2)%Q.
Proof.
  destruct (scan_payload_decoding (scan_payload_bytes 15 640 8000))
    as (_ & _ & _ & _ & _ & _ & _ & _ & H).
  - vm_compute. reflexivity.
  - repeat constructor; vm_compute; congruence.
  - destruct H as (Ha & Hd & _).
    + vm_compute. reflexivity.
    + vm_compute. reflexivity.
    + split; [exact Ha | exact Hd].
Defined.

(** The payload of the fourth cycle, as [parse_response_data] finds it. *)
Lemma invalid_scan_payload_rejected_witness :
  let s := demo_scanning |> set_payload [0x00; 0x01; 0x05; 0x40; 0x1F]
                         |> set_byte_count 5 in
  _sync_error (parse_response_data 1040 s) = _sync_error s + 1
  /\ _distance_valid (parse_response_data 1040 s) = _distance_valid s.
Proof.
  cbn zeta.
  destruct (invalid_scan_payload_rejected 1040
              (demo_scanning |> set_payload [0x00; 0x01; 0x05; 0x40; 0x1F]
                             |> set_byte_count 5))
    as (_ & Hs & _ & _ & Hv & _).
  - vm_compute. reflexivity.
  - left. vm_compute. reflexivity.
  - vm_compute. split; congruence.
  - split; [exact Hs | exact Hv].
Defined.

Lemma single_blind_spot_partition_witness :
  _num_sectors (init_sectors (power_on 8)) = 8
  /\ (0 + 15 + 330) mod 360 = (0 - 15) mod 360.
Proof.
  destruct (single_blind_spot_partition 8 0 (power_on 8))
    as (Hn & _ & _ & Hend & _); try reflexivity; try lia.
  split; [exact Hn | exact Hend].
Defined.

(** C5, against the claim.  The descriptor A5 5A 14 00 00 00 04 matches
    neither template, and after its seventh byte the decoder is still
    awaiting a descriptor, not Unknown. *)
Lemma unrecognised_descriptor_not_unknown :
  let s' := update 1020 info_descriptor demo_responding in
  _descriptor s' = info_descriptor
  /\ info_descriptor <> scan_descriptor /\ info_descriptor <> health_descriptor
  /\ _rp_state s' = rp_responding /\ _rp_state s' <> rp_unknown.
Proof. vm_compute. repeat split; congruence. Qed.

Lemma descriptor_invalid_iff_bad_header_witness :
  let s := demo_responding |> set_descriptor info_descriptor in
  parse_response_descriptor 1020 s = s.
Proof.
  cbn zeta.
  rewrite (descriptor_invalid_iff_bad_header 1020
             (demo_responding |> set_descriptor info_descriptor)).
  - reflexivity.
  - reflexivity.
  - vm_compute. congruence.
  - vm_compute. congruence.
Defined.

(** C6, against the claim.  In the AwaitingHealth state the three bytes of
    a health payload with status 2 are not accumulated: the payload buffer
    and the byte counter stay as they were, nothing is sent or recorded,
    while the measurement path would have stored the first byte. *)
Lemma health_bytes_not_accumulated :
  let s' := update 1030 [0x02; 0x00; 0x00] demo_health in
  _rp_state demo_health = rp_health
  /\ payload s' = payload demo_health /\ _byte_count s' = _byte_count demo_health
  /\ uart_written s' = uart_written demo_health
  /\ _byte_count (read_payload 1030 0x02 demo_health) = 1
  /\ process_byte 1030 demo_health 0x02 <> read_payload 1030 0x02 demo_health.
Proof.
  vm_compute. repeat split; try reflexivity. intros H. discriminate H.
Qed.

Lemma health_state_drops_bytes_witness :
  process_byte 1030 demo_health 0x02 = demo_health
  /\ parse_response_data 1030 demo_health = demo_health.
Proof.
  destruct (health_state_drops_bytes 1030 0x02 demo_health) as [Hb Hp].
  split; [apply Hb | apply Hp]; vm_compute; reflexivity.
Defined.

(** C7, against the claim.  Twenty milliseconds after start-up the scan
    descriptor has arrived and no measurement has been decoded, yet the
    status is Good; it is still Good 200 ms after start-up. *)
Lemma good_status_without_measurement :
  update_decodes 1000 [] (power_on 8) = false
  /\ update_decodes 1010 demo_info_bytes demo_partitioned = false
  /\ update_decodes 1020 scan_descriptor demo_responding = false
  /\ update_decodes 1200 [] demo_scanning = false
  /\ status demo_scanning = Proximity_Good
  /\ status (update 1200 [] demo_scanning) = Proximity_Good.
Proof. vm_compute. repeat split; reflexivity. Qed.

Lemma update_status_follows_activity_stamp_witness :
  status (update 1300 [] demo_scanning) = Proximity_NoData
  /\ _last_distance_received_ms (update 1300 [] demo_scanning) = 1020.
Proof.
  destruct (update_status_follows_activity_stamp 1300 [] demo_scanning)
    as (Hno & _ & Hstamp & _).
  - vm_compute. reflexivity.
  - split; [|exact Hstamp].
    apply Hno. right. vm_compute. reflexivity.
Defined.

(** Within the timeout, and 6 seconds after the last activity. *)
Lemma resync_on_start_marker_witness :
  payload (process_byte 1041 demo_out_of_sync 0x02) = payload demo_out_of_sync
  /\ foldl (process_byte 1041) demo_out_of_sync ([0x02; 0x00] ++ [0x3D]) =
       (demo_out_of_sync |> set_sync_error 0
                         |> set_payload (<[0%nat := 0x3D]> (payload demo_out_of_sync))
                         |> set_byte_count 1)
  /\ process_byte 7000 demo_out_of_sync 0x3D =
       (demo_out_of_sync |> set_sync_error 0
                         |> set_payload (<[0%nat := 0x3D]> (payload demo_out_of_sync))
                         |> set_byte_count 1).
Proof.
  destruct (resync_on_start_marker 1041 demo_out_of_sync) as (Hdrop & _ & Hresume).
  - exact demo_out_of_sync_reachable.
  - vm_compute. reflexivity.
  - vm_compute. congruence.
  - destruct (resync_on_start_marker 7000 demo_out_of_sync) as (_ & Hlate & _).
    + exact demo_out_of_sync_reachable.
    + vm_compute. reflexivity.
    + vm_compute. congruence.
    + split; [|split].
      * apply (Hdrop 0x02). vm_compute. congruence.
      * apply Hresume.
        -- repeat constructor; vm_compute; congruence.
        -- vm_compute. reflexivity.
        -- right. vm_compute. congruence.
      * apply Hlate. vm_compute. reflexivity.
Defined.

Lemma sync_error_zero_or_one_witness :
  _sync_error demo_out_of_sync = 0 \/ _sync_error demo_out_of_sync = 1.
Proof.
  exact (proj1 (sync_error_zero_or_one demo_out_of_sync demo_out_of_sync_reachable)).
Defined.

(** A dead-zone sample (0.1 m) at 70 degrees, which is sector 1, while
    sector 0 is open. *)
Lemma dead_zone_sample_only_invalidates_witness :
  let s := demo_scanning |> set_payload (scan_payload_bytes 15 4480 400)
                         |> set_byte_count 5 in
  _distance_valid (parse_response_data 1040 s) = <[1%nat := false]> (_distance_valid s)
  /\ _last_sector (parse_response_data 1040 s) = _last_sector s
  /\ boundary_updated (parse_response_data 1040 s) = boundary_updated s.
Proof.
  cbn zeta.
  destruct (dead_zone_sample_only_invalidates 1040
              (demo_scanning |> set_payload (scan_payload_bytes 15 4480 400)
                             |> set_byte_count 5) 1)
    as (_ & Hv & Hl & _ & _ & _ & _ & Hb).
  - vm_compute. reflexivity.
  - vm_compute. reflexivity.
  - vm_compute. reflexivity.
  - vm_compute. congruence.
  - split; [exact Hv|]. split; [exact Hl | exact Hb].
Defined.

(** * The worked session, continued: instances of the further properties *)

Lemma byte_count_in_range_witness :
  0 <= _cnt demo_out_of_sync <= 10
  /\ match _rp_state demo_out_of_sync with
     | rp_measurements => 0 <= _byte_count demo_out_of_sync < 5
     | rp_responding => 0 <= _byte_count demo_out_of_sync < 7
     | rp_resetted => 0 <= _byte_count demo_out_of_sync <= 62
     | rp_unknown | rp_health => _byte_count demo_out_of_sync = 0
     end.
Proof. exact (byte_count_in_range demo_out_of_sync demo_out_of_sync_reachable). Defined.

Lemma measurements_are_scan_witness :
  _response_type demo_out_of_sync = ResponseType_SCAN
  /\ _payload_length demo_out_of_sync = 5.
Proof.
  destruct (measurements_are_scan demo_out_of_sync) as (Ht & Hl & _).
  - exact demo_out_of_sync_reachable.
  - vm_compute. reflexivity.
  - split; [exact Ht | exact Hl].
Defined.

Lemma only_reset_and_scan_sent_witness :
  Forall (fun f => f = reset_command \/ f = scan_command) (uart_written demo_out_of_sync).
Proof.
  exact (proj1 (only_reset_and_scan_sent demo_out_of_sync demo_out_of_sync_reachable)).
Defined.

Lemma scan_descriptor_recognised_witness :
  _rp_state (foldl (process_byte 1020) demo_responding scan_descriptor) = rp_measurements.
Proof.
  rewrite (scan_descriptor_recognised 1020 demo_responding).
  - reflexivity.
  - left. vm_compute. reflexivity.
  - vm_compute. reflexivity.
  - vm_compute. reflexivity.
Defined.

Lemma health_descriptor_recognised_witness :
  _rp_state (foldl (process_byte 1020) demo_responding health_descriptor) = rp_health.
Proof.
  rewrite (health_descriptor_recognised 1020 demo_responding).
  - reflexivity.
  - left. vm_compute. reflexivity.
  - vm_compute. reflexivity.
  - vm_compute. reflexivity.
Defined.

(** Two samples in sector 1: 70 degrees at 1.5 m and 80 degrees at 1 m. *)
Lemma scan_stream_decoded_witness :
  foldl (process_byte 1040) demo_scanning
    (concat ([scan_payload_bytes 15 4480 6000] ++ [scan_payload_bytes 15 5120 4000])) =
  (ingest_all (scan_sample 1040 <$> ([scan_payload_bytes 15 4480 6000]
                                     ++ [scan_payload_bytes 15 5120 4000])) demo_scanning
     |> set_payload (scan_payload_bytes 15 5120 4000)
     |> set_byte_count 0).
Proof.
  apply scan_stream_decoded.
  - vm_compute. reflexivity.
  - vm_compute. reflexivity.
  - vm_compute. reflexivity.
  - vm_compute. reflexivity.
  - vm_compute. reflexivity.
  - vm_compute. reflexivity.
  - repeat constructor; vm_compute; reflexivity.
Defined.

Lemma health_state_is_terminal_witness :
  update 1500 [0x02; 0x00; 0x00] demo_health =
    set_status
      (if (_last_distance_received_ms demo_health =? 0)
          || (COMM_ACTIVITY_TIMEOUT_MS <? wrap32 (1500 - _last_distance_received_ms demo_health))
       then Proximity_NoData else Proximity_Good) demo_health.
Proof.
  apply health_state_is_terminal; vm_compute; reflexivity.
Defined.

(** Eleven zero bytes in the unknown state, right after the sectors are laid
    out. *)
Lemma unknown_state_retry_limit_witness :
  foldl (process_byte 1005) demo_partitioned (replicate 10 0x00 ++ [0x00]) =
    (demo_partitioned |> uart_write reset_command
                      |> set_resetted true
                      |> set_last_reset_ms 1005
                      |> set_rp_state rp_resetted
                      |> set_cnt 0).
Proof.
  apply (unknown_state_retry_limit 1005 demo_partitioned (replicate 10 0x00) 0x00).
  - vm_compute. reflexivity.
  - vm_compute. reflexivity.
  - vm_compute. congruence.
  - vm_compute. reflexivity.
  - repeat constructor; vm_compute; congruence.
  - vm_compute. congruence.
Defined.

(** Seven zero bytes after the reset, instead of the device information. *)
Lemma reset_without_information_witness :
  foldl (process_byte 1011) (update 1010 [] demo_partitioned) (replicate 6 0x00 ++ [0x00]) =
    (update 1010 [] demo_partitioned |> set_rp_state rp_unknown |> set_cnt 0).
Proof.
  apply (reset_without_information 1011 (update 1010 [] demo_partitioned)
           (replicate 6 0x00) 0x00).
  - vm_compute. reflexivity.
  - vm_compute. reflexivity.
  - vm_compute. congruence.
  - vm_compute. reflexivity.
  - repeat constructor; vm_compute; congruence.
  - vm_compute. congruence.
Defined.

Lemma device_information_consumed_witness :
  _rp_systeminfo (foldl (process_byte 1011) (update 1010 [] demo_partitioned)
                    (0x52 :: replicate 61 0x20 ++ [0x0A])) =
    (0x52 :: replicate 61 0x20) ++ drop 62 (_rp_systeminfo (update 1010 [] demo_partitioned)).
Proof.
  destruct (device_information_consumed 1011 (update 1010 [] demo_partitioned)
              (replicate 61 0x20) 0x0A) as [_ H].
  - vm_compute. reflexivity.
  - vm_compute. reflexivity.
  - vm_compute. reflexivity.
  - vm_compute. reflexivity.
  - vm_compute. reflexivity.
  - exact H.
Defined.

(** An arc of 100 degrees from 15 degrees: three sectors, 45, 27 and 28
    degrees. *)
Lemma divide_area_covers_witness :
  arc_between (_sector_width_deg (divide_area 100 0 15 100 (power_on 8)).2)
    (Z.to_nat 0) (Z.to_nat (divide_area 100 0 15 100 (power_on 8)).1) = 100.
Proof.
  destruct (divide_area_covers 100 0 15 100 (power_on 8)) as (_ & _ & _ & _ & _ & H).
  - lia.
  - vm_compute. congruence.
  - lia.
  - lia.
  - lia.
  - lia.
  - vm_compute. lia.
  - vm_compute. lia.
  - apply H. vm_compute. reflexivity.
Defined.

Lemma sectors_initialised_once_witness : (boundary_inits demo_out_of_sync <= 1)%nat.
Proof.
  exact (proj1 (sectors_initialised_once demo_out_of_sync demo_out_of_sync_reachable)).
Defined.

(** A byte received before the first cycle stays unread. *)
Lemma start_up_takes_two_cycles_witness :
  decoder_fields (update 1000 [0xA5] (power_on 8)) = decoder_fields (power_on 8).
Proof.
  destruct (start_up_takes_two_cycles 1000 [0xA5] 1010 [] (power_on 8)) as (_ & H & _).
  - exact power_on_constructed.
  - reflexivity.
  - exact H.
Defined.

(** The candidate 0 m of sector 0 after start-up, a sample at 30 degrees
    and 1.5 m in sector 0, and the crossing to sector 1 at 70 degrees. *)
Lemma candidate_in_dead_zone_is_committed_witness :
  _distance (ingest_all [scan_sample 1041 (scan_payload_bytes 15 4480 8000)]
               (ingest_all [scan_sample 1040 (scan_payload_bytes 15 1920 6000)]
                  demo_scanning)) =
    <[Z.to_nat (_last_sector demo_scanning) := _distance_m_last demo_scanning]>
      (_distance demo_scanning).
Proof.
  destruct (candidate_in_dead_zone_is_committed demo_scanning
              [scan_sample 1040 (scan_payload_bytes 15 1920 6000)]
              (scan_sample 1041 (scan_payload_bytes 15 4480 8000)))
    as (_ & _ & _ & _ & H & _).
  - vm_compute. congruence.
  - repeat constructor; vm_compute; reflexivity.
  - vm_compute. reflexivity.
  - exact H.
Defined.

Lemma power_on_to_measurements_witness :
  uart_written
    (update 1020 scan_descriptor
       (update 1010 (0x52 :: replicate 61 0x20 ++ [0x0A])
          (update 1000 [] (power_on 8)))) = [reset_command; scan_command].
Proof.
  destruct (power_on_to_measurements 1000 [] 1010 (replicate 61 0x20) 0x0A 1020
              (power_on 8)) as (_ & _ & H & _).
  - exact power_on_constructed.
  - reflexivity.
  - reflexivity.
  - exact H.
Defined.

Lemma descriptor_flag_never_cleared_witness :
  _descriptor_data (update 1040 [0x00] demo_scanning) = true.
Proof.
  destruct (descriptor_flag_never_cleared 1040 [0x00] demo_scanning) as [H _].
  - vm_compute. reflexivity.
  - exact H.
Defined.

(** A scan payload split over two cycles, two bytes and three. *)
Lemma update_chunks_witness :
  update 1040 [0x40; 0x1F; 0x17] (update 1040 [0x3D; 0x01] demo_scanning) =
  update 1040 ([0x3D; 0x01] ++ [0x40; 0x1F; 0x17]) demo_scanning.
Proof.
  apply update_chunks; vm_compute; reflexivity.
Defined.
